(** * RWKV checkpoint conversion: key rewriter, configuration builder, index file

    A shallow embedding of [convert_rwkv_checkpoint_to_hf.py]
    (src/transformers/models/rwkv) and the properties its specification
    states about it.

    Python [str] values are modelled as [string]: a sequence of code points
    below 256.  In that range the regular-expression class [\d] is exactly
    the ten characters 0-9. *)

From Stdlib Require Import String Ascii List Bool Arith ZArith Lia.
From Stdlib Require Import Permutation Sorted DecimalString DecimalNat OrderedTypeEx.
From Stdlib Require DecimalPos.
Import ListNotations.

Open Scope string_scope.

(** ** Python string primitives *)

Module PyStr.

(** [s.startswith(p)] *)
Fixpoint startswith (s p : string) {struct p} : bool :=
  match p with
  | EmptyString => true
  | String c p' =>
      match s with
      | EmptyString => false
      | String d s' => if Ascii.eqb c d then startswith s' p' else false
      end
  end.

(** [s.endswith(suf)]: some tail of [s] is [suf]. *)
Fixpoint endswith (s suf : string) : bool :=
  if String.eqb s suf then true
  else match s with
       | EmptyString => false
       | String _ s' => endswith s' suf
       end.

(** [sub in s] *)
Fixpoint contains (sub s : string) : bool :=
  if startswith s sub then true
  else match s with
       | EmptyString => false
       | String _ s' => contains sub s'
       end.

(** [s.replace(old, new)] for a non-empty [old] (every call site passes a
    non-empty literal): occurrences are found left to right and do not
    overlap.  [skip] counts the characters of the occurrence just replaced
    that the scan still has to step over. *)
Fixpoint replace_from (old new : string) (skip : nat) (s : string) : string :=
  match s with
  | EmptyString => EmptyString
  | String c s' =>
      match skip with
      | S k => replace_from old new k s'
      | O =>
          if startswith s old
          then new ++ replace_from old new (String.length old - 1) s'
          else String c (replace_from old new 0 s')
      end
  end.

Definition replace (old new s : string) : string := replace_from old new 0 s.

(** The class [\d] on code points below 256. *)
Definition is_digit (c : ascii) : bool :=
  let n := nat_of_ascii c in (48 <=? n)%nat && (n <=? 57)%nat.

(** The longest run of digits at the head of [s] (what a greedy [\d+]
    takes first). *)
Fixpoint digit_run (s : string) : string :=
  match s with
  | EmptyString => EmptyString
  | String c s' => if is_digit c then String c (digit_run s') else EmptyString
  end.

(** Every character is in the class [\d]. *)
Fixpoint all_digits (s : string) : bool :=
  match s with
  | EmptyString => true
  | String c s' => is_digit c && all_digits s'
  end.

(** The string without its first [n] characters, [s[n:]]. *)
Fixpoint drop (n : nat) (s : string) : string :=
  match n, s with
  | O, _ => s
  | S k, String _ s' => drop k s'
  | S _, EmptyString => EmptyString
  end.

(** A match of [blocks\.(\d+)\.<seg>] at the head of [s]; the result is the
    captured group.  After the longest digit run the next character has to
    be the dot; giving digits back cannot help, since the character after a
    shorter run is a digit. *)
Definition match_block (seg s : string) : option string :=
  if startswith s "blocks." then
    let ds := digit_run (drop 7 s) in
    match ds with
    | EmptyString => None
    | _ => if startswith (drop (7 + String.length ds) s) ("." ++ seg)
           then Some ds else None
    end
  else None.

(** [re.sub(r"blocks\.(\d+)\.<seg>", r"blocks.\1.<repl>", s)]: every
    non-overlapping match, left to right. *)
Fixpoint sub_block_from (seg repl : string) (skip : nat) (s : string) : string :=
  match s with
  | EmptyString => EmptyString
  | String c s' =>
      match skip with
      | S k => sub_block_from seg repl k s'
      | O =>
          match match_block seg s with
          | Some ds =>
              "blocks." ++ ds ++ "." ++ repl
                ++ sub_block_from seg repl (7 + String.length ds + String.length seg) s'
          | None => String c (sub_block_from seg repl 0 s')
          end
      end
  end.

Definition sub_block (seg repl s : string) : string := sub_block_from seg repl 0 s.

End PyStr.

(** ** The key rewriter, one key at a time (lines 53-74) *)

Definition rule_emb (name : string) : string :=
  if PyStr.startswith name "emb."
  then PyStr.replace "emb." "embeddings." name else name.

Definition rule_pre_ln (name : string) : string :=
  if PyStr.startswith name "blocks.0.ln0"
  then PyStr.replace "blocks.0.ln0" "blocks.0.pre_ln" name else name.

Definition rule_att (name : string) : string := PyStr.sub_block "att" "attention" name.

Definition rule_ffn (name : string) : string := PyStr.sub_block "ffn" "feed_forward" name.

Definition rule_time_mix (suffix target name : string) : string :=
  if PyStr.endswith name suffix then PyStr.replace suffix target name else name.

Definition rule_prefix (name : string) : string :=
  if String.eqb name "head.weight" then name else "rwkv." ++ name.

Definition convert_key (name : string) : string :=
  let name := rule_emb name in
  let name := rule_pre_ln name in
  let name := rule_att name in
  let name := rule_ffn name in
  let name := rule_time_mix ".time_mix_k" ".time_mix_key" name in
  let name := rule_time_mix ".time_mix_v" ".time_mix_value" name in
  let name := rule_time_mix ".time_mix_r" ".time_mix_receptance" name in
  rule_prefix name.

(** The decimal numeral of a block index, as it stands in a key. *)
Definition block_index (n : nat) : string := NilZero.string_of_uint (Nat.to_uint n).

(** ** Exceptions and results *)

Inductive exn : Type :=
| ValueError (msg : string)
| KeyError (key : string)
| TypeError
| UnboundLocalError (var : string).

Inductive result (A : Type) : Type :=
| Ok (a : A)
| Raise (e : exn).

Arguments Ok {A} a.
Arguments Raise {A} e.

Definition bind {A B : Type} (m : result A) (k : A -> result B) : result B :=
  match m with
  | Ok a => k a
  | Raise e => Raise e
  end.

Notation "x <- m ;; k" := (bind m (fun x => k))
  (at level 61, m at next level, right associativity).

(** [x in l] for a list of strings. *)
Definition in_list (x : string) (l : list string) : bool := existsb (String.eqb x) l.

(** ** Python dictionaries with string keys

    A [dict] keeps its items in insertion order and has no key twice, so it
    is an association list whose keys are distinct. *)

Module PyDict.
Section Dict.
Context {V : Type}.

Definition t : Type := list (string * V).

Definition keys (d : t) : list string := map fst d.

Fixpoint get (k : string) (d : t) : option V :=
  match d with
  | [] => None
  | (k', v) :: d' => if String.eqb k' k then Some v else get k d'
  end.

Fixpoint remove (k : string) (d : t) : t :=
  match d with
  | [] => []
  | (k', v) :: d' => if String.eqb k' k then d' else (k', v) :: remove k d'
  end.

(** [d.pop(k)]: the value and the dictionary without the item, or
    [KeyError]. *)
Definition pop (k : string) (d : t) : result (V * t) :=
  match get k d with
  | Some v => Ok (v, remove k d)
  | None => Raise (KeyError k)
  end.

(** [d[k] = v]: an existing key keeps its place and takes the new value,
    a new key goes to the end. *)
Fixpoint set (k : string) (v : V) (d : t) : t :=
  match d with
  | [] => [(k, v)]
  | (k', v') :: d' => if String.eqb k' k then (k', v) :: d' else (k', v') :: set k v d'
  end.

(** The keys of a well-formed dictionary, as a check. *)
Fixpoint distinct (l : list string) : bool :=
  match l with
  | [] => true
  | k :: l' => negb (existsb (String.eqb k) l') && distinct l'
  end.

Definition wf (d : t) : bool := distinct (keys d).
End Dict.
Arguments t V : clear implicits.
End PyDict.

(** ** The key rewriter over a checkpoint (lines 49-77)

    The loop runs over a snapshot of the keys and mutates the one
    dictionary it was given: every step pops the old name and stores the
    weight under the new one. *)

Section Rewriter.
Context {tensor : Type}.
Variable rename : string -> string.

Fixpoint rename_loop (names : list string) (state_dict : PyDict.t tensor)
    : result (PyDict.t tensor) :=
    match names with
    | [] => Ok state_dict
    | name :: names' =>
        p <- PyDict.pop name state_dict ;;
        rename_loop names' (PyDict.set (rename name) (fst p) (snd p))
    end.
End Rewriter.

Definition convert_state_dict {tensor : Type} (state_dict : PyDict.t tensor)
  : result (PyDict.t tensor) :=
  rename_loop convert_key (PyDict.keys state_dict) state_dict.

(** What the rewriter yields when no two names meet: every item keeps its
    place and its weight and takes the new name. *)
Definition rename_items {tensor : Type} (rename : string -> string)
  (d : PyDict.t tensor) : PyDict.t tensor :=
  map (fun kv => (rename (fst kv), snd kv)) d.

(** No name is renamed to a name that comes later in the list. *)
Fixpoint later_free (rename : string -> string) (names : list string) : bool :=
  match names with
  | [] => true
  | name :: rest => negb (in_list (rename name) rest) && later_free rename rest
  end.

(** The renamed names are pairwise different and none of them is a name
    still waiting for its turn. *)
Definition collision_free (rename : string -> string) (names : list string) : bool :=
  PyDict.distinct (map rename names) && later_free rename names.

(** ** The configuration builder (lines 31-47, 80-111) *)

Open Scope Z_scope.

Definition NUM_HIDDEN_LAYERS_MAPPING : PyDict.t Z :=
  [("169M", 12); ("430M", 24); ("1B5", 24); ("3B", 32); ("7B", 32); ("14B", 40)].

Definition HIDEN_SIZE_MAPPING : PyDict.t Z :=
  [("169M", 768); ("430M", 1024); ("1B5", 2048); ("3B", 2560); ("7B", 4096); ("14B", 5120)].

(** [table[key]] *)
Definition getitem (table : PyDict.t Z) (key : string) : result Z :=
  match PyDict.get key table with
  | Some v => Ok v
  | None => Raise (KeyError key)
  end.

(** The [size] argument: a label, or the tuple that [__main__] builds from
    [--num_hidden_layers] and [--hidden_size]. *)
Inductive size_arg : Type :=
| SizeLabel (label : string)
| SizeTuple (layers hidden : Z).

Record RwkvConfig : Type := mkConfig {
  vocab_size : Z;
  num_hidden_layers : Z;
  hidden_size : Z
}.

Definition possible_sizes : list string := PyDict.keys NUM_HIDDEN_LAYERS_MAPPING.

(** The text of a list of plain strings inside an f-string. *)
Definition repr_list (l : list string) : string :=
  "[" ++ String.concat ", " (map (fun s => "'" ++ s ++ "'") l) ++ "]".

(** Lines 99-102: the first candidate that occurs in the file name. *)
Fixpoint infer_size (candidates : list string) (checkpoint_file : string) : option string :=
  match candidates with
  | [] => None
  | candidate :: rest =>
      if PyStr.contains candidate checkpoint_file then Some candidate
      else infer_size rest checkpoint_file
  end.

(** Lines 91-106.  The result is the state of the two locals
    [num_hidden_layers] and [hidden_size] after the statement: [None] is a
    local that was never assigned.  A [checkpoint_file] of [None] makes the
    first [in] test raise [TypeError]. *)
Definition resolve_size (size : option size_arg) (checkpoint_file : option string)
  : result (option Z * option Z) :=
  match size with
  | Some (SizeTuple layers hidden) => Ok (Some layers, Some hidden)
  | Some (SizeLabel label) =>
      if in_list label possible_sizes then Ok (None, None)
      else Raise (ValueError ("`size` should be one of " ++ repr_list possible_sizes
                                ++ ", got " ++ label ++ "."))
  | None =>
      match checkpoint_file with
      | None => Raise TypeError
      | Some file =>
          match infer_size possible_sizes file with
          | None => Raise (ValueError
                      "Could not infer the size, please provide it with the `--size` argument.")
          | Some label =>
              layers <- getitem HIDEN_SIZE_MAPPING label ;;
              hidden <- getitem HIDEN_SIZE_MAPPING label ;;
              Ok (Some layers, Some hidden)
          end
      end
  end.

(** Reading a local variable. *)
Definition load_local (var : string) (x : option Z) : result Z :=
  match x with
  | Some v => Ok v
  | None => Raise (UnboundLocalError var)
  end.

(** Lines 82-88: the vocabulary size; [tokenizer_len] is [len(tokenizer)]
    when a tokenizer file was given. *)
Definition vocab_size_of (tokenizer_len : option Z) : Z :=
  match tokenizer_len with
  | None => 50277
  | Some n => n
  end.

(** Lines 91-111: the configuration record. *)
Definition build_config (tokenizer_len : option Z) (size : option size_arg)
  (checkpoint_file : option string) : result RwkvConfig :=
  locals <- resolve_size size checkpoint_file ;;
  layers <- load_local "num_hidden_layers" (fst locals) ;;
  hidden <- load_local "hidden_size" (snd locals) ;;
  Ok (mkConfig (vocab_size_of tokenizer_len) layers hidden).

(** Lines 186-190: the [size] that the command line passes on. *)
Record cli_args : Type := mkArgs {
  arg_checkpoint_file : option string;
  arg_size : option string;
  arg_hidden_size : Z;
  arg_num_hidden_layers : Z
}.

Definition main_size (args : cli_args) : size_arg :=
  match arg_size args with
  | Some label => SizeLabel label
  | None => SizeTuple (arg_num_hidden_layers args) (arg_hidden_size args)
  end.

Definition main_config (tokenizer_len : option Z) (args : cli_args) : result RwkvConfig :=
  build_config tokenizer_len (Some (main_size args)) (arg_checkpoint_file args).

Close Scope Z_scope.

Set Warnings "-register-all".

(** ** The index file (lines 127-132)

    The index that the shard planner returns is a Python value made of
    dictionaries with string keys, lists, strings, integers, booleans and
    [None]; the planner returns [None] in its place when there is a single
    shard. *)

Inductive json : Type :=
| JNull
| JBool (b : bool)
| JInt (n : Z)
| JStr (s : string)
| JList (items : list json)
| JDict (items : PyDict.t json).

Module Json.

Definition newline : string := String "010"%char "".
Definition quote : string := String "034"%char "".

Definition hex_digit (n : nat) : string :=
  String.substring n 1 "0123456789abcdef".

(** One character of a string literal, with [ensure_ascii] as it is by
    default: the quote and the backslash get a backslash, the control
    characters with a short name get it, every other character outside
    space..~ becomes [\u00xx]. *)
Definition escape_char (c : ascii) : string :=
  let n := nat_of_ascii c in
  if (n =? 34)%nat then "\" ++ quote
  else if (n =? 92)%nat then "\\"
  else if (n =? 10)%nat then "\n"
  else if (n =? 13)%nat then "\r"
  else if (n =? 9)%nat then "\t"
  else if (n =? 8)%nat then "\b"
  else if (n =? 12)%nat then "\f"
  else if ((32 <=? n) && (n <=? 126))%nat then String c ""
  else "\u00" ++ hex_digit (n / 16) ++ hex_digit (n mod 16).

Fixpoint escape (s : string) : string :=
  match s with
  | EmptyString => EmptyString
  | String c s' => escape_char c ++ escape s'
  end.

Definition encode_str (s : string) : string := quote ++ escape s ++ quote.

(** [repr] of an [int]. *)
Definition encode_int (n : Z) : string := NilZero.string_of_int (Z.to_int n).

Fixpoint spaces (n : nat) : string :=
  match n with
  | O => EmptyString
  | S k => String " " (spaces k)
  end.

(** The line break in front of an item at nesting depth [level]. *)
Definition newline_indent (indent level : nat) : string :=
  newline ++ spaces (indent * level).

(** [sorted(dct.items())] on the items of a dictionary: the keys are
    distinct, so the order of two items is the order of their keys. *)
Fixpoint insert_item {A : Type} (x : string * A) (l : list (string * A))
  : list (string * A) :=
  match l with
  | [] => [x]
  | y :: l' => if String.leb (fst x) (fst y) then x :: l else y :: insert_item x l'
  end.

Definition sort_items {A : Type} (l : list (string * A)) : list (string * A) :=
  fold_right insert_item [] l.

Definition key_le {A : Type} (x y : string * A) : Prop :=
  String.leb (fst x) (fst y) = true.

(** An item with its value changed and its key kept. *)
Definition on_snd {A B : Type} (g : A -> B) (kv : string * A) : string * B :=
  (fst kv, g (snd kv)).

(** A non-empty container: opening bracket, the chunks one per line at
    depth [level + 1], closing bracket on a line of its own at depth
    [level]. *)
Definition lay_out (indent level : nat) (opening closing : string)
  (chunks : list string) : string :=
  match chunks with
  | [] => opening ++ closing
  | _ => opening ++ newline_indent indent (S level)
           ++ String.concat ("," ++ newline_indent indent (S level)) chunks
           ++ newline_indent indent level ++ closing
  end.

Definition member (kv : string * string) : string :=
  encode_str (fst kv) ++ ": " ++ snd kv.

(** The encoder of [json.dumps(obj, indent=indent, sort_keys=sort_keys)]
    at nesting depth [level].  The values of a dictionary are rendered
    first and the items ordered afterwards; the order looks at the keys
    only, so this is the text of the items taken in sorted order. *)
Fixpoint encode (indent : nat) (sort_keys : bool) (level : nat) (v : json) : string :=
  match v with
  | JNull => "null"
  | JBool true => "true"
  | JBool false => "false"
  | JInt n => encode_int n
  | JStr s => encode_str s
  | JList items =>
      lay_out indent level "[" "]" (map (encode indent sort_keys (S level)) items)
  | JDict items =>
      let rendered := map (on_snd (encode indent sort_keys (S level))) items in
      lay_out indent level "{" "}"
        (map member (if sort_keys then sort_items rendered else rendered))
  end.

Definition dumps (indent : nat) (sort_keys : bool) (obj : json) : string :=
  encode indent sort_keys 0 obj.

End Json.

(** *** Reading a rendered text back: lines, indentation, key order *)

Module Layout.

Definition is_space (c : ascii) : bool := Ascii.eqb c " ".
Definition is_newline (c : ascii) : bool := Ascii.eqb c "010".
Definition is_blank (c : ascii) : bool := is_space c || is_newline c.

(** The number of spaces at the head of a text. *)
Fixpoint leading_spaces (s : string) : nat :=
  match s with
  | String c s' => if is_space c then S (leading_spaces s') else 0
  | EmptyString => 0
  end.

(** For every line break of a text, in order, the number of spaces the
    next line starts with. *)
Fixpoint breaks (s : string) : list nat :=
  match s with
  | EmptyString => []
  | String c s' => if is_newline c then leading_spaces s' :: breaks s' else breaks s'
  end.

(** The text starts with a character that is neither a space nor a line
    break. *)
Definition head_ok (s : string) : bool :=
  match s with
  | EmptyString => false
  | String c _ => negb (is_blank c)
  end.

(** The text ends with a character that is neither a space nor a line
    break. *)
Fixpoint last_ok (s : string) : bool :=
  match s with
  | EmptyString => false
  | String c EmptyString => negb (is_blank c)
  | String _ s' => last_ok s'
  end.

Fixpoint no_newline (s : string) : bool :=
  match s with
  | EmptyString => true
  | String c s' => negb (is_newline c) && no_newline s'
  end.

(** Every character is visible: neither a space nor a line break. *)
Fixpoint all_visible (s : string) : bool :=
  match s with
  | EmptyString => true
  | String c s' => negb (is_blank c) && all_visible s'
  end.

(** A chunk of rendered text whose lines after the first sit at the
    nesting depths [ds], [indent] spaces per level. *)
Definition chunk_ok (indent : nat) (c : string) (ds : list nat) : Prop :=
  head_ok c = true /\ last_ok c = true /\ breaks c = map (Nat.mul indent) ds.

(** The nesting depths of the lines of a non-empty container after its
    first line: every chunk starts a line one level down, the closing
    bracket has a line at the container's own level. *)
Definition frame (level : nat) (chunks : list (list nat)) : list nat :=
  match chunks with
  | [] => []
  | _ => (concat (map (fun ds => S level :: ds) chunks) ++ [level])%list
  end.

(** The nesting depth of every line, after the first, of the rendering of
    a value that starts at depth [level]. *)
Fixpoint depths (sort_keys : bool) (level : nat) (v : json) : list nat :=
  match v with
  | JList items => frame level (map (depths sort_keys (S level)) items)
  | JDict items =>
      let ds := map (Json.on_snd (depths sort_keys (S level))) items in
      frame level (map snd (if sort_keys then Json.sort_items ds else ds))
  | _ => []
  end.

(** The keys are in ascending order. *)
Fixpoint ascending (l : list string) : bool :=
  match l with
  | a :: (b :: _) as rest => String.leb a b && ascending rest
  | _ => true
  end.

(** Every dictionary of the value has its items in ascending key order. *)
Fixpoint dicts_sorted (v : json) : bool :=
  match v with
  | JList items => forallb dicts_sorted items
  | JDict items =>
      ascending (PyDict.keys items) && forallb (fun kv => dicts_sorted (snd kv)) items
  | _ => true
  end.

(** The value with the items of every dictionary put in key order. *)
Fixpoint canon (v : json) : json :=
  match v with
  | JList items => JList (map canon items)
  | JDict items => JDict (Json.sort_items (map (Json.on_snd canon) items))
  | _ => v
  end.

(** Every dictionary of the value has distinct keys, as a Python
    dictionary does. *)
Fixpoint json_wf (v : json) : bool :=
  match v with
  | JList items => forallb json_wf items
  | JDict items =>
      PyDict.distinct (PyDict.keys items) && forallb (fun kv => json_wf (snd kv)) items
  | _ => true
  end.

(** Two values that differ at most in the order in which the items of
    their dictionaries were inserted. *)
Inductive same_content : json -> json -> Prop :=
| same_null : same_content JNull JNull
| same_bool b : same_content (JBool b) (JBool b)
| same_int n : same_content (JInt n) (JInt n)
| same_str s : same_content (JStr s) (JStr s)
| same_list l l' : same_all l l' -> same_content (JList l) (JList l')
| same_dict items mid items' :
    same_items items mid -> Permutation mid items' ->
    same_content (JDict items) (JDict items')
with same_all : list json -> list json -> Prop :=
| same_all_nil : same_all [] []
| same_all_cons v v' l l' :
    same_content v v' -> same_all l l' -> same_all (v :: l) (v' :: l')
with same_items : PyDict.t json -> PyDict.t json -> Prop :=
| same_items_nil : same_items [] []
| same_items_cons k v v' l l' :
    same_content v v' -> same_items l l' -> same_items ((k, v) :: l) ((k, v') :: l').

Scheme same_content_min := Minimality for same_content Sort Prop
  with same_all_min := Minimality for same_all Sort Prop
  with same_items_min := Minimality for same_items Sort Prop.

Combined Scheme same_content_mutind
  from same_content_min, same_all_min, same_items_min.

End Layout.

(** Lines 127-132: the text written to the index file, if one is
    written. *)
Definition index_file_content (index : json) : string :=
  Json.dumps 2 true index ++ Json.newline.

Definition save_index (index : option json) : option string :=
  match index with
  | None => None
  | Some idx => Some (index_file_content idx)
  end.

(** ** The renaming rules as the specification words them

    Section 4.1 of the specification lists eight rules.  A rule for a
    prefix rewrites the prefix a key begins with, a rule for a suffix the
    suffix it ends with; the texts of the prefixes and suffixes are the
    literals of lines 54-70. *)

(** [sub] occurs in [s]: [s] is [sub] between two texts. *)
Definition occurs_in (sub s : string) : Prop := exists a b, s = a ++ sub ++ b.

(** The text behind the prefix [p] of [key], if [key] begins with [p]. *)
Fixpoint strip_prefix (p key : string) : option string :=
  match p, key with
  | EmptyString, _ => Some key
  | String c p', String d key' =>
      if Ascii.eqb c d then strip_prefix p' key' else None
  | String _ _, EmptyString => None
  end.

(** The text in front of the suffix [suf] of [key], if [key] ends with
    [suf]. *)
Fixpoint strip_suffix (suf key : string) : option string :=
  if String.eqb key suf then Some EmptyString
  else match key with
       | EmptyString => None
       | String c key' => option_map (String c) (strip_suffix suf key')
       end.

(** Rules 1 and 2: a key that begins with [old] has that prefix rewritten
    to [new]. *)
Definition spec_rewrite_prefix (old new key : string) : string :=
  match strip_prefix old key with
  | Some rest => new ++ rest
  | None => key
  end.

(** Rules 5 to 7: a key that ends with [old] has that suffix rewritten to
    [new]. *)
Definition spec_rewrite_suffix (old new key : string) : string :=
  match strip_suffix old key with
  | Some front => front ++ new
  | None => key
  end.

Definition spec_rule_1 : string -> string := spec_rewrite_prefix "emb." "embeddings.".
Definition spec_rule_2 : string -> string :=
  spec_rewrite_prefix "blocks.0.ln0" "blocks.0.pre_ln".
(** Rules 3 and 4 are substitutions of a pattern wherever it occurs, in
    the specification as in the code. *)
Definition spec_rule_3 : string -> string := PyStr.sub_block "att" "attention".
Definition spec_rule_4 : string -> string := PyStr.sub_block "ffn" "feed_forward".
Definition spec_rule_5 : string -> string :=
  spec_rewrite_suffix ".time_mix_k" ".time_mix_key".
Definition spec_rule_6 : string -> string :=
  spec_rewrite_suffix ".time_mix_v" ".time_mix_value".
Definition spec_rule_7 : string -> string :=
  spec_rewrite_suffix ".time_mix_r" ".time_mix_receptance".
Definition spec_rule_8 (key : string) : string :=
  if String.eqb key "head.weight" then key else "rwkv." ++ key.

Definition spec_rules_1_to_4 (key : string) : string :=
  spec_rule_4 (spec_rule_3 (spec_rule_2 (spec_rule_1 key))).

Definition spec_convert_key (key : string) : string :=
  spec_rule_8 (spec_rule_7 (spec_rule_6 (spec_rule_5 (spec_rules_1_to_4 key)))).

(** The prefix [p] of [key], if it is one, is the only occurrence of [p]
    in [key]; likewise for a suffix. *)
Definition once_as_prefix (p key : string) : Prop :=
  forall rest, key = p ++ rest -> ~ occurs_in p rest.

Definition once_as_suffix (suf key : string) : Prop :=
  forall front, key = front ++ suf -> ~ occurs_in suf front.

(** ** A reader of JSON texts

    What a JSON reader makes of a text, for texts whose strings hold code
    points below 256 and whose numbers are integers.  The members of an
    object are returned in the order in which the text has them. *)

Module JsonRead.

Definition is_ws (c : ascii) : bool :=
  Ascii.eqb c " " || Ascii.eqb c "010" || Ascii.eqb c "013" || Ascii.eqb c "009".

Fixpoint skip_ws (s : string) : string :=
  match s with
  | String c s' => if is_ws c then skip_ws s' else s
  | EmptyString => EmptyString
  end.

Definition is_digit (c : ascii) : bool :=
  let n := nat_of_ascii c in (48 <=? n)%nat && (n <=? 57)%nat.

Definition hex_value (c : ascii) : option nat :=
  let n := nat_of_ascii c in
  if ((48 <=? n) && (n <=? 57))%nat then Some (n - 48)
  else if ((97 <=? n) && (n <=? 102))%nat then Some (n - 87)
  else if ((65 <=? n) && (n <=? 70))%nat then Some (n - 55)
  else None.

(** The code point of [\uXXXX], if it is below 256. *)
Definition hex4 (a b c d : ascii) : option ascii :=
  match hex_value a, hex_value b, hex_value c, hex_value d with
  | Some x, Some y, Some z, Some w =>
      let n := ((x * 16 + y) * 16 + z) * 16 + w in
      if (n <? 256)%nat then Some (ascii_of_nat n) else None
  | _, _, _, _ => None
  end.

(** The character a backslash and [c] stand for. *)
Definition unescape (c : ascii) : option ascii :=
  if Ascii.eqb c "034" then Some "034"%char
  else if Ascii.eqb c "\" then Some "\"%char
  else if Ascii.eqb c "/" then Some "/"%char
  else if Ascii.eqb c "b" then Some "008"%char
  else if Ascii.eqb c "f" then Some "012"%char
  else if Ascii.eqb c "n" then Some "010"%char
  else if Ascii.eqb c "r" then Some "013"%char
  else if Ascii.eqb c "t" then Some "009"%char
  else None.

Definition push (c : option ascii) (p : option (string * string))
  : option (string * string) :=
  match c, p with
  | Some c, Some (t, r) => Some (String c t, r)
  | _, _ => None
  end.

(** The characters of a string literal behind its opening quote, and the
    text behind its closing quote. *)
Fixpoint read_chars (s : string) : option (string * string) :=
  match s with
  | EmptyString => None
  | String c s1 =>
      if Ascii.eqb c "034" then Some (EmptyString, s1)
      else if Ascii.eqb c "\" then
        match s1 with
        | EmptyString => None
        | String e s2 =>
            if Ascii.eqb e "u" then
              match s2 with
              | String h1 (String h2 (String h3 (String h4 s3))) =>
                  push (hex4 h1 h2 h3 h4) (read_chars s3)
              | _ => None
              end
            else push (unescape e) (read_chars s2)
        end
      else if (nat_of_ascii c <? 32)%nat then None
      else push (Some c) (read_chars s1)
  end.

Definition read_string (s : string) : option (string * string) :=
  match s with
  | String q s' => if Ascii.eqb q "034" then read_chars s' else None
  | EmptyString => None
  end.

(** The longest run of digits at the head of a text, and the text behind
    it. *)
Fixpoint span_digits (s : string) : string * string :=
  match s with
  | EmptyString => (EmptyString, EmptyString)
  | String c s' =>
      if is_digit c
      then let (ds, r) := span_digits s' in (String c ds, r)
      else (EmptyString, s)
  end.

Definition read_nat (s : string) : option (Z * string) :=
  let (ds, r) := span_digits s in
  match ds with
  | EmptyString => None
  | _ =>
      match NilEmpty.uint_of_string ds with
      | Some d => Some (Z.of_uint d, r)
      | None => None
      end
  end.

Definition read_int (s : string) : option (Z * string) :=
  match s with
  | EmptyString => None
  | String c s' =>
      if Ascii.eqb c "-"
      then match read_nat s' with
           | Some (n, r) => Some (Z.opp n, r)
           | None => None
           end
      else read_nat s
  end.

(** A value that is not a container. *)
Definition read_scalar (s : string) : option (json * string) :=
  match strip_prefix "null" s, strip_prefix "true" s, strip_prefix "false" s with
  | Some r, _, _ => Some (JNull, r)
  | _, Some r, _ => Some (JBool true, r)
  | _, _, Some r => Some (JBool false, r)
  | _, _, _ =>
      match read_string s with
      | Some (t, r) => Some (JStr t, r)
      | None =>
          match read_int s with
          | Some (n, r) => Some (JInt n, r)
          | None => None
          end
      end
  end.

(** Behind an item of a container: a comma and more items, or the
    closing bracket. *)
Definition after_item {A : Type} (closing : ascii)
  (more : string -> option (list A * string)) (x : A) (s : string)
  : option (list A * string) :=
  match skip_ws s with
  | EmptyString => None
  | String c r =>
      if Ascii.eqb c ","
      then match more (skip_ws r) with
           | Some (xs, r') => Some (x :: xs, r')
           | None => None
           end
      else if Ascii.eqb c closing then Some ([x], r)
      else None
  end.

(** A container behind its opening bracket: the closing bracket, or
    items. *)
Definition container {A : Type} (closing : ascii) (build : list A -> json)
  (items : string -> option (list A * string)) (s : string)
  : option (json * string) :=
  match skip_ws s with
  | EmptyString => None
  | String c r =>
      if Ascii.eqb c closing then Some (build [], r)
      else match items (String c r) with
           | Some (xs, r') => Some (build xs, r')
           | None => None
           end
  end.

(** A key, a colon and what [value] reads behind it. *)
Definition member {A : Type} (value : string -> option (A * string)) (s : string)
  : option ((string * A) * string) :=
  match read_string s with
  | None => None
  | Some (k, r) =>
      match skip_ws r with
      | EmptyString => None
      | String c r1 =>
          if Ascii.eqb c ":"
          then match value (skip_ws r1) with
               | Some (v, r2) => Some ((k, v), r2)
               | None => None
               end
          else None
      end
  end.

(** The value at the head of a text and the text behind it; [fuel] bounds
    the nesting of the calls. *)
Fixpoint read_value (fuel : nat) (s : string) {struct fuel} : option (json * string) :=
  match fuel with
  | O => None
  | S fuel' =>
      match s with
      | EmptyString => None
      | String c s' =>
          if Ascii.eqb c "[" then container "]" JList (read_elements fuel') s'
          else if Ascii.eqb c "{" then container "}" JDict (read_members fuel') s'
          else read_scalar s
      end
  end
with read_elements (fuel : nat) (s : string) {struct fuel}
  : option (list json * string) :=
  match fuel with
  | O => None
  | S fuel' =>
      match read_value fuel' s with
      | Some (v, r) => after_item "]" (read_elements fuel') v r
      | None => None
      end
  end
with read_members (fuel : nat) (s : string) {struct fuel}
  : option (list (string * json) * string) :=
  match fuel with
  | O => None
  | S fuel' =>
      match member (read_value fuel') s with
      | Some (kv, r) => after_item "}" (read_members fuel') kv r
      | None => None
      end
  end.

(** [json.loads(s)]: one value, with white space around it at most.  No
    call nests deeper than the text is long. *)
Definition loads (s : string) : option json :=
  match read_value (String.length s) (skip_ws s) with
  | Some (v, r) =>
      match skip_ws r with
      | EmptyString => Some v
      | String _ _ => None
      end
  | None => None
  end.

(** The text begins with a character that is neither white space nor a
    closing bracket. *)
Definition head_visible (s : string) : bool :=
  match s with
  | EmptyString => false
  | String c _ => negb (is_ws c || Ascii.eqb c "]" || Ascii.eqb c "}")
  end.

(** The text does not go on with a digit. *)
Definition follow_ok (s : string) : bool :=
  match s with
  | EmptyString => true
  | String c _ => negb (is_digit c)
  end.

End JsonRead.

(** The reader gets the value [v] back from the text the encoder writes
    for it, with the items of the dictionaries in the order of their keys,
    whatever follows the text. *)
Definition reads_back (indent : nat) (v : json) : Prop :=
  forall level rest fuel,
    String.length (Json.encode indent true level v) <= fuel ->
    JsonRead.follow_ok rest = true ->
    JsonRead.read_value fuel (Json.encode indent true level v ++ rest)
    = Some (Layout.canon v, rest).

(** ** Further definitions

    What the properties of the second part are stated with. *)

(** Lines 63-71: the three suffix rules in a row. *)
Definition rule_time_mix_all (name : string) : string :=
  rule_time_mix ".time_mix_r" ".time_mix_receptance"
    (rule_time_mix ".time_mix_v" ".time_mix_value"
       (rule_time_mix ".time_mix_k" ".time_mix_key" name)).

(** A head of a key that the scan for a time-mix suffix steps over
    unchanged. *)
Definition stepped_over (head : string) : Prop :=
  forall old new rest,
    PyStr.replace_from (String "." (String "t" old)) new 0 (head ++ rest)
    = head ++ PyStr.replace_from (String "." (String "t" old)) new 0 rest.

(** One step of a loop that fills a dictionary: the item goes in under
    its new name. *)
Definition store_renamed {tensor : Type} (rename : string -> string)
  (acc : PyDict.t tensor) (item : string * tensor) : PyDict.t tensor :=
  PyDict.set (rename (fst item)) (snd item) acc.

(** What a loop that fills a new dictionary yields: the items are stored
    one by one under their new names, and a later item overwrites the
    weight of an earlier one with the same new name. *)
Definition rebuild {tensor : Type} (rename : string -> string)
  (d : PyDict.t tensor) : PyDict.t tensor :=
  fold_left (store_renamed rename) d [].

(** A key joins the keys seen so far, at the end, unless it is among
    them. *)
Definition add_key (seen : list string) (k : string) : list string :=
  if in_list k seen then seen else (seen ++ [k])%list.

(** The names of a list without repetitions, in the order in which they
    first appear. *)
Definition first_appearances (names : list string) : list string :=
  fold_left add_key names [].

(** No key begins with the prefix that the rewriter adds. *)
Definition no_rwkv_prefix (names : list string) : bool :=
  forallb (fun name => negb (PyStr.startswith name "rwkv.")) names.

(** [os.path.join(a, b)] on a POSIX system. *)
Definition os_path_join (a b : string) : string :=
  if PyStr.startswith b "/" then b
  else if String.eqb a "" || PyStr.endswith a "/" then a ++ b
  else a ++ "/" ++ b.

(** Lines 124-125: the paths the shards are saved under, in the order of
    the shard dictionary. *)
Definition saved_shard_paths {shard : Type} (output_dir : string)
  (shards : PyDict.t shard) : list string :=
  map (fun item => os_path_join output_dir (fst item)) shards.

(** Lines 127, 138 and 144-146: the paths the clean-up loads from and
    saves to; there is no clean-up without an index. *)
Definition cleaned_shard_paths {shard : Type} (index : option json)
  (shards : PyDict.t shard) : list string :=
  match index with
  | None => []
  | Some _ => PyDict.keys shards
  end.

(** Every character is a line break or a printable ASCII character. *)
Fixpoint plain_text (s : string) : bool :=
  match s with
  | EmptyString => true
  | String c s' =>
      let n := nat_of_ascii c in
      ((n =? 10)%nat || ((32 <=? n)%nat && (n <=? 126)%nat)) && plain_text s'
  end.

(** * Properties *)

(** ** The key rewriter on single keys *)

Section KeyFacts.

Lemma emb_head (rest : string) :
    rule_emb ("emb." ++ rest)
    = "embeddings." ++ PyStr.replace_from "emb." "embeddings." 0 rest.
  Proof. reflexivity. Qed.

Lemma pre_ln_skips_embeddings (t : string) :
    rule_pre_ln ("embeddings." ++ t) = "embeddings." ++ t.
  Proof. reflexivity. Qed.

Lemma sub_block_skips_embeddings (seg repl t : string) :
    PyStr.sub_block seg repl ("embeddings." ++ t)
    = "embeddings." ++ PyStr.sub_block seg repl t.
  Proof. reflexivity. Qed.

Lemma replace_from_step (old new : string) (c : ascii) (s : string) :
    PyStr.replace_from old new 0 (String c s)
    = if PyStr.startswith (String c s) old
      then new ++ PyStr.replace_from old new (String.length old - 1) s
      else String c (PyStr.replace_from old new 0 s).
  Proof. reflexivity. Qed.

  (** One character of the scan whose head cannot start an occurrence. *)
Ltac copy_char :=
    rewrite replace_from_step;
    match goal with
    | |- context [if ?b then _ else _] =>
        let E := fresh "E" in
        destruct b eqn:E; [cbn in E; discriminate E|clear E]
    end.

Lemma time_mix_keeps_embeddings (suffix target t : string) :
    (suffix, target) = (".time_mix_k", ".time_mix_key")
    \/ (suffix, target) = (".time_mix_v", ".time_mix_value")
    \/ (suffix, target) = (".time_mix_r", ".time_mix_receptance") ->
    exists t', rule_time_mix suffix target ("embeddings." ++ t) = "embeddings." ++ t'.
  Proof.
    intros Hst. unfold rule_time_mix.
    destruct (PyStr.endswith ("embeddings." ++ t) suffix); [|eauto].
    unfold PyStr.replace.
    destruct Hst as [H|[H|H]]; injection H as -> ->;
      change ("embeddings." ++ t) with
        (String "e" (String "m" (String "b" (String "e" (String "d"
          (String "d" (String "i" (String "n" (String "g" (String "s"
            (String "." t)))))))))));
      do 10 copy_char; rewrite replace_from_step;
      destruct (PyStr.startswith (String "." t) _); eexists; reflexivity.
  Qed.

Lemma convert_key_emb (rest : string) :
    exists tail, convert_key ("emb." ++ rest) = "rwkv.embeddings." ++ tail.
  Proof.
    unfold convert_key. rewrite emb_head, pre_ln_skips_embeddings.
    unfold rule_att, rule_ffn. rewrite !sub_block_skips_embeddings.
    destruct (time_mix_keeps_embeddings ".time_mix_k" ".time_mix_key"
                (PyStr.sub_block "ffn" "feed_forward"
                   (PyStr.sub_block "att" "attention"
                      (PyStr.replace_from "emb." "embeddings." 0 rest))))
      as [t1 ->]; [auto|].
    destruct (time_mix_keeps_embeddings ".time_mix_v" ".time_mix_value" t1)
      as [t2 ->]; [auto|].
    destruct (time_mix_keeps_embeddings ".time_mix_r" ".time_mix_receptance" t2)
      as [t3 ->]; [auto|].
    exists t3. reflexivity.
  Qed.

(** *** Keys of a numbered block *)

Lemma string_app_assoc (a b c : string) : (a ++ b) ++ c = a ++ b ++ c.
Proof. induction a as [|x a IH]; simpl; [reflexivity|now rewrite IH]. Qed.

Lemma digit_char (d : ascii) :
  PyStr.is_digit d = true ->
  Ascii.eqb "b" d = false /\ Ascii.eqb "." d = false /\ Ascii.eqb "t" d = false.
Proof.
  destruct d as [[] [] [] [] [] [] [] []]; intros H; try discriminate H;
    repeat split; reflexivity.
Qed.

Lemma string_length_app (a b : string) :
  String.length (a ++ b) = String.length a + String.length b.
Proof. induction a as [|x a IH]; simpl; [reflexivity|now rewrite IH]. Qed.

Lemma digit_run_app (ds : string) (c : ascii) (r : string) :
  PyStr.all_digits ds = true -> PyStr.is_digit c = false ->
  PyStr.digit_run (ds ++ String c r) = ds.
Proof.
  intros Hds Hc. induction ds as [|d ds IH]; simpl.
  - now rewrite Hc.
  - simpl in Hds. apply andb_true_iff in Hds as [Hd Hds].
    now rewrite Hd, IH.
Qed.

Lemma drop_app (a b : string) : PyStr.drop (String.length a) (a ++ b) = b.
Proof. induction a as [|x a IH]; simpl; [reflexivity|exact IH]. Qed.

Lemma sub_block_from_skip (seg repl a b : string) :
  PyStr.sub_block_from seg repl (String.length a) (a ++ b)
  = PyStr.sub_block_from seg repl 0 b.
Proof. induction a as [|x a IH]; simpl; [reflexivity|exact IH]. Qed.

Lemma replace_from_skip (old new a b : string) :
  PyStr.replace_from old new (String.length a) (a ++ b)
  = PyStr.replace_from old new 0 b.
Proof. induction a as [|x a IH]; simpl; [reflexivity|exact IH]. Qed.

Lemma sub_block_digits (seg repl ds r : string) :
  PyStr.all_digits ds = true ->
  PyStr.sub_block_from seg repl 0 (ds ++ r) = ds ++ PyStr.sub_block_from seg repl 0 r.
Proof.
  intros Hds. induction ds as [|d ds IH]; [reflexivity|].
  simpl in Hds. apply andb_true_iff in Hds as [Hd Hds].
  destruct (digit_char d Hd) as (Hb & _ & _).
  change (String d ds ++ r) with (String d (ds ++ r)).
  cbn [PyStr.sub_block_from]. unfold PyStr.match_block.
  cbn [PyStr.startswith]. rewrite Hb. cbn [append]. now rewrite IH.
Qed.

Lemma replace_digits (old new ds r : string) :
  PyStr.all_digits ds = true ->
  PyStr.replace_from (String "." old) new 0 (ds ++ r)
  = ds ++ PyStr.replace_from (String "." old) new 0 r.
Proof.
  intros Hds. induction ds as [|d ds IH]; [reflexivity|].
  simpl in Hds. apply andb_true_iff in Hds as [Hd Hds].
  destruct (digit_char d Hd) as (_ & Hdot & _).
  change (String d ds ++ r) with (String d (ds ++ r)).
  rewrite replace_from_step. cbn [PyStr.startswith]. rewrite Hdot.
  cbn [append]. now rewrite IH.
Qed.

Lemma endswith_app (a suf : string) : PyStr.endswith (a ++ suf) suf = true.
Proof.
  induction a as [|x a IH].
  - cbn [append]. destruct suf; cbn [PyStr.endswith];
      now rewrite String.eqb_refl.
  - change (String x a ++ suf) with (String x (a ++ suf)).
    cbn [PyStr.endswith]. rewrite IH. now destruct (String.eqb _ _).
Qed.

Lemma endswith_long (a r suf : string) :
  String.length suf <= String.length r ->
  PyStr.endswith (a ++ r) suf = PyStr.endswith r suf.
Proof.
  intros Hlen. induction a as [|x a IH]; [reflexivity|].
  change (String x a ++ r) with (String x (a ++ r)).
  cbn [PyStr.endswith]. rewrite IH.
  destruct (String.eqb_spec (String x (a ++ r)) suf) as [E|_]; [|reflexivity].
  exfalso. apply (f_equal String.length) in E. simpl in E.
  rewrite string_length_app in E. lia.
Qed.

(** The numeral of a block index is a non-empty run of digits. *)
Lemma string_of_uint_digits (d : Decimal.uint) :
  PyStr.all_digits (NilEmpty.string_of_uint d) = true.
Proof. induction d; simpl; auto. Qed.

Lemma block_index_digits (n : nat) :
  PyStr.all_digits (block_index n) = true /\ block_index n <> "".
Proof.
  unfold block_index. destruct (Nat.to_uint n) as [|d|d|d|d|d|d|d|d|d|d];
    (split; [try reflexivity; apply (string_of_uint_digits (_ d))|discriminate]).
Qed.

Lemma pre_ln_not_on_att (ds r : string) :
  PyStr.all_digits ds = true -> ds <> "" ->
  PyStr.startswith (ds ++ String "." (String "a" r)) "0.ln0" = false.
Proof.
  intros Hds Hne. destruct ds as [|d ds]; [congruence|].
  cbn [append PyStr.startswith]. destruct (Ascii.eqb "0" d); [|reflexivity].
  destruct ds as [|d' ds]; [reflexivity|].
  simpl in Hds. apply andb_true_iff in Hds as [_ Hds].
  apply andb_true_iff in Hds as [Hd' _].
  destruct (digit_char d' Hd') as (_ & Hdot & _).
  cbn [append PyStr.startswith]. now rewrite Hdot.
Qed.

Lemma att_segment (ds : string) :
  PyStr.all_digits ds = true -> ds <> "" ->
  rule_att ("blocks." ++ ds ++ ".att.time_mix_k")
  = "blocks." ++ ds ++ ".attention.time_mix_k".
Proof.
  intros Hds Hne. unfold rule_att, PyStr.sub_block.
  change ("blocks." ++ ds ++ ".att.time_mix_k")
    with (String "b" ("locks." ++ ds ++ ".att.time_mix_k")) at 1.
  cbn [PyStr.sub_block_from]. unfold PyStr.match_block.
  change (PyStr.startswith (String "b" ("locks." ++ ds ++ ".att.time_mix_k")) "blocks.")
    with true. cbv iota.
  change (PyStr.drop 7 (String "b" ("locks." ++ ds ++ ".att.time_mix_k")))
    with (ds ++ ".att.time_mix_k").
  rewrite (digit_run_app ds "." "att.time_mix_k" Hds eq_refl).
  change (PyStr.drop (7 + String.length ds)
            (String "b" ("locks." ++ ds ++ ".att.time_mix_k")))
    with (PyStr.drop (String.length ds) (ds ++ ".att.time_mix_k")).
  rewrite drop_app.
  change (PyStr.startswith ".att.time_mix_k" ("." ++ "att")) with true.
  destruct ds as [|d ds'] eqn:Eds; [congruence|]. rewrite <- Eds. cbv iota.
  replace (7 + String.length ds + String.length "att")
    with (String.length ("locks." ++ ds ++ ".att"))
    by (rewrite !string_length_app; simpl; lia).
  replace ("locks." ++ ds ++ ".att.time_mix_k")
    with (("locks." ++ ds ++ ".att") ++ ".time_mix_k")
    by (rewrite !string_app_assoc; reflexivity).
  rewrite sub_block_from_skip. reflexivity.
Qed.

Lemma ffn_segment_absent (ds : string) :
  PyStr.all_digits ds = true -> ds <> "" ->
  rule_ffn ("blocks." ++ ds ++ ".attention.time_mix_k")
  = "blocks." ++ ds ++ ".attention.time_mix_k".
Proof.
  intros Hds Hne. unfold rule_ffn, PyStr.sub_block.
  change ("blocks." ++ ds ++ ".attention.time_mix_k")
    with (String "b" ("locks." ++ ds ++ ".attention.time_mix_k")) at 1.
  cbn [PyStr.sub_block_from]. unfold PyStr.match_block at 1.
  change (PyStr.startswith (String "b" ("locks." ++ ds ++ ".attention.time_mix_k")) "blocks.")
    with true. cbv iota.
  change (PyStr.drop 7 (String "b" ("locks." ++ ds ++ ".attention.time_mix_k")))
    with (ds ++ ".attention.time_mix_k").
  rewrite (digit_run_app ds "." "attention.time_mix_k" Hds eq_refl).
  change (PyStr.drop (7 + String.length ds)
            (String "b" ("locks." ++ ds ++ ".attention.time_mix_k")))
    with (PyStr.drop (String.length ds) (ds ++ ".attention.time_mix_k")).
  rewrite drop_app.
  change (PyStr.startswith ".attention.time_mix_k" ("." ++ "ffn")) with false.
  cbv iota.
  replace (match ds with EmptyString => None | String _ _ => None end)
    with (@None string) by (now destruct ds).
  cbv iota.
  change ("locks." ++ ds ++ ".attention.time_mix_k")
    with (String "l" (String "o" (String "c" (String "k" (String "s"
            (String "." (ds ++ ".attention.time_mix_k"))))))).
  cbn [PyStr.sub_block_from].
  change (PyStr.match_block "ffn" (String "l" ?x)) with (@None string).
  change (PyStr.match_block "ffn" (String "o" ?x)) with (@None string).
  change (PyStr.match_block "ffn" (String "c" ?x)) with (@None string).
  change (PyStr.match_block "ffn" (String "k" ?x)) with (@None string).
  change (PyStr.match_block "ffn" (String "s" ?x)) with (@None string).
  change (PyStr.match_block "ffn" (String "." ?x)) with (@None string).
  cbv iota. rewrite (sub_block_digits _ _ _ _ Hds). reflexivity.
Qed.

Lemma time_mix_k_suffix (ds : string) :
  PyStr.all_digits ds = true -> ds <> "" ->
  rule_time_mix ".time_mix_k" ".time_mix_key" ("blocks." ++ ds ++ ".attention.time_mix_k")
  = "blocks." ++ ds ++ ".attention.time_mix_key".
Proof.
  intros Hds Hne. unfold rule_time_mix.
  replace ("blocks." ++ ds ++ ".attention.time_mix_k")
    with (("blocks." ++ ds ++ ".attention") ++ ".time_mix_k")
    by (rewrite !string_app_assoc; reflexivity).
  rewrite endswith_app.
  replace (("blocks." ++ ds ++ ".attention") ++ ".time_mix_k")
    with (String "b" (String "l" (String "o" (String "c" (String "k" (String "s"
            (String "." (ds ++ ".attention.time_mix_k"))))))))
    by (rewrite !string_app_assoc; reflexivity).
  unfold PyStr.replace. do 6 copy_char.
  rewrite replace_from_step.
  assert (E : PyStr.startswith (String "." (ds ++ ".attention.time_mix_k")) ".time_mix_k"
              = false).
  { destruct ds as [|d ds']; [congruence|].
    simpl in Hds. apply andb_true_iff in Hds as [Hd _].
    destruct (digit_char d Hd) as (_ & _ & Ht).
    cbn [append PyStr.startswith]. now rewrite Ht. }
  rewrite E. rewrite (replace_digits _ _ _ _ Hds). reflexivity.
Qed.

Lemma time_mix_other_suffix (suffix target ds : string) :
  (suffix, target) = (".time_mix_v", ".time_mix_value")
  \/ (suffix, target) = (".time_mix_r", ".time_mix_receptance") ->
  rule_time_mix suffix target ("blocks." ++ ds ++ ".attention.time_mix_key")
  = "blocks." ++ ds ++ ".attention.time_mix_key".
Proof.
  intros H. unfold rule_time_mix.
  replace ("blocks." ++ ds ++ ".attention.time_mix_key")
    with (("blocks." ++ ds) ++ ".attention.time_mix_key")
    by (rewrite !string_app_assoc; reflexivity).
  rewrite endswith_long.
  - destruct H as [H|H]; injection H as -> ->; reflexivity.
  - destruct H as [H|H]; injection H as -> ->; simpl; lia.
Qed.

(** A key [blocks.<digits>.att.time_mix_k] through the eight rules. *)
Lemma convert_key_block_att (ds : string) :
  PyStr.all_digits ds = true -> ds <> "" ->
  convert_key ("blocks." ++ ds ++ ".att.time_mix_k")
  = "rwkv.blocks." ++ ds ++ ".attention.time_mix_key".
Proof.
  intros Hds Hne. unfold convert_key.
  assert (E1 : rule_emb ("blocks." ++ ds ++ ".att.time_mix_k")
               = "blocks." ++ ds ++ ".att.time_mix_k") by reflexivity.
  assert (E2 : rule_pre_ln ("blocks." ++ ds ++ ".att.time_mix_k")
               = "blocks." ++ ds ++ ".att.time_mix_k").
  { unfold rule_pre_ln.
    change (PyStr.startswith ("blocks." ++ ds ++ ".att.time_mix_k") "blocks.0.ln0")
      with (PyStr.startswith (ds ++ ".att.time_mix_k") "0.ln0").
    now rewrite pre_ln_not_on_att. }
  rewrite E1, E2, (att_segment ds Hds Hne), (ffn_segment_absent ds Hds Hne).
  rewrite (time_mix_k_suffix ds Hds Hne).
  rewrite !time_mix_other_suffix by auto.
  reflexivity.
Qed.

End KeyFacts.

(** ** Substring tests *)

Section SubstringFacts.

Lemma startswith_app (p r : string) : PyStr.startswith (p ++ r) p = true.
Proof.
  induction p as [|c p IH]; simpl; [reflexivity|].
  now rewrite Ascii.eqb_refl.
Qed.

Lemma startswith_inv (s p : string) :
  PyStr.startswith s p = true -> exists r, s = p ++ r.
Proof.
  revert s. induction p as [|c p IH]; intros s H; simpl in *.
  - now exists s.
  - destruct s as [|d s]; [discriminate|].
    destruct (Ascii.eqb_spec c d) as [->|]; [|discriminate].
    destruct (IH _ H) as [r ->]. now exists r.
Qed.

Lemma contains_intro (sub a b : string) :
  PyStr.contains sub (a ++ sub ++ b) = true.
Proof.
  induction a as [|c a IH]; simpl.
  - destruct (sub ++ b) eqn:E; simpl; rewrite <- E, startswith_app; reflexivity.
  - rewrite IH. now destruct (PyStr.startswith _ _).
Qed.

Lemma contains_inv (sub s : string) :
  PyStr.contains sub s = true -> exists a b, s = a ++ sub ++ b.
Proof.
  induction s as [|c s IH]; simpl; intros H.
  - destruct (PyStr.startswith "" sub) eqn:E; [|discriminate].
    destruct (startswith_inv _ _ E) as [r Hr]. exists "", r. exact Hr.
  - destruct (PyStr.startswith (String c s) sub) eqn:E.
    + destruct (startswith_inv _ _ E) as [r Hr]. exists "", r. exact Hr.
    + destruct (IH H) as (a & b & ->). now exists (String c a), b.
Qed.

(** [sub in s] holds exactly when [s] is [sub] between two strings. *)
Lemma contains_iff (sub s : string) :
  PyStr.contains sub s = true <-> exists a b, s = a ++ sub ++ b.
Proof.
  split; [apply contains_inv|].
  intros (a & b & ->). apply contains_intro.
Qed.

End SubstringFacts.

(** ** Size inference from the file name *)

Section InferFacts.

Lemma infer_size_first (pre post : list string) (label file : string) :
  (forall l, In l pre -> PyStr.contains l file = false) ->
  PyStr.contains label file = true ->
  infer_size (pre ++ label :: post)%list file = Some label.
Proof.
  induction pre as [|c pre IH]; intros Hpre Hl; simpl.
  - now rewrite Hl.
  - rewrite (Hpre c) by now left. apply IH; [|exact Hl].
    intros l Hin. apply Hpre. now right.
Qed.

Lemma infer_size_some (candidates : list string) (label file : string) :
  infer_size candidates file = Some label ->
  exists pre post,
    candidates = (pre ++ label :: post)%list
    /\ (forall l, In l pre -> PyStr.contains l file = false)
    /\ PyStr.contains label file = true.
Proof.
  induction candidates as [|c cs IH]; simpl; [discriminate|].
  destruct (PyStr.contains c file) eqn:E; intros H.
  - injection H as <-. exists [], cs. repeat split; [|exact E]. intros l [].
  - destruct (IH H) as (pre & post & -> & Hpre & Hl).
    exists (c :: pre), post. repeat split; [|exact Hl].
    intros l [<-|Hin]; [exact E|now apply Hpre].
Qed.

Lemma infer_size_none (candidates : list string) (file : string) :
  infer_size candidates file = None <->
  forall l, In l candidates -> PyStr.contains l file = false.
Proof.
  induction candidates as [|c cs IH]; simpl.
  - split; [intros _ l []|reflexivity].
  - destruct (PyStr.contains c file) eqn:E.
    + split; [discriminate|]. intros H. rewrite (H c) in E by now left. discriminate.
    + rewrite IH. split.
      * intros H l [<-|Hin]; [exact E|now apply H].
      * intros H l Hin. apply H. now right.
Qed.

End InferFacts.

(** C10.  Inference from the file name walks the labels in the table's
    order 169M, 430M, 1B5, 3B, 7B, 14B and takes the first one that occurs
    in the name: whenever the table splits into the labels before [label],
    [label] itself and the labels after it, the name holds [label]
    somewhere, and none of the labels before it is a part of the name, the
    inferred size is [label], wherever in the name the labels after it
    occur. *)
Theorem infer_size_earliest_label_wins :
  possible_sizes = ["169M"; "430M"; "1B5"; "3B"; "7B"; "14B"]
  /\ forall (pre post : list string) (label before after : string),
      possible_sizes = (pre ++ label :: post)%list ->
      (forall l, In l pre ->
         ~ exists a b, before ++ label ++ after = a ++ l ++ b) ->
      infer_size possible_sizes (before ++ label ++ after) = Some label.
Proof.
  split; [reflexivity|].
  intros pre post label before after Hsplit Hpre.
  rewrite Hsplit. apply infer_size_first; [|apply contains_intro].
  intros l Hin. destruct (PyStr.contains l _) eqn:E; [|reflexivity].
  exfalso. apply (Hpre l Hin). now apply contains_iff.
Qed.

Lemma infer_size_earliest_label_wins_witness :
  infer_size possible_sizes "rwkv-14B-from-7B.pth" = Some "7B".
Proof.
  apply (proj2 infer_size_earliest_label_wins
           ["169M"; "430M"; "1B5"; "3B"] ["14B"] "7B" "rwkv-14B-from-" ".pth").
  - reflexivity.
  - intros l Hin H. apply contains_iff in H.
    destruct Hin as [<-|[<-|[<-|[<-|[]]]]]; discriminate H.
Defined.

(** ** The configuration builder *)

Section ConfigFacts.

Open Scope Z_scope.

(** A size given by the caller is resolved without looking at the file
    name. *)
Lemma resolve_size_given (size : size_arg) (file file' : option string) :
  resolve_size (Some size) file = resolve_size (Some size) file'.
Proof. destruct size; reflexivity. Qed.

(** A label of the table passes the check of line 95 and leaves both
    locals unassigned. *)
Lemma resolve_size_known_label (label : string) (file : option string) :
  in_list label possible_sizes = true ->
  resolve_size (Some (SizeLabel label)) file = Ok (None, None).
Proof. intros H. unfold resolve_size. now rewrite H. Qed.

(** Whatever label the file name yields, both dimensions are read from the
    hidden-size table (lines 105-106). *)
Lemma inferred_dimensions (tok : option Z) (file label : string) :
  infer_size possible_sizes file = Some label ->
  exists h,
    getitem HIDEN_SIZE_MAPPING label = Ok h
    /\ build_config tok None (Some file) = Ok (mkConfig (vocab_size_of tok) h h).
Proof.
  intros H. unfold build_config, resolve_size. rewrite H.
  destruct (infer_size_some _ _ _ H) as (pre & post & Hsplit & _ & _).
  assert (Hin : In label possible_sizes)
    by (rewrite Hsplit; apply in_or_app; right; now left).
  cbv [possible_sizes PyDict.keys NUM_HIDDEN_LAYERS_MAPPING map fst] in Hin.
  simpl in Hin.
  repeat (destruct Hin as [<-|Hin]; [eexists; split; reflexivity|]).
  destruct Hin.
Qed.

(** The errors of lines 96 and 104, and only they, are [ValueError]s. *)
Lemma resolve_size_value_error (size : option size_arg) (file : option string) :
  (exists msg, resolve_size size file = Raise (ValueError msg))
  <-> (exists label, size = Some (SizeLabel label) /\ in_list label possible_sizes = false)
      \/ (size = None /\ exists name, file = Some name
                                      /\ infer_size possible_sizes name = None).
Proof.
  split.
  - intros [msg H]. destruct size as [[label|l h]|]; cbn [resolve_size] in H.
    + destruct (in_list label possible_sizes) eqn:E; [discriminate|].
      left. now exists label.
    + discriminate.
    + destruct file as [name|]; [|discriminate].
      destruct (infer_size possible_sizes name) as [label|] eqn:E.
      * destruct (inferred_dimensions None name label E) as (h & Hh & _).
        rewrite Hh in H. discriminate.
      * right. split; [reflexivity|]. now exists name.
  - intros [(label & -> & Hl)|(-> & name & -> & Hn)]; cbn [resolve_size].
    + rewrite Hl. eauto.
    + rewrite Hn. eauto.
Qed.

End ConfigFacts.

(** C2.  On the command line a size label, when given, is what the
    conversion receives as its size, and the pair of [--num_hidden_layers]
    and [--hidden_size] plays no part: two runs that differ only in the
    pair behave alike.  The pair fixes the dimensions of the configuration
    when no label is given.  A size that is given, label or pair, is
    resolved without consulting the file name. *)
Theorem label_given_pair_ignored :
  (forall file label h l, main_size (mkArgs file (Some label) h l) = SizeLabel label)
  /\ (forall tok file label h l h' l',
         main_config tok (mkArgs file (Some label) h l)
         = main_config tok (mkArgs file (Some label) h' l'))
  /\ (forall tok file h l,
         main_config tok (mkArgs file None h l)
         = Ok (mkConfig (vocab_size_of tok) l h))
  /\ (forall tok size file file',
         build_config tok (Some size) file = build_config tok (Some size) file').
Proof.
  split; [reflexivity|]. split; [reflexivity|]. split; [reflexivity|].
  intros tok size file file'. unfold build_config.
  now rewrite (resolve_size_given size file file').
Qed.

(** C2, as stated, fails: with the label 169M and the pair (6, 512) the
    size handed on is the label, and the run does not end with a
    configuration of 6 layers and hidden size 512. *)
Lemma pair_does_not_override_label :
  main_size (mkArgs (Some "RWKV-4-Pile-169M.pth") (Some "169M") 512 6) = SizeLabel "169M"
  /\ main_config None (mkArgs (Some "RWKV-4-Pile-169M.pth") (Some "169M") 512 6)
     <> Ok (mkConfig 50277 6 512).
Proof. split; [reflexivity|discriminate]. Qed.

(** C3.  With no size given and the file name
    [RWKV-4-Pile-430M-20220808-8066.pth], the label 430M is inferred and the
    configuration gets hidden size 1024 and 1024 layers: line 105 reads the
    hidden-size table, whereas the layer table has 24 for that label. *)
Theorem inferred_430M_reads_hidden_table_twice :
  infer_size possible_sizes "RWKV-4-Pile-430M-20220808-8066.pth" = Some "430M"
  /\ build_config None None (Some "RWKV-4-Pile-430M-20220808-8066.pth")
     = Ok (mkConfig 50277 1024 1024)
  /\ getitem NUM_HIDDEN_LAYERS_MAPPING "430M" = Ok 24%Z
  /\ getitem HIDEN_SIZE_MAPPING "430M" = Ok 1024%Z.
Proof. repeat split. Qed.

(** C4.  For each label of the table, passing it as the size ends in
    [UnboundLocalError]: the check of line 95 accepts the label and nothing
    assigns [num_hidden_layers] before line 109 reads it. *)
Theorem known_label_leaves_locals_unbound :
  Forall (fun label =>
            forall tok file,
              build_config tok (Some (SizeLabel label)) file
              = Raise (UnboundLocalError "num_hidden_layers"))
         possible_sizes.
Proof. repeat constructor. Qed.

(** C6.  The label 169M is in the table and the file name contains it, so
    neither error condition of the specification holds, and yet building the
    configuration raises.  The two [ValueError]s are raised exactly under the
    two conditions of the specification. *)
Theorem known_label_raises_outside_error_conditions :
  in_list "169M" possible_sizes = true
  /\ build_config None (Some (SizeLabel "169M")) (Some "RWKV-4-Pile-169M.pth")
     = Raise (UnboundLocalError "num_hidden_layers")
  /\ (forall size file,
         (exists msg, resolve_size size file = Raise (ValueError msg))
         <-> (exists label, size = Some (SizeLabel label)
                            /\ in_list label possible_sizes = false)
             \/ (size = None /\ exists name, file = Some name
                                  /\ infer_size possible_sizes name = None)).
Proof.
  repeat split; try apply resolve_size_value_error.
Qed.

(** ** Dictionaries *)

Section DictFacts.
Context {V : Type}.
Implicit Types (d : PyDict.t V) (k : string) (v : V).

Lemma in_list_In (x : string) (l : list string) : in_list x l = true <-> In x l.
Proof.
  unfold in_list. rewrite existsb_exists. split.
  - intros (y & Hy & E). apply String.eqb_eq in E. now subst.
  - intros H. exists x. split; [exact H|apply String.eqb_refl].
Qed.

Lemma in_list_not_In (x : string) (l : list string) : in_list x l = false <-> ~ In x l.
Proof.
  rewrite <- in_list_In. destruct (in_list x l); split; congruence.
Qed.

Lemma distinct_NoDup (l : list string) : PyDict.distinct l = true <-> NoDup l.
Proof.
  induction l as [|k l IH]; simpl.
  - split; [constructor|reflexivity].
  - rewrite andb_true_iff, negb_true_iff, IH.
    change (existsb (String.eqb k) l) with (in_list k l).
    rewrite in_list_not_In. split.
    + intros [H1 H2]. now constructor.
    + intros H. inversion H. now split.
Qed.

Lemma keys_app d d' : PyDict.keys (d ++ d')%list = (PyDict.keys d ++ PyDict.keys d')%list.
Proof. apply map_app. Qed.

Lemma get_in_keys k d : In k (PyDict.keys d) -> exists v, PyDict.get k d = Some v.
Proof.
  induction d as [|[k' v'] d IH]; simpl; [intros []|].
  intros [->|H].
  - rewrite String.eqb_refl. eauto.
  - destruct (String.eqb k' k); eauto.
Qed.

Lemma get_In k v d : PyDict.get k d = Some v -> In (k, v) d.
Proof.
  induction d as [|[k' v'] d IH]; simpl; [discriminate|].
  destruct (String.eqb_spec k' k) as [->|]; intros H.
  - injection H as ->. now left.
  - right. now apply IH.
Qed.

Lemma remove_length k v d :
  PyDict.get k d = Some v -> S (length (PyDict.remove k d)) = length d.
Proof.
  induction d as [|[k' v'] d IH]; simpl; [discriminate|].
  destruct (String.eqb k' k); [reflexivity|].
  intros H. simpl. now rewrite IH.
Qed.

Lemma remove_In k d (x : string * V) : In x (PyDict.remove k d) -> In x d.
Proof.
  induction d as [|[k' v'] d IH]; simpl; [intros []|].
  destruct (String.eqb k' k); [now right|].
  intros [<-|H]; [now left|right; now apply IH].
Qed.

Lemma remove_keeps k k' d :
  k' <> k -> In k' (PyDict.keys d) -> In k' (PyDict.keys (PyDict.remove k d)).
Proof.
  intros Hne. induction d as [|[k0 v0] d IH]; simpl; [intros []|].
  destruct (String.eqb_spec k0 k) as [->|].
  - intros [E|H]; [congruence|exact H].
  - simpl. intros [E|H]; [now left|right; now apply IH].
Qed.

Lemma set_length k v d : length (PyDict.set k v d) <= S (length d).
Proof.
  induction d as [|[k' v'] d IH]; simpl; [lia|].
  destruct (String.eqb k' k); simpl; lia.
Qed.

Lemma set_keeps k k' v d :
  In k' (PyDict.keys d) -> In k' (PyDict.keys (PyDict.set k v d)).
Proof.
  induction d as [|[k0 v0] d IH]; simpl; [intros []|].
  destruct (String.eqb k0 k); simpl; intros [E|H]; auto.
Qed.

Lemma set_In k v d (x : string * V) :
  In x (PyDict.set k v d) -> snd x = v \/ In x d.
Proof.
  induction d as [|[k0 v0] d IH]; simpl.
  - intros [<-|[]]. now left.
  - destruct (String.eqb k0 k); simpl.
    + intros [<-|H]; [now left|right; now right].
    + intros [<-|H]; [right; now left|].
      destruct (IH H); [now left|right; now right].
Qed.

(** Storing under a name that is not a key appends the item. *)
Lemma set_fresh k v d :
  ~ In k (PyDict.keys d) -> PyDict.set k v d = (d ++ [(k, v)])%list.
Proof.
  induction d as [|[k0 v0] d IH]; simpl; [reflexivity|].
  intros H. destruct (String.eqb_spec k0 k) as [->|]; [tauto|].
  rewrite IH; [reflexivity|tauto].
Qed.

End DictFacts.

(** ** The rewriter loop *)

Section LoopFacts.
Context {tensor : Type}.
Variable rename : string -> string.
Implicit Types (d : PyDict.t tensor) (names : list string).

(** The loop never meets a missing key; it cannot add keys, and every
    weight it leaves in the dictionary was there at the start. *)
Lemma rename_loop_total names d :
  NoDup names ->
  (forall n, In n names -> In n (PyDict.keys d)) ->
  exists out,
    rename_loop rename names d = Ok out
    /\ length out <= length d
    /\ forall k v, In (k, v) out -> exists k0, In (k0, v) d.
Proof.
  revert d. induction names as [|name names IH]; intros d Hnd Hin; simpl.
  - exists d. repeat split; eauto.
  - inversion Hnd as [|? ? Hnotin Hnd']; subst.
    destruct (get_in_keys name d (Hin name (or_introl eq_refl))) as [w Hw].
    unfold PyDict.pop. rewrite Hw. simpl.
    destruct (IH (PyDict.set (rename name) w (PyDict.remove name d)) Hnd')
      as (out & Hout & Hlen & Hval).
    + intros n Hn. apply set_keeps, remove_keeps.
      * intros ->. contradiction.
      * apply Hin. now right.
    + exists out. split; [exact Hout|]. split.
      * pose proof (set_length (rename name) w (PyDict.remove name d)).
        pose proof (remove_length name w d Hw). lia.
      * intros k v Hkv. destruct (Hval k v Hkv) as [k0 Hk0].
        destruct (set_In _ _ _ _ Hk0) as [E|Hr].
        -- simpl in E. subst v. exists name. now apply get_In.
        -- exists k0. now apply remove_In in Hr.
Qed.

(** Without collisions the loop renames the items where they stand. *)
Lemma rename_loop_fresh d acc :
  later_free rename (PyDict.keys d) = true ->
  NoDup (map rename (PyDict.keys d) ++ PyDict.keys acc)%list ->
  rename_loop rename (PyDict.keys d) (d ++ acc)%list
  = Ok (acc ++ rename_items rename d)%list.
Proof.
  revert acc. induction d as [|[k v] d IH]; intros acc Hlf Hnd; simpl.
  - now rewrite app_nil_r.
  - simpl in Hlf. apply andb_true_iff in Hlf as [Hk Hlf].
    apply negb_true_iff, in_list_not_In in Hk.
    simpl in Hnd. inversion Hnd as [|? ? Hnotin Hnd']; subst.
    unfold PyDict.pop. simpl. rewrite String.eqb_refl. simpl.
    rewrite set_fresh.
    + rewrite <- app_assoc. rewrite IH; [now rewrite <- app_assoc|exact Hlf|].
      rewrite keys_app. simpl.
      apply (Permutation_NoDup (l := rename k :: map rename (PyDict.keys d) ++ PyDict.keys acc)).
      * rewrite app_assoc. apply Permutation_cons_append.
      * exact Hnd.
    + rewrite keys_app. intros H. apply in_app_or in H as [H|H].
      * contradiction.
      * apply Hnotin, in_or_app. now right.
Qed.

Lemma rename_items_keys d :
  PyDict.keys (rename_items rename d) = map rename (PyDict.keys d).
Proof.
  unfold rename_items, PyDict.keys. rewrite !map_map. reflexivity.
Qed.

Lemma rename_items_get d name :
  NoDup (map rename (PyDict.keys d)) ->
  In name (PyDict.keys d) ->
  PyDict.get (rename name) (rename_items rename d) = PyDict.get name d.
Proof.
  induction d as [|[k v] d IH]; simpl; [intros _ []|].
  intros Hnd Hin. inversion Hnd as [|? ? Hnotin Hnd']; subst.
  destruct (String.eqb_spec k name) as [->|Hne].
  - now rewrite String.eqb_refl.
  - destruct Hin as [E|Hin]; [contradiction|].
    destruct (String.eqb_spec (rename k) (rename name)) as [E|_].
    + exfalso. apply Hnotin. rewrite E. now apply in_map.
    + now apply IH.
Qed.

Lemma rename_loop_collision_free d :
  collision_free rename (PyDict.keys d) = true ->
  rename_loop rename (PyDict.keys d) d = Ok (rename_items rename d).
Proof.
  intros H. apply andb_true_iff in H as [Hd Hlf].
  apply distinct_NoDup in Hd.
  pose proof (rename_loop_fresh d [] Hlf) as E.
  rewrite !app_nil_r in E. apply E. exact Hd.
Qed.

End LoopFacts.

(** C5.  On a checkpoint with distinct keys the rewriter always returns a
    mapping, with at most as many keys as the input; it has exactly as many,
    again all distinct, when the renamed keys are pairwise different and no
    key is renamed to a key that comes later in the checkpoint. *)
Theorem convert_state_dict_key_count {tensor : Type} (state_dict : PyDict.t tensor) :
  PyDict.wf state_dict = true ->
  exists out,
    convert_state_dict state_dict = Ok out
    /\ length out <= length state_dict
    /\ (collision_free convert_key (PyDict.keys state_dict) = true ->
        length out = length state_dict /\ PyDict.wf out = true).
Proof.
  intros Hwf. apply distinct_NoDup in Hwf.
  destruct (rename_loop_total convert_key (PyDict.keys state_dict) state_dict Hwf)
    as (out & Hout & Hlen & _); [auto|].
  exists out. split; [exact Hout|]. split; [exact Hlen|].
  intros Hcf. unfold convert_state_dict in Hout.
  rewrite (rename_loop_collision_free convert_key state_dict Hcf) in Hout.
  injection Hout as <-. split.
  - unfold rename_items. apply length_map.
  - unfold PyDict.wf. rewrite rename_items_keys.
    now apply andb_true_iff in Hcf as [Hd _].
Qed.

Lemma convert_state_dict_key_count_witness :
  exists out,
    convert_state_dict
      [("emb.weight", 1); ("blocks.0.ln0.weight", 2);
       ("blocks.3.att.time_mix_k", 3); ("head.weight", 4)]
    = Ok out
    /\ length out = 4.
Proof.
  destruct (convert_state_dict_key_count
              [("emb.weight", 1); ("blocks.0.ln0.weight", 2);
               ("blocks.3.att.time_mix_k", 3); ("head.weight", 4)] eq_refl)
    as (out & Hout & _ & Hcf).
  exists out. split; [exact Hout|]. apply (proj1 (Hcf eq_refl)).
Defined.

(** C5, as stated, fails: [emb.weight] and [embeddings.weight] are two keys
    and both are renamed to [rwkv.embeddings.weight]; the output has one
    key. *)
Lemma two_keys_renamed_to_one :
  PyDict.wf [("emb.weight", 1); ("embeddings.weight", 2)] = true
  /\ convert_state_dict [("emb.weight", 1); ("embeddings.weight", 2)]
     = Ok [("rwkv.embeddings.weight", 2)]
  /\ length [("rwkv.embeddings.weight", 2)]
     <> length [("emb.weight", 1); ("embeddings.weight", 2)].
Proof. repeat split. discriminate. Qed.

(** C7.  On a checkpoint with distinct keys every weight of the output is a
    weight of the input; when the renamed keys are pairwise different and no
    key is renamed to a key that comes later in the checkpoint, the weight
    stored under the new name of a key is the weight the input has under that
    key. *)
Theorem convert_state_dict_keeps_weights {tensor : Type} (state_dict : PyDict.t tensor) :
  PyDict.wf state_dict = true ->
  exists out,
    convert_state_dict state_dict = Ok out
    /\ (forall name weight, In (name, weight) out ->
          exists name0, In (name0, weight) state_dict)
    /\ (collision_free convert_key (PyDict.keys state_dict) = true ->
        forall name, In name (PyDict.keys state_dict) ->
          PyDict.get (convert_key name) out = PyDict.get name state_dict).
Proof.
  intros Hwf. apply distinct_NoDup in Hwf.
  destruct (rename_loop_total convert_key (PyDict.keys state_dict) state_dict Hwf)
    as (out & Hout & _ & Hval); [auto|].
  exists out. split; [exact Hout|]. split; [exact Hval|].
  intros Hcf name Hin. unfold convert_state_dict in Hout.
  rewrite (rename_loop_collision_free convert_key state_dict Hcf) in Hout.
  injection Hout as <-. apply rename_items_get; [|exact Hin].
  apply andb_true_iff in Hcf as [Hd _]. now apply distinct_NoDup.
Qed.

Lemma convert_state_dict_keeps_weights_witness :
  exists out,
    convert_state_dict
      [("blocks.1.ffn.key.weight", 7); ("blocks.1.att.time_mix_r", 8); ("head.weight", 9)]
    = Ok out
    /\ PyDict.get (convert_key "blocks.1.att.time_mix_r") out = Some 8.
Proof.
  destruct (convert_state_dict_keeps_weights
              [("blocks.1.ffn.key.weight", 7); ("blocks.1.att.time_mix_r", 8);
               ("head.weight", 9)] eq_refl)
    as (out & Hout & _ & Hcf).
  exists out. split; [exact Hout|].
  apply (Hcf eq_refl "blocks.1.att.time_mix_r"). simpl. auto.
Defined.

(** C7, as stated, fails: in the checkpoint with [x] bound to 1 and
    [rwkv.x] bound to 2, the key [rwkv.x] is renamed to [rwkv.rwkv.x], and
    the output binds that name to 1; the weight 2 is gone. *)
Lemma renamed_key_bound_to_other_weight :
  PyDict.wf [("x", 1); ("rwkv.x", 2)] = true
  /\ convert_state_dict [("x", 1); ("rwkv.x", 2)] = Ok [("rwkv.rwkv.x", 1)]
  /\ PyDict.get (convert_key "rwkv.x") [("rwkv.rwkv.x", 1)]
     <> PyDict.get "rwkv.x" [("x", 1); ("rwkv.x", 2)].
Proof. repeat split. discriminate. Qed.

(** ** Ordering the items of a dictionary *)

Section SortFacts.
Context {A : Type}.
Implicit Types (x y : string * A) (l : list (string * A)).

Lemma leb_iff (a b : string) : String.leb a b = true <-> a = b \/ String_as_OT.lt a b.
Proof.
  unfold String.leb. destruct (String.compare a b) eqn:E.
  - apply String.compare_eq_iff in E. tauto.
  - apply String_as_OT.cmp_lt in E. tauto.
  - split; [discriminate|]. intros [->|H].
    + assert (E' : String.compare b b = Eq) by now apply String_as_OT.cmp_eq.
      unfold String_as_OT.cmp in E'. congruence.
    + apply String_as_OT.cmp_lt in H. unfold String_as_OT.cmp in H. congruence.
Qed.

Lemma leb_refl (a : string) : String.leb a a = true.
Proof. apply leb_iff. now left. Qed.

Lemma leb_trans (a b c : string) :
  String.leb a b = true -> String.leb b c = true -> String.leb a c = true.
Proof.
  rewrite !leb_iff. intros [->|H1] [->|H2]; auto.
  right. eapply String_as_OT.lt_trans; eassumption.
Qed.

Lemma leb_false_flip (a b : string) : String.leb a b = false -> String.leb b a = true.
Proof.
  intros H. destruct (String.leb_total a b) as [E|E]; [congruence|exact E].
Qed.

Lemma insert_item_perm x l : Permutation (Json.insert_item x l) (x :: l).
Proof.
  induction l as [|y l IH]; simpl; [reflexivity|].
  destruct (String.leb (fst x) (fst y)); [reflexivity|].
  rewrite IH. apply perm_swap.
Qed.

Lemma sort_items_perm l : Permutation (Json.sort_items l) l.
Proof.
  induction l as [|x l IH]; simpl; [reflexivity|].
  rewrite insert_item_perm. now constructor.
Qed.

Lemma insert_item_sorted x l :
  StronglySorted Json.key_le l -> StronglySorted Json.key_le (Json.insert_item x l).
Proof.
  induction l as [|y l IH]; simpl; intros Hs.
  - repeat constructor.
  - inversion Hs as [|? ? Hs' Hall]; subst.
    destruct (String.leb (fst x) (fst y)) eqn:E.
    + constructor; [exact Hs|]. constructor; [exact E|].
      eapply Forall_impl; [|exact Hall].
      intros z Hz. unfold Json.key_le in *. eapply leb_trans; eassumption.
    + constructor; [now apply IH|].
      eapply Permutation_Forall; [symmetry; apply insert_item_perm|].
      constructor; [|exact Hall]. now apply leb_false_flip.
Qed.

Lemma sort_items_sorted l : StronglySorted Json.key_le (Json.sort_items l).
Proof.
  induction l as [|x l IH]; simpl; [constructor|now apply insert_item_sorted].
Qed.

(** Two sorted arrangements of the same items with distinct keys are the
    same list. *)
Lemma sorted_unique l1 l2 :
  StronglySorted Json.key_le l1 -> StronglySorted Json.key_le l2 ->
  Permutation l1 l2 -> NoDup (map fst l1) -> l1 = l2.
Proof.
  revert l2. induction l1 as [|x l1 IH]; intros l2 H1 H2 Hp Hnd.
  - apply Permutation_nil in Hp. now subst.
  - destruct l2 as [|y l2]; [apply Permutation_sym, Permutation_nil in Hp; discriminate|].
    inversion H1 as [|? ? Hs1 Hall1]; subst.
    inversion H2 as [|? ? Hs2 Hall2]; subst.
    inversion Hnd as [|? ? Hnotin Hnd']; subst.
    assert (Exy : x = y).
    { assert (Hx : In x (y :: l2)) by (eapply Permutation_in; [exact Hp|now left]).
      assert (Hy : In y (x :: l1))
        by (eapply Permutation_in; [symmetry; exact Hp|now left]).
      destruct Hx as [->|Hx]; [reflexivity|].
      destruct Hy as [->|Hy]; [reflexivity|].
      rewrite Forall_forall in Hall1, Hall2.
      pose proof (String.leb_antisym _ _ (Hall1 y Hy) (Hall2 x Hx)) as Ek.
      exfalso. apply Hnotin. rewrite Ek. now apply in_map. }
    subst y. f_equal. apply IH; auto.
    now apply Permutation_cons_inv in Hp.
Qed.

Lemma sort_items_perm_eq l1 l2 :
  Permutation l1 l2 -> NoDup (map fst l1) -> Json.sort_items l1 = Json.sort_items l2.
Proof.
  intros Hp Hnd. apply sorted_unique; try apply sort_items_sorted.
  - rewrite !sort_items_perm. exact Hp.
  - eapply Permutation_NoDup; [|exact Hnd].
    apply Permutation_map. symmetry. apply sort_items_perm.
Qed.

Lemma sorted_ascending l :
  StronglySorted Json.key_le l -> Layout.ascending (map fst l) = true.
Proof.
  induction 1 as [|x l Hs IH Hall]; [reflexivity|].
  destruct l as [|y l]; [reflexivity|].
  change (String.leb (fst x) (fst y) && Layout.ascending (map fst (y :: l)) = true).
  rewrite IH, andb_true_r. inversion Hall; assumption.
Qed.

End SortFacts.

Section SortMapFacts.
Context {A B : Type}.
Variable g : A -> B.

(** The order looks at the keys only. *)
Lemma insert_item_on_snd (x : string * A) (l : list (string * A)) :
  Json.insert_item (Json.on_snd g x) (map (Json.on_snd g) l)
  = map (Json.on_snd g) (Json.insert_item x l).
Proof.
  induction l as [|y l IH]; simpl; [reflexivity|].
  destruct (String.leb (fst x) (fst y)); simpl; [reflexivity|now rewrite IH].
Qed.

Lemma sort_items_on_snd (l : list (string * A)) :
  Json.sort_items (map (Json.on_snd g) l) = map (Json.on_snd g) (Json.sort_items l).
Proof.
  induction l as [|x l IH]; simpl; [reflexivity|].
  rewrite IH. apply insert_item_on_snd.
Qed.

End SortMapFacts.

(** ** Lines and indentation of a text *)

Section TextFacts.
Import Layout.

Lemma string_app_nil_r (a : string) : a ++ "" = a.
Proof. induction a as [|x a IH]; simpl; [reflexivity|now rewrite IH]. Qed.

Lemma head_ok_app (a b : string) : head_ok a = true -> head_ok (a ++ b) = true.
Proof. destruct a; simpl; [discriminate|auto]. Qed.

Lemma last_ok_app (a b : string) : last_ok b = true -> last_ok (a ++ b) = true.
Proof.
  intros Hb. induction a as [|x a IH]; simpl; [exact Hb|].
  destruct (a ++ b) eqn:E; [|exact IH].
  rewrite <- E in IH. destruct a; simpl in E; [|discriminate].
  subst b. discriminate.
Qed.

Lemma leading_spaces_head (s : string) : head_ok s = true -> leading_spaces s = 0.
Proof.
  destruct s as [|c s]; simpl; [reflexivity|].
  unfold is_blank. destruct (is_space c); simpl; [discriminate|reflexivity].
Qed.

Lemma leading_spaces_closed (a b : string) :
  last_ok a = true -> leading_spaces (a ++ b) = leading_spaces a.
Proof.
  induction a as [|x a IH]; [discriminate|].
  destruct a as [|y a]; intros H.
  - simpl in *. unfold is_blank in H.
    destruct (is_space x); simpl in H; [discriminate|reflexivity].
  - change (last_ok (String y a) = true) in H.
    change (String x (String y a) ++ b) with (String x (String y a ++ b)).
    cbn [leading_spaces]. now rewrite (IH H).
Qed.

(** A text that ends in a character that is neither a space nor a line
    break keeps its line breaks and their indentation in front of any
    other text. *)
Lemma breaks_closed (a b : string) :
  last_ok a = true -> breaks (a ++ b) = (breaks a ++ breaks b)%list.
Proof.
  induction a as [|x a IH]; [discriminate|].
  destruct a as [|y a]; intros H.
  - simpl in *. unfold is_blank in H. destruct (is_newline x); simpl.
    + rewrite orb_true_r in H. discriminate.
    + reflexivity.
  - change (last_ok (String y a) = true) in H.
    change (String x (String y a) ++ b) with (String x (String y a ++ b)).
    cbn [breaks]. rewrite (IH H).
    destruct (is_newline x); [|reflexivity].
    now rewrite (leading_spaces_closed _ b H).
Qed.

Lemma breaks_no_newline (a b : string) :
  no_newline a = true -> breaks (a ++ b) = breaks b.
Proof.
  induction a as [|x a IH]; simpl; [reflexivity|].
  destruct (is_newline x); simpl; [discriminate|exact IH].
Qed.

Lemma no_newline_app (a b : string) :
  no_newline a = true -> no_newline b = true -> no_newline (a ++ b) = true.
Proof.
  induction a as [|x a IH]; simpl; [auto|].
  destruct (is_newline x); simpl; [discriminate|exact IH].
Qed.

Lemma spaces_no_newline (n : nat) : no_newline (Json.spaces n) = true.
Proof. induction n; simpl; auto. Qed.

Lemma leading_spaces_spaces (n : nat) (t : string) :
  leading_spaces (Json.spaces n ++ t) = n + leading_spaces t.
Proof. induction n as [|n IH]; simpl; [reflexivity|now rewrite IH]. Qed.

(** A line break of the encoder followed by a text that starts with a
    visible character: one more line, indented by [indent * level]. *)
Lemma breaks_newline_indent (indent level : nat) (t : string) :
  head_ok t = true ->
  breaks (Json.newline_indent indent level ++ t) = indent * level :: breaks t.
Proof.
  intros Ht. unfold Json.newline_indent, Json.newline. simpl.
  rewrite leading_spaces_spaces, (leading_spaces_head t Ht), Nat.add_0_r.
  now rewrite (breaks_no_newline _ _ (spaces_no_newline _)).
Qed.

Lemma all_visible_facts (s : string) :
  all_visible s = true -> s <> "" ->
  head_ok s = true /\ last_ok s = true /\ no_newline s = true.
Proof.
  induction s as [|c s IH]; [congruence|]. intros H _.
  simpl in H. apply andb_true_iff in H as [Hc Hs].
  assert (Hn : negb (is_newline c) = true).
  { unfold is_blank in Hc. destruct (is_newline c); [|reflexivity].
    now rewrite orb_true_r in Hc. }
  destruct s as [|d s].
  - simpl. now rewrite Hc, Hn.
  - destruct (IH Hs) as (_ & Hl & Hnn); [discriminate|].
    repeat split; [exact Hc|exact Hl|].
    change (negb (is_newline c) && no_newline (String d s) = true).
    now rewrite Hn, Hnn.
Qed.

Lemma escape_char_no_newline (c : ascii) : no_newline (Json.escape_char c) = true.
Proof. destruct c as [[] [] [] [] [] [] [] []]; reflexivity. Qed.

Lemma escape_no_newline (s : string) : no_newline (Json.escape s) = true.
Proof.
  induction s as [|c s IH]; simpl; [reflexivity|].
  apply no_newline_app; [apply escape_char_no_newline|exact IH].
Qed.

Lemma encode_str_facts (s : string) :
  head_ok (Json.encode_str s) = true
  /\ last_ok (Json.encode_str s) = true
  /\ no_newline (Json.encode_str s) = true.
Proof.
  unfold Json.encode_str. repeat split.
  - apply last_ok_app, last_ok_app. reflexivity.
  - apply (no_newline_app Json.quote); [reflexivity|].
    apply no_newline_app; [apply escape_no_newline|reflexivity].
Qed.

Lemma string_of_uint_visible (d : Decimal.uint) :
  all_visible (NilEmpty.string_of_uint d) = true.
Proof. induction d; simpl; auto. Qed.

Lemma encode_int_facts (n : Z) :
  head_ok (Json.encode_int n) = true
  /\ last_ok (Json.encode_int n) = true
  /\ no_newline (Json.encode_int n) = true.
Proof.
  unfold Json.encode_int. apply all_visible_facts.
  - destruct (Z.to_int n) as [d|d]; simpl.
    + destruct d; try reflexivity; apply (string_of_uint_visible (_ d)).
    + destruct d; try reflexivity; apply (string_of_uint_visible (_ d)).
  - destruct (Z.to_int n) as [d|d]; [destruct d|]; discriminate.
Qed.

End TextFacts.

(** ** The layout of the encoder's output *)

Section EncodeFacts.
Import Layout.

Variable indent : nat.

Lemma concat_cons2 (sep c c' : string) (chunks : list string) :
  String.concat sep (c :: c' :: chunks) = c ++ sep ++ String.concat sep (c' :: chunks).
Proof. reflexivity. Qed.

Lemma head_ok_concat (sep c : string) (chunks : list string) :
  head_ok c = true -> head_ok (String.concat sep (c :: chunks)) = true.
Proof.
  intros H. destruct chunks as [|c' chunks]; [exact H|].
  rewrite concat_cons2. now apply head_ok_app.
Qed.

(** The chunks of a container, one per line, and the closing bracket. *)
Lemma breaks_chunks (level : nat) (q : ascii) (chunks : list string)
  (dss : list (list nat)) :
  is_blank q = false ->
  Forall2 (chunk_ok indent) chunks dss ->
  forall c ds,
    chunk_ok indent c ds ->
    breaks (String.concat ("," ++ Json.newline_indent indent (S level)) (c :: chunks)
              ++ Json.newline_indent indent level ++ String q "")
    = map (Nat.mul indent)
        (ds ++ concat (map (fun ds => S level :: ds) dss) ++ [level])%list.
Proof.
  intros Hq. induction 1 as [|c' ds' chunks dss Hc' Hrest IH];
    intros c ds (Hh & Hl & Hb).
  - simpl String.concat. rewrite (breaks_closed _ _ Hl), Hb.
    rewrite breaks_newline_indent.
    + simpl. unfold is_blank in Hq. apply orb_false_iff in Hq as [_ Hq].
      rewrite Hq. now rewrite map_app.
    + simpl. now rewrite Hq.
  - rewrite concat_cons2, !string_app_assoc.
    rewrite (breaks_closed _ _ Hl), Hb.
    change ("," ++ ?x) with (String "," x).
    cbn [breaks]. change (is_newline ",") with false. cbv iota.
    rewrite breaks_newline_indent.
    + rewrite (IH c' ds' Hc'), (map_app _ ds). f_equal.
      cbn [map concat]. rewrite <- app_assoc. reflexivity.
    + apply head_ok_app, head_ok_concat. apply Hc'.
Qed.

(** A container: its brackets are visible characters, and its lines sit
    at the depths of [frame]. *)
Lemma lay_out_ok (level : nat) (o q : ascii) (chunks : list string)
  (dss : list (list nat)) :
  is_blank o = false -> is_blank q = false ->
  Forall2 (chunk_ok indent) chunks dss ->
  chunk_ok indent (Json.lay_out indent level (String o "") (String q "") chunks)
    (frame level dss).
Proof.
  intros Ho Hq Hall. destruct Hall as [|c ds chunks dss Hc Hrest].
  - simpl. unfold chunk_ok. simpl. rewrite Ho, Hq. simpl.
    unfold is_blank in Ho, Hq.
    apply orb_false_iff in Ho as [_ Ho]. apply orb_false_iff in Hq as [_ Hq].
    now rewrite Ho, Hq.
  - unfold Json.lay_out, frame. repeat split.
    + simpl. now rewrite Ho.
    + change (String o "" ++ ?x) with (String o x).
      apply (last_ok_app (String o "")), last_ok_app, last_ok_app, last_ok_app.
      simpl. now rewrite Hq.
    + change (String o "" ++ ?x) with (String o x). cbn [breaks].
      unfold is_blank in Ho. apply orb_false_iff in Ho as [_ Ho]. rewrite Ho.
      rewrite breaks_newline_indent.
      * rewrite (breaks_chunks level q chunks dss Hq Hrest c ds Hc).
        simpl. now rewrite <- app_assoc.
      * apply head_ok_app, head_ok_concat. apply Hc.
Qed.

(** Induction on a value that reaches the items of lists and
    dictionaries. *)
Lemma json_nested_ind (P : json -> Prop) :
  P JNull -> (forall b, P (JBool b)) -> (forall n, P (JInt n)) ->
  (forall s, P (JStr s)) ->
  (forall items, Forall P items -> P (JList items)) ->
  (forall items, Forall (fun kv => P (snd kv)) items -> P (JDict items)) ->
  forall v, P v.
Proof.
  intros Hnull Hbool Hint Hstr Hlist Hdict.
  fix IH 1. intros [| b | n | s | items | items].
  - exact Hnull.
  - apply Hbool.
  - apply Hint.
  - apply Hstr.
  - apply Hlist. induction items as [|x items IHitems]; constructor.
    + apply IH.
    + exact IHitems.
  - apply Hdict. induction items as [|[k x] items IHitems]; constructor.
    + apply IH.
    + exact IHitems.
Qed.

Lemma member_ok (k c : string) (ds : list nat) :
  chunk_ok indent c ds -> chunk_ok indent (Json.member (k, c)) ds.
Proof.
  intros (Hh & Hl & Hb). destruct (encode_str_facts k) as (Hkh & _ & Hkn).
  unfold Json.member. cbn [fst snd]. split; [|split].
  - now apply head_ok_app.
  - now apply last_ok_app, last_ok_app.
  - rewrite (breaks_no_newline _ _ Hkn). exact Hb.
Qed.

Lemma sorted_or_not_on_snd {A B : Type} (g : A -> B) (sort_keys : bool)
  (items : list (string * A)) :
  (if sort_keys then Json.sort_items (map (Json.on_snd g) items)
   else map (Json.on_snd g) items)
  = map (Json.on_snd g) (if sort_keys then Json.sort_items items else items).
Proof. destruct sort_keys; [apply sort_items_on_snd|reflexivity]. Qed.

Lemma sorted_or_not_Forall {A : Type} (Q : string * A -> Prop) (sort_keys : bool)
  (items : list (string * A)) :
  Forall Q items -> Forall Q (if sort_keys then Json.sort_items items else items).
Proof.
  intros H. destruct sort_keys; [|exact H].
  eapply Permutation_Forall; [symmetry; apply sort_items_perm|exact H].
Qed.

(** Every value is rendered as a text that starts and ends with a visible
    character and whose lines sit at the depths of [depths]. *)
Lemma encode_ok (sort_keys : bool) (v : json) :
  forall level,
    chunk_ok indent (Json.encode indent sort_keys level v) (depths sort_keys level v).
Proof.
  induction v as [| b | n | s | items IH | items IH] using json_nested_ind;
    intros level.
  - repeat split.
  - destruct b; repeat split.
  - destruct (encode_int_facts n) as (Hh & Hl & Hn). repeat split; auto.
    cbn [Json.encode depths map].
    rewrite <- (string_app_nil_r (Json.encode_int n)).
    now rewrite (breaks_no_newline _ _ Hn).
  - destruct (encode_str_facts s) as (Hh & Hl & Hn). repeat split; auto.
    cbn [Json.encode depths map].
    rewrite <- (string_app_nil_r (Json.encode_str s)).
    now rewrite (breaks_no_newline _ _ Hn).
  - cbn [Json.encode depths]. apply lay_out_ok; try reflexivity.
    induction IH as [|x rest Hx _ IHrest]; simpl; constructor; auto.
  - cbn [Json.encode depths]. rewrite !sorted_or_not_on_snd.
    apply lay_out_ok; try reflexivity.
    apply (sorted_or_not_Forall _ sort_keys) in IH.
    induction IH as [|[k x] rest Hx _ IHrest]; simpl; constructor; auto.
    apply member_ok, Hx.
Qed.

End EncodeFacts.

(** ** Key order *)

Section OrderFacts.
Import Layout.

Variable indent : nat.

Lemma on_snd_compose {A B C : Type} (f : A -> B) (g : B -> C) (l : list (string * A)) :
  map (Json.on_snd g) (map (Json.on_snd f) l) = map (Json.on_snd (fun x => g (f x))) l.
Proof. rewrite map_map. reflexivity. Qed.

Lemma on_snd_ext {A B : Type} (f g : A -> B) (l : list (string * A)) :
  Forall (fun kv => f (snd kv) = g (snd kv)) l ->
  map (Json.on_snd f) l = map (Json.on_snd g) l.
Proof.
  induction 1 as [|kv l H _ IH]; simpl; [reflexivity|].
  unfold Json.on_snd at 1 3. now rewrite H, IH.
Qed.

(** With [sort_keys] the encoder writes what it writes, without it, for
    the value whose dictionaries have all been put in key order. *)
Lemma encode_canon (v : json) :
  forall level,
    Json.encode indent true level v = Json.encode indent false level (canon v).
Proof.
  induction v as [| b | n | s | items IH | items IH] using json_nested_ind;
    intros level; try reflexivity.
  - cbn [Json.encode canon]. f_equal. rewrite map_map.
    induction IH as [|x rest Hx _ IHrest]; simpl; [reflexivity|].
    now rewrite Hx, IHrest.
  - cbn [Json.encode canon]. f_equal. f_equal.
    rewrite <- sort_items_on_snd, on_snd_compose. f_equal.
    apply on_snd_ext. eapply Forall_impl; [|exact IH].
    intros kv H. apply H.
Qed.

Lemma keys_on_snd {A B : Type} (g : A -> B) (l : list (string * A)) :
  map fst (map (Json.on_snd g) l) = map fst l.
Proof. rewrite map_map. reflexivity. Qed.

Lemma canon_sorted (v : json) : dicts_sorted (canon v) = true.
Proof.
  induction v as [| b | n | s | items IH | items IH] using json_nested_ind;
    try reflexivity.
  - cbn [canon dicts_sorted]. rewrite forallb_forall. intros x Hx.
    apply in_map_iff in Hx as (y & <- & Hy).
    rewrite Forall_forall in IH. now apply IH.
  - cbn [canon dicts_sorted]. apply andb_true_iff. split.
    + apply sorted_ascending, sort_items_sorted.
    + rewrite forallb_forall. intros kv Hkv.
      apply (Permutation_in _ (sort_items_perm _)) in Hkv.
      apply in_map_iff in Hkv as (kv0 & <- & Hkv0).
      rewrite Forall_forall in IH. now apply IH.
Qed.

(** The order in which the items of the dictionaries were inserted does
    not show in the text. *)
Lemma encode_same_content :
  (forall v v', same_content v v' ->
     json_wf v = true ->
     forall level, Json.encode indent true level v = Json.encode indent true level v')
  /\ (forall l l', same_all l l' ->
        forallb json_wf l = true ->
        forall level,
          map (Json.encode indent true level) l = map (Json.encode indent true level) l')
  /\ (forall items mid, same_items items mid ->
        forallb (fun kv => json_wf (snd kv)) items = true ->
        map fst items = map fst mid
        /\ forall level,
             map (Json.on_snd (Json.encode indent true level)) items
             = map (Json.on_snd (Json.encode indent true level)) mid).
Proof.
  apply same_content_mutind; try reflexivity.
  - intros l l' _ IH Hwf level. cbn [Json.encode]. f_equal. now apply IH.
  - intros items mid items' _ IH Hperm Hwf level.
    cbn [json_wf] in Hwf. apply andb_true_iff in Hwf as [Hd Hwf].
    destruct (IH Hwf) as [Hkeys Henc].
    cbn [Json.encode]. f_equal. f_equal. rewrite Henc.
    apply sort_items_perm_eq.
    + now apply Permutation_map.
    + rewrite keys_on_snd, <- Hkeys. now apply distinct_NoDup.
  - intros v v' l l' _ IHv _ IHl Hwf level.
    cbn [forallb] in Hwf. apply andb_true_iff in Hwf as [Hv Hl].
    cbn [map]. now rewrite (IHv Hv), (IHl Hl).
  - split; reflexivity.
  - intros k v v' l l' _ IHv _ IHl Hwf.
    cbn [forallb snd] in Hwf. apply andb_true_iff in Hwf as [Hv Hl].
    destruct (IHl Hl) as [Hkeys Henc]. split.
    + cbn [map fst]. now rewrite Hkeys.
    + intros level. cbn [map]. unfold Json.on_snd at 1 3. cbn [fst snd].
      now rewrite (IHv Hv), Henc.
Qed.

End OrderFacts.

(** ** Reading the index file back *)

Section ReadFacts.
Import JsonRead.

Lemma skip_ws_visible (s r : string) :
  head_visible s = true -> skip_ws (s ++ r) = s ++ r.
Proof.
  destruct s as [|c s]; [discriminate|]. cbn [head_visible append skip_ws].
  now destruct (is_ws c).
Qed.

Lemma head_visible_inv (s : string) :
  head_visible s = true ->
  exists c t, s = String c t /\ is_ws c = false
              /\ Ascii.eqb c "]" = false /\ Ascii.eqb c "}" = false.
Proof.
  destruct s as [|c t]; [discriminate|]. cbn [head_visible]. intros H.
  apply negb_true_iff, orb_false_iff in H as [H H3].
  apply orb_false_iff in H as [H1 H2]. now exists c, t.
Qed.

Lemma head_visible_app (a b : string) :
  head_visible a = true -> head_visible (a ++ b) = true.
Proof. now destruct a. Qed.

Lemma head_visible_concat (sep c : string) (chunks : list string) :
  head_visible c = true -> head_visible (String.concat sep (c :: chunks)) = true.
Proof.
  intros H. destruct chunks as [|c' chunks]; [exact H|].
  now apply head_visible_app.
Qed.

Lemma skip_ws_spaces (n : nat) (s : string) : skip_ws (Json.spaces n ++ s) = skip_ws s.
Proof. induction n as [|n IH]; [reflexivity|exact IH]. Qed.

Lemma skip_ws_newline_indent (indent level : nat) (s : string) :
  skip_ws (Json.newline_indent indent level ++ s) = skip_ws s.
Proof.
  unfold Json.newline_indent. rewrite string_app_assoc.
  change (skip_ws (Json.spaces (indent * level) ++ s) = skip_ws s).
  apply skip_ws_spaces.
Qed.

(** *** Strings *)

Lemma read_chars_escape_char (c : ascii) (t : string) :
  read_chars (Json.escape_char c ++ t) = push (Some c) (read_chars t).
Proof. destruct c as [[] [] [] [] [] [] [] []]; reflexivity. Qed.

Lemma read_chars_escape (s rest : string) :
  read_chars (Json.escape s ++ Json.quote ++ rest) = Some (s, rest).
Proof.
  induction s as [|c s IH]; [reflexivity|].
  cbn [Json.escape]. rewrite string_app_assoc, read_chars_escape_char, IH.
  reflexivity.
Qed.

Lemma read_string_encode_str (s rest : string) :
  read_string (Json.encode_str s ++ rest) = Some (s, rest).
Proof.
  unfold Json.encode_str. rewrite !string_app_assoc.
  exact (read_chars_escape s rest).
Qed.

(** *** Integers *)

Lemma span_digits_uint (d : Decimal.uint) (rest : string) :
  follow_ok rest = true ->
  span_digits (NilEmpty.string_of_uint d ++ rest) = (NilEmpty.string_of_uint d, rest).
Proof.
  intros H. induction d; cbn [NilEmpty.string_of_uint append span_digits];
    try (change (is_digit _) with true; cbv iota; now rewrite IHd).
  destruct rest as [|c rest]; [reflexivity|].
  cbn [follow_ok] in H. cbn [span_digits].
  now destruct (is_digit c).
Qed.

Lemma read_nat_uint (d : Decimal.uint) (rest : string) :
  d <> Decimal.Nil -> follow_ok rest = true ->
  read_nat (NilEmpty.string_of_uint d ++ rest) = Some (Z.of_uint d, rest).
Proof.
  intros Hd H. unfold read_nat. rewrite (span_digits_uint d rest H).
  rewrite NilEmpty.usu. destruct d; [congruence| | | | | | | | | |]; reflexivity.
Qed.

Lemma read_int_uint (d : Decimal.uint) (rest : string) :
  d <> Decimal.Nil -> follow_ok rest = true ->
  read_int (NilEmpty.string_of_uint d ++ rest) = Some (Z.of_uint d, rest).
Proof.
  intros Hd H. rewrite <- (read_nat_uint d rest Hd H).
  destruct d; [congruence| | | | | | | | | |]; reflexivity.
Qed.

Lemma of_uint_to_uint (p : positive) : Z.of_uint (Pos.to_uint p) = Z.pos p.
Proof.
  unfold Z.of_uint. now rewrite DecimalPos.Unsigned.of_to.
Qed.

Lemma string_of_uint_nonnil (d : Decimal.uint) :
  d <> Decimal.Nil -> NilZero.string_of_uint d = NilEmpty.string_of_uint d.
Proof. destruct d; [congruence| | | | | | | | | |]; reflexivity. Qed.

Lemma read_int_encode_int (n : Z) (rest : string) :
  follow_ok rest = true ->
  read_int (Json.encode_int n ++ rest) = Some (n, rest).
Proof.
  intros H. unfold Json.encode_int. destruct n as [|p|p].
  - exact (read_int_uint (Decimal.D0 Decimal.Nil) rest ltac:(discriminate) H).
  - pose proof (DecimalPos.Unsigned.to_uint_nonnil p) as Hp.
    cbn [Z.to_int NilZero.string_of_int].
    rewrite (string_of_uint_nonnil _ Hp), (read_int_uint _ rest Hp H).
    now rewrite of_uint_to_uint.
  - pose proof (DecimalPos.Unsigned.to_uint_nonnil p) as Hp.
    cbn [Z.to_int NilZero.string_of_int].
    rewrite (string_of_uint_nonnil _ Hp).
    change (String "-" ?x ++ rest) with (String "-" (x ++ rest)).
    cbn [read_int]. change (Ascii.eqb "-" "-") with true. cbv iota.
    rewrite (read_nat_uint _ rest Hp H). now rewrite of_uint_to_uint.
Qed.

Lemma uint_head (d : Decimal.uint) :
  d <> Decimal.Nil ->
  exists c t, NilEmpty.string_of_uint d = String c t /\ is_digit c = true.
Proof.
  destruct d; [congruence| | | | | | | | | |]; intros _; eexists; eexists;
    (split; [reflexivity|reflexivity]).
Qed.

(** The text of an integer begins with a digit or the sign. *)
Lemma encode_int_head (n : Z) :
  exists c t, Json.encode_int n = String c t
              /\ (is_digit c = true \/ c = "-"%char).
Proof.
  unfold Json.encode_int. destruct n as [|p|p].
  - exists "0"%char, "". split; [reflexivity|now left].
  - pose proof (DecimalPos.Unsigned.to_uint_nonnil p) as Hp.
    cbn [Z.to_int NilZero.string_of_int]. rewrite (string_of_uint_nonnil _ Hp).
    destruct (uint_head _ Hp) as (c & t & -> & Hc). exists c, t. auto.
  - eexists; eexists. split; [reflexivity|now right].
Qed.

Lemma digit_cases (c : ascii) :
  is_digit c = true \/ c = "-"%char ->
  negb (is_ws c || Ascii.eqb c "]" || Ascii.eqb c "}") = true
  /\ Ascii.eqb c "[" = false /\ Ascii.eqb c "{" = false
  /\ Ascii.eqb c "034" = false
  /\ Ascii.eqb c "n" = false /\ Ascii.eqb c "t" = false /\ Ascii.eqb c "f" = false.
Proof.
  intros [H| ->]; [|repeat split].
  destruct c as [[] [] [] [] [] [] [] []]; try discriminate H; repeat split.
Qed.

Lemma read_scalar_int (n : Z) (rest : string) :
  follow_ok rest = true ->
  read_scalar (Json.encode_int n ++ rest) = Some (JInt n, rest).
Proof.
  intros H. pose proof (read_int_encode_int n rest H) as E.
  destruct (encode_int_head n) as (c & t & Hn & Hc). rewrite Hn in *.
  destruct (digit_cases c Hc) as (_ & _ & _ & Hq & Hnull & Htrue & Hfalse).
  unfold read_scalar. cbn [append strip_prefix read_string].
  rewrite (Ascii.eqb_sym "n" c), (Ascii.eqb_sym "t" c), (Ascii.eqb_sym "f" c).
  rewrite Hnull, Htrue, Hfalse, Hq.
  cbn [append] in E. now rewrite E.
Qed.

Lemma read_scalar_str (s rest : string) :
  read_scalar (Json.encode_str s ++ rest) = Some (JStr s, rest).
Proof.
  pose proof (read_string_encode_str s rest) as E.
  unfold read_scalar. rewrite E. reflexivity.
Qed.


(** *** Values *)

Variable indent : nat.

(** The text of a value begins with a visible character. *)
Lemma encode_head_visible (level : nat) (v : json) :
  head_visible (Json.encode indent true level v) = true.
Proof.
  destruct v as [| [|] | n | s | items | items]; try reflexivity.
  - destruct (encode_int_head n) as (c & t & Hn & Hc).
    cbn [Json.encode]. rewrite Hn. cbn [head_visible].
    exact (proj1 (digit_cases c Hc)).
  - cbn [Json.encode]. unfold Json.lay_out. now destruct (map _ items).
  - cbn [Json.encode]. unfold Json.lay_out. now destruct (map _ _).
Qed.

Lemma encode_nonempty (level : nat) (v : json) :
  1 <= String.length (Json.encode indent true level v).
Proof.
  pose proof (encode_head_visible level v) as H.
  destruct (Json.encode indent true level v); [discriminate|simpl; lia].
Qed.

(** The reader on the text of a value that is not a container. *)
Lemma read_value_scalar (fuel : nat) (c : ascii) (s : string) :
  Ascii.eqb c "[" = false -> Ascii.eqb c "{" = false ->
  read_value (S fuel) (String c s) = read_scalar (String c s).
Proof. intros H1 H2. cbn [read_value]. now rewrite H1, H2. Qed.

Lemma after_item_more {A : Type} (closing : ascii)
  (more : string -> option (list A * string)) (x : A) (level : nat) (s : string) :
  head_visible s = true ->
  after_item closing more x ("," ++ Json.newline_indent indent level ++ s)
  = match more s with
    | Some (xs, r) => Some (x :: xs, r)
    | None => None
    end.
Proof.
  intros H. unfold after_item.
  change ("," ++ Json.newline_indent indent level ++ s)
    with (String "," (Json.newline_indent indent level ++ s)).
  cbn [skip_ws]. change (is_ws ",") with false. cbv iota.
  change (Ascii.eqb "," ",") with true. cbv iota.
  rewrite skip_ws_newline_indent.
  rewrite <- (string_app_nil_r s), (skip_ws_visible s "" H). reflexivity.
Qed.

Lemma after_item_closing {A : Type} (closing : ascii)
  (more : string -> option (list A * string)) (x : A) (level : nat) (rest : string) :
  is_ws closing = false -> Ascii.eqb closing "," = false ->
  after_item closing more x (Json.newline_indent indent level ++ String closing rest)
  = Some ([x], rest).
Proof.
  intros Hws Hc. unfold after_item. rewrite skip_ws_newline_indent.
  cbn [skip_ws]. rewrite Hws, Hc, Ascii.eqb_refl. reflexivity.
Qed.

Lemma container_items {A : Type} (closing : ascii) (build : list A -> json)
  (items : string -> option (list A * string)) (level : nat) (s : string) :
  closing = "]"%char \/ closing = "}"%char ->
  head_visible s = true ->
  container closing build items (Json.newline_indent indent level ++ s)
  = match items s with
    | Some (xs, r) => Some (build xs, r)
    | None => None
    end.
Proof.
  intros Hc H. unfold container. rewrite skip_ws_newline_indent.
  destruct (head_visible_inv s H) as (c & t & -> & Hws & H1 & H2).
  cbn [skip_ws]. rewrite Hws. now destruct Hc as [-> | ->]; rewrite ?H1, ?H2.
Qed.

(** The items of a list, behind the opening bracket and the first line
    break. *)
Lemma read_elements_chunks (level : nat) (rest : string) (items : list json) :
  Forall (reads_back indent) items ->
  forall v fuel,
    reads_back indent v ->
    String.length
      (String.concat ("," ++ Json.newline_indent indent (S level))
         (map (Json.encode indent true (S level)) (v :: items))) < fuel ->
    read_elements fuel
      (String.concat ("," ++ Json.newline_indent indent (S level))
         (map (Json.encode indent true (S level)) (v :: items))
       ++ Json.newline_indent indent level ++ String "]" rest)
    = Some (map Layout.canon (v :: items), rest).
Proof.
  induction 1 as [|v' items Hv' _ IH]; intros v fuel Hv Hfuel.
  - cbn [map String.concat] in Hfuel |- *.
    destruct fuel as [|fuel]; [lia|]. cbn [read_elements].
    rewrite (Hv (S level) _ fuel) by (reflexivity || lia).
    now rewrite after_item_closing.
  - cbn [map] in Hfuel |- *. rewrite concat_cons2 in Hfuel |- *.
    rewrite !string_length_app in Hfuel.
    destruct fuel as [|fuel]; [lia|]. cbn [read_elements].
    rewrite !string_app_assoc.
    rewrite (Hv (S level) _ fuel) by (reflexivity || lia).
    rewrite after_item_more
      by (apply head_visible_app, head_visible_concat, encode_head_visible).
    change (String.length ",") with 1 in Hfuel.
    cbn [map] in IH. rewrite (IH v' fuel Hv') by lia.
    reflexivity.
Qed.


Lemma read_member (k : string) (v : json) (level : nat) (more : string) (fuel : nat) :
  reads_back indent v ->
  String.length (Json.encode indent true level v) <= fuel ->
  follow_ok more = true ->
  member (read_value fuel)
    (Json.member (k, Json.encode indent true level v) ++ more)
  = Some ((k, Layout.canon v), more).
Proof.
  intros Hv Hfuel Hmore. unfold member, Json.member. cbn [fst snd].
  rewrite string_app_assoc, read_string_encode_str.
  change ((": " ++ Json.encode indent true level v) ++ more)
    with (String ":" (String " " (Json.encode indent true level v ++ more))).
  cbn [skip_ws]. change (is_ws ":") with false. cbv iota.
  change (Ascii.eqb ":" ":") with true. cbv iota.
  cbn [skip_ws]. change (is_ws " ") with true. cbv iota.
  rewrite (skip_ws_visible _ _ (encode_head_visible level v)).
  now rewrite (Hv level more fuel Hfuel Hmore).
Qed.

Lemma length_member (k c : string) :
  String.length c <= String.length (Json.member (k, c)).
Proof. unfold Json.member. cbn [fst snd]. rewrite !string_length_app. lia. Qed.

Lemma member_head_visible (kv : string * string) : head_visible (Json.member kv) = true.
Proof. reflexivity. Qed.

(** The items of a dictionary, behind the opening bracket and the first
    line break. *)
Lemma read_members_chunks (level : nat) (rest : string) (items : PyDict.t json) :
  Forall (fun kv => reads_back indent (snd kv)) items ->
  forall kv fuel,
    reads_back indent (snd kv) ->
    String.length
      (String.concat ("," ++ Json.newline_indent indent (S level))
         (map Json.member
            (map (Json.on_snd (Json.encode indent true (S level))) (kv :: items))))
    < fuel ->
    read_members fuel
      (String.concat ("," ++ Json.newline_indent indent (S level))
         (map Json.member
            (map (Json.on_snd (Json.encode indent true (S level))) (kv :: items)))
       ++ Json.newline_indent indent level ++ String "}" rest)
    = Some (map (Json.on_snd Layout.canon) (kv :: items), rest).
Proof.
  induction 1 as [|kv' items Hv' _ IH]; intros [k v] fuel Hv Hfuel;
    cbn [snd] in Hv.
  - cbn [map String.concat] in Hfuel |- *. change (Json.on_snd ?g (k, v)) with (k, g v) in Hfuel |- *.
    pose proof (length_member k (Json.encode indent true (S level) v)) as Hlen.
    destruct fuel as [|fuel]; [lia|]. cbn [read_members].
    rewrite (read_member k v (S level) _ fuel Hv) by (reflexivity || lia).
    now rewrite after_item_closing.
  - cbn [map] in Hfuel |- *. rewrite concat_cons2 in Hfuel |- *.
    change (Json.on_snd ?g (k, v)) with (k, g v) in Hfuel |- *.
    pose proof (length_member k (Json.encode indent true (S level) v)) as Hlen.
    rewrite !string_length_app in Hfuel.
    destruct fuel as [|fuel]; [lia|]. cbn [read_members].
    rewrite (string_app_assoc (Json.member _)).
    rewrite (read_member k v (S level) _ fuel Hv) by (reflexivity || lia).
    rewrite !string_app_assoc.
    rewrite after_item_more
      by (apply head_visible_app, head_visible_concat, member_head_visible).
    change (String.length ",") with 1 in Hfuel.
    cbn [map] in IH. rewrite (IH kv' fuel Hv') by lia.
    reflexivity.
Qed.

Lemma length_lay_out (level : nat) (o q c : string) (chunks : list string) :
  String.length
    (String.concat ("," ++ Json.newline_indent indent (S level)) (c :: chunks))
  < String.length (Json.lay_out indent level o q (c :: chunks))
    - String.length o.
Proof.
  unfold Json.lay_out. rewrite !string_length_app.
  unfold Json.newline_indent at 2 4. rewrite !string_length_app.
  change (String.length Json.newline) with 1. lia.
Qed.

(** The reader gets back every value from its text, the items of the
    dictionaries in the order of their keys. *)
Lemma read_value_encode (v : json) : reads_back indent v.
Proof.
  induction v as [| b | n | s | items IH | items IH] using json_nested_ind;
    intros level rest fuel Hfuel Hrest.
  - destruct fuel as [|fuel]; [simpl in Hfuel; lia|reflexivity].
  - destruct fuel as [|fuel]; [destruct b; simpl in Hfuel; lia|].
    destruct b; reflexivity.
  - pose proof (encode_nonempty level (JInt n)) as Hne.
    destruct fuel as [|fuel]; [lia|].
    cbn [Json.encode] in *.
    pose proof (read_scalar_int n rest Hrest) as E.
    destruct (encode_int_head n) as (c & t & Hn & Hc). rewrite Hn in *.
    destruct (digit_cases c Hc) as (_ & H1 & H2 & _).
    cbn [append] in E |- *. now rewrite read_value_scalar.
  - destruct fuel as [|fuel]; [simpl in Hfuel; lia|].
    cbn [Json.encode Layout.canon]. rewrite <- (read_scalar_str s rest).
    unfold Json.encode_str. apply read_value_scalar; reflexivity.
  - cbn [Json.encode Layout.canon] in Hfuel |- *.
    destruct items as [|x items].
    + destruct fuel as [|fuel]; [simpl in Hfuel; lia|]. reflexivity.
    + inversion IH as [|? ? Hx Hitems]; subst.
      cbn [map] in Hfuel |- *.
      pose proof (length_lay_out level "[" "]"
                    (Json.encode indent true (S level) x)
                    (map (Json.encode indent true (S level)) items)) as Hlen.
      change (String.length "[") with 1 in Hlen.
      destruct fuel as [|fuel]; [lia|].
      unfold Json.lay_out. rewrite !string_app_assoc.
      change ("[" ++ ?x) with (String "[" x). cbn [read_value].
      change (Ascii.eqb "[" "[") with true. cbv iota.
      rewrite container_items;
        [|now left
         |apply head_visible_app, head_visible_concat, encode_head_visible].
      change ("]" ++ rest) with (String "]" rest).
      pose proof (read_elements_chunks level rest items Hitems x fuel Hx) as E.
      cbn [map] in E. rewrite E by lia. reflexivity.
  - cbn [Json.encode Layout.canon] in Hfuel |- *.
    rewrite sort_items_on_snd in Hfuel |- *. rewrite (sort_items_on_snd Layout.canon).
    apply (sorted_or_not_Forall _ true) in IH. cbv iota in IH.
    destruct (Json.sort_items items) as [|x sorted].
    + destruct fuel as [|fuel]; [simpl in Hfuel; lia|]. reflexivity.
    + inversion IH as [|? ? Hx Hitems]; subst.
      pose proof (length_lay_out level "{" "}"
                    (Json.member (Json.on_snd (Json.encode indent true (S level)) x))
                    (map Json.member
                       (map (Json.on_snd (Json.encode indent true (S level))) sorted)))
        as Hlen.
      change (String.length "{") with 1 in Hlen.
      cbn [map] in Hfuel |- *.
      destruct fuel as [|fuel]; [lia|].
      unfold Json.lay_out. rewrite !string_app_assoc.
      change ("{" ++ ?x) with (String "{" x). cbn [read_value].
      change (Ascii.eqb "{" "[") with false. change (Ascii.eqb "{" "{") with true.
      cbv iota.
      rewrite container_items;
        [|now right
         |apply head_visible_app, head_visible_concat, member_head_visible].
      change ("}" ++ rest) with (String "}" rest).
      pose proof (read_members_chunks level rest sorted Hitems x fuel Hx) as E.
      cbn [map] in E. rewrite E by lia. reflexivity.
Qed.

End ReadFacts.

Section IndexFileFacts.

(** The text written to the index file is read back as the index with
    the items of its dictionaries in the order of their keys. *)
Lemma loads_index_file (index : json) :
  JsonRead.loads (index_file_content index) = Some (Layout.canon index).
Proof.
  unfold JsonRead.loads, index_file_content, Json.dumps.
  rewrite (skip_ws_visible _ _ (encode_head_visible 2 0 index)).
  rewrite (read_value_encode 2 index 0 Json.newline)
    by (reflexivity || (rewrite string_length_app; lia)).
  reflexivity.
Qed.

(** Putting the items of the dictionaries in key order keeps the
    content. *)
Lemma canon_same_content (v : json) : Layout.same_content v (Layout.canon v).
Proof.
  induction v as [| b | n | s | items IH | items IH] using json_nested_ind;
    try constructor.
  - induction IH as [|x items Hx _ IHitems]; constructor; assumption.
  - cbn [Layout.canon].
    apply (Layout.same_dict items (map (Json.on_snd Layout.canon) items)).
    + induction IH as [|[k x] items Hx _ IHitems]; constructor; assumption.
    + symmetry. apply sort_items_perm.
Qed.

End IndexFileFacts.

(** C8.  Whenever an index file is written, there is an index and the
    text written is [json.dumps(index, indent=2, sort_keys=True)] followed
    by one line break: the text of the index itself ends in a visible
    character, every line after the first starts with two spaces for each
    level of nesting it sits at, and the text is what the encoder writes,
    without sorting, for the index whose dictionaries have all been put in
    ascending key order.  An index with the same content whose dictionary
    items were inserted in another order is written as the same text.  A
    JSON reader gets from the text a value that has the content of the
    index and that has, in the order of the text, the keys of every
    dictionary in ascending order. *)
Theorem index_file_sorted_indented (index : option json) (content : string) :
  save_index index = Some content ->
  exists idx,
    index = Some idx
    /\ content = Json.dumps 2 true idx ++ Json.newline
    /\ Layout.last_ok (Json.dumps 2 true idx) = true
    /\ Layout.breaks (Json.dumps 2 true idx)
       = map (Nat.mul 2) (Layout.depths true 0 idx)
    /\ Json.dumps 2 true idx = Json.dumps 2 false (Layout.canon idx)
    /\ Layout.dicts_sorted (Layout.canon idx) = true
    /\ (forall idx',
          Layout.json_wf idx = true -> Layout.same_content idx idx' ->
          save_index (Some idx') = Some content)
    /\ JsonRead.loads content = Some (Layout.canon idx)
    /\ Layout.same_content idx (Layout.canon idx).
Proof.
  intros H. destruct index as [idx|]; [|discriminate].
  injection H as <-. exists idx.
  destruct (encode_ok 2 true idx 0) as (_ & Hl & Hb).
  split; [reflexivity|]. split; [reflexivity|].
  split; [exact Hl|]. split; [exact Hb|].
  split; [apply encode_canon|]. split; [apply canon_sorted|].
  split; [|split; [apply loads_index_file|apply canon_same_content]].
  intros idx' Hwf Hsame. unfold save_index, index_file_content, Json.dumps.
  now rewrite (proj1 (encode_same_content 2) idx idx' Hsame Hwf 0).
Qed.

Lemma index_file_sorted_indented_witness :
  JsonRead.loads
    (index_file_content
       (JDict [("weight_map",
                JDict [("rwkv.blocks.0.pre_ln.weight", JStr "pytorch_model-00002-of-00002.bin");
                       ("head.weight", JStr "pytorch_model-00001-of-00002.bin")]);
               ("metadata", JDict [("total_size", JInt 1234)])]))
  = Some (JDict [("metadata", JDict [("total_size", JInt 1234)]);
                 ("weight_map",
                  JDict [("head.weight", JStr "pytorch_model-00001-of-00002.bin");
                         ("rwkv.blocks.0.pre_ln.weight",
                          JStr "pytorch_model-00002-of-00002.bin")])])
  /\ Layout.breaks
       (Json.dumps 2 true
          (JDict [("weight_map",
                   JDict [("rwkv.blocks.0.pre_ln.weight",
                           JStr "pytorch_model-00002-of-00002.bin");
                          ("head.weight", JStr "pytorch_model-00001-of-00002.bin")]);
                  ("metadata", JDict [("total_size", JInt 1234)])]))
     = [2; 4; 2; 2; 4; 4; 2; 0].
Proof.
  destruct (index_file_sorted_indented
              (Some (JDict [("weight_map",
                             JDict [("rwkv.blocks.0.pre_ln.weight",
                                     JStr "pytorch_model-00002-of-00002.bin");
                                    ("head.weight",
                                     JStr "pytorch_model-00001-of-00002.bin")]);
                            ("metadata", JDict [("total_size", JInt 1234)])]))
              _ eq_refl)
    as (idx & Hidx & _ & _ & Hb & _ & _ & _ & Hload & _).
  injection Hidx as <-. split; [exact Hload|exact Hb].
Defined.

(** * Further properties *)

(** ** How the rules change the length of a key *)

Section LengthFacts.

(** A replacement by a text that is not shorter never shortens. *)
Lemma replace_from_length (old new : string) (skip : nat) (s : string) :
  1 <= String.length old -> String.length old <= String.length new ->
  String.length s <= String.length (PyStr.replace_from old new skip s) + skip.
Proof.
  intros H1 H2. revert skip. induction s as [|c s IH]; intros skip.
  - simpl. lia.
  - destruct skip as [|k].
    + rewrite replace_from_step.
      destruct (PyStr.startswith (String c s) old).
      * rewrite string_length_app.
        specialize (IH (String.length old - 1)). simpl. lia.
      * specialize (IH 0). simpl. lia.
    + cbn [PyStr.replace_from]. specialize (IH k). simpl. lia.
Qed.

(** A replacement leaves the text as it is, or its result holds the new
    text in full. *)
Lemma replace_from_same_or_long (old new : string) (skip : nat) (s : string) :
  PyStr.replace_from old new skip s = PyStr.drop skip s
  \/ String.length new <= String.length (PyStr.replace_from old new skip s).
Proof.
  revert skip. induction s as [|c s IH]; intros skip.
  - left. now destruct skip.
  - destruct skip as [|k].
    + rewrite replace_from_step.
      destruct (PyStr.startswith (String c s) old).
      * right. rewrite string_length_app. lia.
      * destruct (IH 0) as [E|E].
        -- left. cbn [PyStr.drop] in *. destruct s; now rewrite E.
        -- right. simpl. lia.
    + cbn [PyStr.replace_from PyStr.drop]. apply IH.
Qed.

Lemma sub_block_from_length (seg repl : string) (skip : nat) (s : string) :
  String.length seg <= String.length repl ->
  String.length s <= String.length (PyStr.sub_block_from seg repl skip s) + skip.
Proof.
  intros H. revert skip. induction s as [|c s IH]; intros skip.
  - simpl. lia.
  - destruct skip as [|k]; cbn [PyStr.sub_block_from].
    + destruct (PyStr.match_block seg (String c s)) as [ds|].
      * rewrite !string_length_app.
        specialize (IH (7 + String.length ds + String.length seg)).
        change (String.length "blocks.") with 7.
        change (String.length ".") with 1. simpl String.length at 1. lia.
      * specialize (IH 0). simpl. lia.
    + specialize (IH k). simpl. lia.
Qed.

Lemma sub_block_from_same_or_long (seg repl : string) (skip : nat) (s : string) :
  PyStr.sub_block_from seg repl skip s = PyStr.drop skip s
  \/ 8 + String.length repl <= String.length (PyStr.sub_block_from seg repl skip s).
Proof.
  revert skip. induction s as [|c s IH]; intros skip.
  - left. now destruct skip.
  - destruct skip as [|k]; cbn [PyStr.sub_block_from].
    + destruct (PyStr.match_block seg (String c s)) as [ds|].
      * right. rewrite !string_length_app.
        change (String.length "blocks.") with 7.
        change (String.length ".") with 1. lia.
      * destruct (IH 0) as [E|E].
        -- left. cbn [PyStr.drop] in *. destruct s; now rewrite E.
        -- right. simpl. lia.
    + cbn [PyStr.drop]. apply IH.
Qed.

Lemma rule_emb_length (name : string) :
  String.length name <= String.length (rule_emb name).
Proof.
  unfold rule_emb, PyStr.replace. destruct (PyStr.startswith name "emb."); [|lia].
  pose proof (replace_from_length "emb." "embeddings." 0 name). simpl in *. lia.
Qed.

Lemma rule_pre_ln_length (name : string) :
  String.length name <= String.length (rule_pre_ln name).
Proof.
  unfold rule_pre_ln, PyStr.replace.
  destruct (PyStr.startswith name "blocks.0.ln0"); [|lia].
  pose proof (replace_from_length "blocks.0.ln0" "blocks.0.pre_ln" 0 name).
  simpl in *. lia.
Qed.

Lemma rule_time_mix_length (suffix target name : string) :
  1 <= String.length suffix -> String.length suffix <= String.length target ->
  String.length name <= String.length (rule_time_mix suffix target name).
Proof.
  intros H1 H2. unfold rule_time_mix, PyStr.replace.
  destruct (PyStr.endswith name suffix); [|lia].
  pose proof (replace_from_length suffix target 0 name H1 H2). lia.
Qed.

(** The seven rules in front of the prefix rule. *)
Lemma rules_length (name : string) :
  String.length name
  <= String.length
       (rule_time_mix ".time_mix_r" ".time_mix_receptance"
          (rule_time_mix ".time_mix_v" ".time_mix_value"
             (rule_time_mix ".time_mix_k" ".time_mix_key"
                (rule_ffn (rule_att (rule_pre_ln (rule_emb name))))))).
Proof.
  pose proof (rule_emb_length name) as H1.
  pose proof (rule_pre_ln_length (rule_emb name)) as H2.
  pose proof (sub_block_from_length "att" "attention" 0 (rule_pre_ln (rule_emb name))) as H3.
  fold (PyStr.sub_block "att" "attention" (rule_pre_ln (rule_emb name))) in H3.
  fold (rule_att (rule_pre_ln (rule_emb name))) in H3.
  pose proof (sub_block_from_length "ffn" "feed_forward" 0
                (rule_att (rule_pre_ln (rule_emb name)))) as H4.
  fold (PyStr.sub_block "ffn" "feed_forward" (rule_att (rule_pre_ln (rule_emb name)))) in H4.
  fold (rule_ffn (rule_att (rule_pre_ln (rule_emb name)))) in H4.
  set (a := rule_ffn (rule_att (rule_pre_ln (rule_emb name)))) in *.
  pose proof (rule_time_mix_length ".time_mix_k" ".time_mix_key" a) as H5.
  set (b := rule_time_mix ".time_mix_k" ".time_mix_key" a) in *.
  pose proof (rule_time_mix_length ".time_mix_v" ".time_mix_value" b) as H6.
  set (c := rule_time_mix ".time_mix_v" ".time_mix_value" b) in *.
  pose proof (rule_time_mix_length ".time_mix_r" ".time_mix_receptance" c) as H7.
  simpl in H3, H4, H5, H6, H7. lia.
Qed.

(** None of the seven rules produces [head.weight] from another key. *)
Lemma rule_emb_head (name : string) :
  rule_emb name = "head.weight" -> name = "head.weight".
Proof.
  unfold rule_emb. destruct (PyStr.startswith name "emb.") eqn:E; [|auto].
  destruct (startswith_inv _ _ E) as [r ->]. discriminate.
Qed.

Lemma rule_pre_ln_head (name : string) :
  rule_pre_ln name = "head.weight" -> name = "head.weight".
Proof.
  unfold rule_pre_ln. destruct (PyStr.startswith name "blocks.0.ln0") eqn:E; [|auto].
  destruct (startswith_inv _ _ E) as [r ->]. discriminate.
Qed.

Lemma sub_block_head (seg repl name : string) :
  4 <= String.length repl ->
  PyStr.sub_block seg repl name = "head.weight" -> name = "head.weight".
Proof.
  intros Hlen H. unfold PyStr.sub_block in *.
  destruct (sub_block_from_same_or_long seg repl 0 name) as [E|E].
  - rewrite E in H. exact H.
  - rewrite H in E. simpl in E. lia.
Qed.

Lemma rule_time_mix_head (suffix target name : string) :
  12 <= String.length target ->
  rule_time_mix suffix target name = "head.weight" -> name = "head.weight".
Proof.
  intros Hlen. unfold rule_time_mix, PyStr.replace.
  destruct (PyStr.endswith name suffix); [|auto].
  intros H. destruct (replace_from_same_or_long suffix target 0 name) as [E|E].
  - rewrite E in H. exact H.
  - rewrite H in E. simpl in E. lia.
Qed.

Lemma rules_head (name : string) :
  rule_time_mix ".time_mix_r" ".time_mix_receptance"
    (rule_time_mix ".time_mix_v" ".time_mix_value"
       (rule_time_mix ".time_mix_k" ".time_mix_key"
          (rule_ffn (rule_att (rule_pre_ln (rule_emb name))))))
  = "head.weight" ->
  name = "head.weight".
Proof.
  intros H.
  apply rule_time_mix_head in H; [|simpl; lia].
  apply rule_time_mix_head in H; [|simpl; lia].
  apply rule_time_mix_head in H; [|simpl; lia].
  apply sub_block_head in H; [|simpl; lia].
  apply sub_block_head in H; [|simpl; lia].
  now apply rule_pre_ln_head, rule_emb_head in H.
Qed.

Lemma convert_key_head (name : string) :
  convert_key name = "head.weight" -> name = "head.weight".
Proof.
  unfold convert_key, rule_prefix.
  match goal with |- context [String.eqb ?x _] => set (x0 := x) end.
  destruct (String.eqb_spec x0 "head.weight") as [E|_].
  - intros _. now apply rules_head.
  - discriminate.
Qed.

(** Every other key gets the prefix in front of a key that is not
    shorter. *)
Lemma convert_key_other (name : string) :
  name <> "head.weight" ->
  exists rest, convert_key name = "rwkv." ++ rest
               /\ String.length name <= String.length rest.
Proof.
  intros Hne. pose proof (rules_length name) as Hlen.
  unfold convert_key, rule_prefix.
  match goal with |- context [String.eqb ?x _] => set (x0 := x) in * end.
  destruct (String.eqb_spec x0 "head.weight") as [E|_].
  - apply rules_head in E. contradiction.
  - now exists x0.
Qed.

End LengthFacts.

(** X1.  Every key other than [head.weight] leaves the rewriter with the
    prefix [rwkv.] in front of a key that is at least as long as the key
    that went in: no rule ever shortens a key. *)
Theorem convert_key_prefixed_not_shorter (name : string) :
  name <> "head.weight" ->
  exists rest,
    convert_key name = "rwkv." ++ rest
    /\ String.length name <= String.length rest.
Proof. apply convert_key_other. Qed.

Lemma convert_key_prefixed_not_shorter_witness :
  exists rest,
    convert_key "blocks.7.ffn.time_mix_r" = "rwkv." ++ rest
    /\ String.length "blocks.7.ffn.time_mix_r" <= String.length rest.
Proof.
  apply (convert_key_prefixed_not_shorter "blocks.7.ffn.time_mix_r"). discriminate.
Defined.

(** X2.  [head.weight] is the only key that is renamed to [head.weight]. *)
Theorem convert_key_head_weight_only (name : string) :
  convert_key name = "head.weight" <-> name = "head.weight".
Proof.
  split; [apply convert_key_head|]. intros ->. reflexivity.
Qed.

(** X3.  [head.weight] is the only key the rewriter leaves as it is, and the
    only key on which rewriting twice is the same as rewriting once. *)
Theorem convert_key_fixed_point (name : string) :
  (convert_key name = name <-> name = "head.weight")
  /\ (convert_key (convert_key name) = convert_key name <-> name = "head.weight").
Proof.
  assert (Hfix : forall k, convert_key k = k -> k = "head.weight").
  { intros k E. destruct (String.eqb_spec k "head.weight") as [|Hne]; [assumption|].
    destruct (convert_key_other k Hne) as (rest & E' & Hlen).
    rewrite E in E'. apply (f_equal String.length) in E'.
    rewrite string_length_app in E'. simpl in E'. lia. }
  split; split.
  - apply Hfix.
  - intros ->. reflexivity.
  - intros E. apply Hfix in E. now apply convert_key_head.
  - intros ->. reflexivity.
Qed.

(** ** Keys that no rule mentions, and the keys of a block *)

Section ScanFacts.

Lemma contains_cons (sub : string) (c : ascii) (s : string) :
  PyStr.contains sub (String c s) = false ->
  PyStr.startswith (String c s) sub = false /\ PyStr.contains sub s = false.
Proof.
  cbn [PyStr.contains]. destruct (PyStr.startswith (String c s) sub); [discriminate|].
  auto.
Qed.

Lemma contains_head (sub s : string) :
  PyStr.contains sub s = false -> PyStr.startswith s sub = false.
Proof.
  destruct s as [|c s].
  - cbn [PyStr.contains]. now destruct (PyStr.startswith "" sub).
  - apply contains_cons.
Qed.

Lemma startswith_shorter (s p q : string) :
  PyStr.startswith s p = false -> PyStr.startswith s (p ++ q) = false.
Proof.
  revert s. induction p as [|c p IH]; intros s; [discriminate|].
  cbn [append PyStr.startswith]. destruct s as [|d s]; [reflexivity|].
  destruct (Ascii.eqb c d); [apply IH|reflexivity].
Qed.

(** A text without [blocks.] has nothing for the two block rules. *)
Lemma sub_block_plain (seg repl s : string) :
  PyStr.contains "blocks." s = false -> PyStr.sub_block_from seg repl 0 s = s.
Proof.
  induction s as [|c s IH]; [reflexivity|].
  intros H. apply contains_cons in H as [Hh Ht].
  cbn [PyStr.sub_block_from]. unfold PyStr.match_block. rewrite Hh.
  now rewrite IH.
Qed.

(** A text without an occurrence of [old] is left as it is. *)
Lemma replace_plain (old new s : string) :
  PyStr.contains old s = false -> PyStr.replace_from old new 0 s = s.
Proof.
  induction s as [|c s IH]; [reflexivity|].
  intros H. apply contains_cons in H as [Hh Ht].
  rewrite replace_from_step, Hh. now rewrite IH.
Qed.

Lemma contains_longer (p q s : string) :
  PyStr.contains p s = false -> PyStr.contains (p ++ q) s = false.
Proof.
  induction s as [|c s IH]; intros H.
  - cbn [PyStr.contains] in *.
    destruct (PyStr.startswith "" p) eqn:E; [discriminate|].
    now rewrite (startswith_shorter _ _ q E).
  - apply contains_cons in H as [Hh Ht]. cbn [PyStr.contains].
    rewrite (startswith_shorter _ _ q Hh). now apply IH.
Qed.

(** The scan for [.t...] steps over a text without a dot. *)
Lemma replace_from_dotfree (old new a r : string) :
  PyStr.contains "." a = false ->
  PyStr.replace_from (String "." old) new 0 (a ++ r)
  = a ++ PyStr.replace_from (String "." old) new 0 r.
Proof.
  induction a as [|c a IH]; [reflexivity|].
  intros H. apply contains_cons in H as [Hh Ht].
  change (String c a ++ r) with (String c (a ++ r)).
  rewrite replace_from_step.
  cbn [PyStr.startswith] in Hh |- *.
  destruct (Ascii.eqb "." c); [discriminate|].
  cbn [append]. now rewrite IH.
Qed.

Lemma replace_from_dot_other (old new : string) (c : ascii) (s : string) :
  Ascii.eqb "t" c = false ->
  PyStr.replace_from (String "." (String "t" old)) new 0 (String "." (String c s))
  = String "." (PyStr.replace_from (String "." (String "t" old)) new 0 (String c s)).
Proof.
  intros H. rewrite replace_from_step. cbn [PyStr.startswith].
  change (Ascii.eqb "." ".") with true. cbv iota. now rewrite H.
Qed.

Lemma digits_dotfree (ds : string) :
  PyStr.all_digits ds = true -> PyStr.contains "." ds = false.
Proof.
  induction ds as [|d ds IH]; [reflexivity|].
  simpl PyStr.all_digits. intros H. apply andb_true_iff in H as [Hd Hds].
  destruct (digit_char d Hd) as (_ & Hdot & _).
  cbn [PyStr.contains PyStr.startswith]. rewrite Hdot. now apply IH.
Qed.

(** The scan for a time-mix suffix steps over [blocks.<digits>]. *)
Lemma replace_block_prefix (old new ds rest : string) :
  PyStr.all_digits ds = true -> ds <> "" ->
  PyStr.replace_from (String "." (String "t" old)) new 0 ("blocks." ++ ds ++ rest)
  = "blocks." ++ ds ++ PyStr.replace_from (String "." (String "t" old)) new 0 rest.
Proof.
  intros Hds Hne.
  change ("blocks." ++ ds ++ rest) with ("blocks" ++ String "." (ds ++ rest)).
  rewrite replace_from_dotfree by reflexivity.
  destruct ds as [|d ds'] eqn:Eds; [congruence|]. rewrite <- Eds in *.
  assert (Ht : Ascii.eqb "t" d = false).
  { rewrite Eds in Hds. simpl in Hds. apply andb_true_iff in Hds as [Hd _].
    now destruct (digit_char d Hd) as (_ & _ & Ht). }
  replace (String "." (ds ++ rest)) with (String "." (String d (ds' ++ rest)))
    by (now rewrite Eds).
  rewrite replace_from_dot_other by exact Ht.
  replace (String d (ds' ++ rest)) with (ds ++ rest) by (now rewrite Eds).
  rewrite replace_from_dotfree by now apply digits_dotfree.
  reflexivity.
Qed.

(** ... and over a segment [.<word>] whose word has no dot and does not
    begin with [t]. *)
Lemma replace_segment_prefix (old new : string) (c : ascii) (w rest : string) :
  Ascii.eqb "t" c = false -> PyStr.contains "." (String c w) = false ->
  PyStr.replace_from (String "." (String "t" old)) new 0
    (String "." (String c w ++ rest))
  = String "." (String c w
                  ++ PyStr.replace_from (String "." (String "t" old)) new 0 rest).
Proof.
  intros Ht Hw.
  change (String c w ++ rest) with (String c (w ++ rest)) at 1.
  rewrite replace_from_dot_other by exact Ht.
  change (String c (w ++ rest)) with (String c w ++ rest).
  now rewrite replace_from_dotfree.
Qed.

(** A suffix [.<word>] whose word has no dot can only start at the last
    dot of a text or behind it. *)
Lemma endswith_after_dot (a t w : string) :
  PyStr.contains "." w = false ->
  PyStr.endswith (a ++ String "." t) (String "." w)
  = PyStr.endswith (String "." t) (String "." w).
Proof.
  intros Hw. induction a as [|x a IH]; [reflexivity|].
  change (String x a ++ String "." t) with (String x (a ++ String "." t)).
  cbn [PyStr.endswith]. rewrite IH.
  destruct (String.eqb_spec (String x (a ++ String "." t)) (String "." w)) as [E|_];
    [|reflexivity].
  exfalso. injection E as _ E. subst w.
  pose proof (contains_intro "." a t) as Hc.
  change ("." ++ t) with (String "." t) in Hc. congruence.
Qed.

End ScanFacts.

Section BlockFacts.

(** A time-mix rule keeps the dot a text begins with. *)
Lemma rule_time_mix_dot (old new t : string) :
  exists t',
    rule_time_mix (String "." old) (String "." new) (String "." t) = String "." t'.
Proof.
  unfold rule_time_mix, PyStr.replace.
  destruct (PyStr.endswith (String "." t) (String "." old)); [|eauto].
  rewrite replace_from_step.
  destruct (PyStr.startswith (String "." t) (String "." old)); eexists; reflexivity.
Qed.

Lemma rule_time_mix_behind (P old new t : string) :
  stepped_over P -> PyStr.contains "." (String "t" old) = false ->
  rule_time_mix (String "." (String "t" old)) new (P ++ String "." t)
  = P ++ rule_time_mix (String "." (String "t" old)) new (String "." t).
Proof.
  intros HP Hold. unfold rule_time_mix, PyStr.replace.
  rewrite (endswith_after_dot P t _ Hold).
  destruct (PyStr.endswith (String "." t) _); [apply HP|reflexivity].
Qed.

Lemma rule_time_mix_all_behind (P t : string) :
  stepped_over P ->
  rule_time_mix_all (P ++ String "." t) = P ++ rule_time_mix_all (String "." t).
Proof.
  intros HP. unfold rule_time_mix_all.
  rewrite (rule_time_mix_behind P "ime_mix_k" _ t HP eq_refl).
  destruct (rule_time_mix_dot "time_mix_k" "time_mix_key" t) as [t1 E1].
  rewrite E1.
  rewrite (rule_time_mix_behind P "ime_mix_v" _ t1 HP eq_refl).
  destruct (rule_time_mix_dot "time_mix_v" "time_mix_value" t1) as [t2 E2].
  rewrite E2.
  now rewrite (rule_time_mix_behind P "ime_mix_r" _ t2 HP eq_refl).
Qed.

Lemma stepped_over_block (ds : string) :
  PyStr.all_digits ds = true -> ds <> "" -> stepped_over ("blocks." ++ ds).
Proof.
  intros Hds Hne old new rest.
  replace (("blocks." ++ ds) ++ rest) with ("blocks." ++ ds ++ rest)
    by (now rewrite <- string_app_assoc).
  rewrite replace_block_prefix by assumption.
  now rewrite <- string_app_assoc.
Qed.

Lemma stepped_over_segment (ds : string) (c : ascii) (w : string) :
  PyStr.all_digits ds = true -> ds <> "" ->
  Ascii.eqb "t" c = false -> PyStr.contains "." (String c w) = false ->
  stepped_over ("blocks." ++ ds ++ String "." (String c w)).
Proof.
  intros Hds Hne Hc Hw old new rest.
  replace (("blocks." ++ ds ++ String "." (String c w)) ++ rest)
    with ("blocks." ++ ds ++ String "." (String c w ++ rest))
    by (now rewrite !string_app_assoc).
  rewrite replace_block_prefix by assumption.
  rewrite replace_segment_prefix by assumption.
  now rewrite !string_app_assoc.
Qed.

(** The test for a match at the head of [blocks.<rest>]. *)
Lemma match_block_head (seg X : string) :
  PyStr.match_block seg ("blocks." ++ X)
  = match PyStr.digit_run X with
    | EmptyString => None
    | String _ _ =>
        if PyStr.startswith (PyStr.drop (String.length (PyStr.digit_run X)) X)
             ("." ++ seg)
        then Some (PyStr.digit_run X) else None
    end.
Proof. reflexivity. Qed.

Lemma match_block_digits (seg ds : string) (c : ascii) (r : string) :
  PyStr.all_digits ds = true -> ds <> "" -> PyStr.is_digit c = false ->
  PyStr.match_block seg ("blocks." ++ ds ++ String c r)
  = if PyStr.startswith (String c r) ("." ++ seg) then Some ds else None.
Proof.
  intros Hds Hne Hc. rewrite match_block_head, (digit_run_app ds c r Hds Hc).
  rewrite drop_app. destruct ds; [congruence|reflexivity].
Qed.

Lemma sub_block_from_step (seg repl : string) (c : ascii) (s : string) :
  PyStr.sub_block_from seg repl 0 (String c s)
  = match PyStr.match_block seg (String c s) with
    | Some ds =>
        "blocks." ++ ds ++ "." ++ repl
          ++ PyStr.sub_block_from seg repl (7 + String.length ds + String.length seg) s
    | None => String c (PyStr.sub_block_from seg repl 0 s)
    end.
Proof. reflexivity. Qed.

(** The pattern of a block rule found at the head of a key. *)
Lemma sub_block_match (seg repl ds tail : string) :
  PyStr.all_digits ds = true -> ds <> "" ->
  PyStr.sub_block seg repl ("blocks." ++ ds ++ "." ++ seg ++ tail)
  = "blocks." ++ ds ++ "." ++ repl ++ PyStr.sub_block seg repl tail.
Proof.
  intros Hds Hne. unfold PyStr.sub_block.
  change ("blocks." ++ ds ++ "." ++ seg ++ tail)
    with (String "b" ("locks." ++ ds ++ "." ++ seg ++ tail)).
  rewrite sub_block_from_step.
  change (String "b" ("locks." ++ ds ++ "." ++ seg ++ tail))
    with ("blocks." ++ ds ++ String "." (seg ++ tail)).
  rewrite (match_block_digits seg ds "." (seg ++ tail) Hds Hne eq_refl).
  change (String "." (seg ++ tail)) with (("." ++ seg) ++ tail).
  rewrite startswith_app.
  replace (7 + String.length ds + String.length seg)
    with (String.length ("locks." ++ ds ++ "." ++ seg))
    by (rewrite !string_length_app; simpl; lia).
  replace ("locks." ++ ds ++ "." ++ seg ++ tail)
    with (("locks." ++ ds ++ "." ++ seg) ++ tail)
    by (rewrite !string_app_assoc; reflexivity).
  rewrite sub_block_from_skip. reflexivity.
Qed.

Lemma sub_block_from_not_b (seg repl : string) (c : ascii) (s : string) :
  Ascii.eqb "b" c = false ->
  PyStr.sub_block_from seg repl 0 (String c s)
  = String c (PyStr.sub_block_from seg repl 0 s).
Proof.
  intros H. rewrite sub_block_from_step. unfold PyStr.match_block.
  cbn [PyStr.startswith]. now rewrite H.
Qed.

(** A block key whose segment is not the one of the rule. *)
Lemma sub_block_miss (seg repl ds r : string) :
  PyStr.all_digits ds = true -> ds <> "" ->
  PyStr.startswith (String "." r) ("." ++ seg) = false ->
  PyStr.contains "blocks." r = false ->
  PyStr.sub_block seg repl ("blocks." ++ ds ++ String "." r)
  = "blocks." ++ ds ++ String "." r.
Proof.
  intros Hds Hne Hseg Hr. unfold PyStr.sub_block.
  change ("blocks." ++ ds ++ String "." r)
    with (String "b" ("locks." ++ ds ++ String "." r)) at 1.
  rewrite sub_block_from_step.
  change (String "b" ("locks." ++ ds ++ String "." r))
    with ("blocks." ++ ds ++ String "." r).
  rewrite (match_block_digits seg ds "." r Hds Hne eq_refl), Hseg.
  change ("locks." ++ ds ++ String "." r)
    with (String "l" (String "o" (String "c" (String "k" (String "s"
            (String "." (ds ++ String "." r))))))).
  rewrite !sub_block_from_not_b by reflexivity.
  rewrite (sub_block_digits _ _ _ _ Hds).
  rewrite sub_block_from_not_b by reflexivity.
  now rewrite (sub_block_plain seg repl r Hr).
Qed.

(** The rule for [blocks.0.ln0] needs the index 0 and the segment
    [ln0...]. *)
Lemma pre_ln_miss (ds r : string) :
  PyStr.all_digits ds = true -> ds <> "" ->
  (ds = "0" -> PyStr.startswith r "ln0" = false) ->
  rule_pre_ln ("blocks." ++ ds ++ String "." r) = "blocks." ++ ds ++ String "." r.
Proof.
  intros Hds Hne Hr. unfold rule_pre_ln.
  change (PyStr.startswith ("blocks." ++ ds ++ String "." r) "blocks.0.ln0")
    with (PyStr.startswith (ds ++ String "." r) "0.ln0").
  assert (E : PyStr.startswith (ds ++ String "." r) "0.ln0" = false);
    [|now rewrite E].
  destruct ds as [|d ds]; [congruence|].
  destruct (Ascii.eqb_spec "0" d) as [<-|Hd].
  - destruct ds as [|d' ds].
    + change (PyStr.startswith r "ln0" = false). now apply Hr.
    + simpl in Hds. apply andb_true_iff in Hds as [Hd' _].
      destruct (digit_char d' Hd') as (_ & Hdot & _).
      change ((if Ascii.eqb "." d'
               then PyStr.startswith (ds ++ String "." r) "ln0" else false) = false).
      now rewrite Hdot.
  - apply Ascii.eqb_neq in Hd.
    change ((if Ascii.eqb "0" d
             then PyStr.startswith (ds ++ String "." r) ".ln0" else false) = false).
    now rewrite Hd.
Qed.

Lemma contains_behind (w leaf : string) :
  PyStr.contains "b" w = false ->
  PyStr.contains "blocks." leaf = false ->
  PyStr.contains "blocks." (w ++ leaf) = false.
Proof.
  intros Hw Hleaf. induction w as [|c w IH]; [exact Hleaf|].
  apply contains_cons in Hw as [Hh Ht].
  change (String c w ++ leaf) with (String c (w ++ leaf)).
  cbn [PyStr.contains PyStr.startswith] in Hh |- *.
  destruct (Ascii.eqb "b" c); [discriminate|]. now apply IH.
Qed.

(** A key [blocks.<digits>.<seg>.<leaf>] of a segment that has a rule. *)
Lemma convert_key_att (ds leaf : string) :
  PyStr.all_digits ds = true -> ds <> "" ->
  PyStr.contains "blocks." leaf = false ->
  convert_key ("blocks." ++ ds ++ ".att." ++ leaf)
  = "rwkv.blocks." ++ ds ++ ".attention" ++ rule_time_mix_all ("." ++ leaf).
Proof.
  intros Hds Hne Hleaf.
  change (convert_key ("blocks." ++ ds ++ ".att." ++ leaf))
    with (rule_prefix (rule_time_mix_all (rule_ffn (rule_att (rule_pre_ln
            (rule_emb ("blocks." ++ ds ++ ".att." ++ leaf))))))).
  change (rule_emb ("blocks." ++ ds ++ ".att." ++ leaf))
    with ("blocks." ++ ds ++ String "." ("att." ++ leaf)).
  rewrite pre_ln_miss by (assumption || reflexivity).
  unfold rule_att.
  change ("blocks." ++ ds ++ String "." ("att." ++ leaf))
    with ("blocks." ++ ds ++ "." ++ "att" ++ String "." leaf).
  rewrite sub_block_match by assumption.
  unfold PyStr.sub_block at 1.
  rewrite (sub_block_plain "att" "attention" (String "." leaf)) by exact Hleaf.
  unfold rule_ffn.
  change ("blocks." ++ ds ++ "." ++ "attention" ++ String "." leaf)
    with ("blocks." ++ ds ++ String "." ("attention." ++ leaf)).
  rewrite sub_block_miss;
    [|assumption|assumption|reflexivity|now apply (contains_behind "attention.")].
  replace ("blocks." ++ ds ++ String "." ("attention." ++ leaf))
    with (("blocks." ++ ds ++ ".attention") ++ String "." leaf)
    by (now rewrite !string_app_assoc).
  rewrite rule_time_mix_all_behind
    by (apply (stepped_over_segment ds "a" "ttention"); auto).
  unfold rule_prefix.
  change (String.eqb (("blocks." ++ ds ++ ".attention") ++ _) "head.weight") with false.
  cbv iota. rewrite !string_app_assoc. reflexivity.
Qed.

Lemma convert_key_ffn (ds leaf : string) :
  PyStr.all_digits ds = true -> ds <> "" ->
  PyStr.contains "blocks." leaf = false ->
  convert_key ("blocks." ++ ds ++ ".ffn." ++ leaf)
  = "rwkv.blocks." ++ ds ++ ".feed_forward" ++ rule_time_mix_all ("." ++ leaf).
Proof.
  intros Hds Hne Hleaf.
  change (convert_key ("blocks." ++ ds ++ ".ffn." ++ leaf))
    with (rule_prefix (rule_time_mix_all (rule_ffn (rule_att (rule_pre_ln
            (rule_emb ("blocks." ++ ds ++ ".ffn." ++ leaf))))))).
  change (rule_emb ("blocks." ++ ds ++ ".ffn." ++ leaf))
    with ("blocks." ++ ds ++ String "." ("ffn." ++ leaf)).
  rewrite pre_ln_miss by (assumption || reflexivity).
  unfold rule_att.
  rewrite sub_block_miss;
    [|assumption|assumption|reflexivity|now apply (contains_behind "ffn.")].
  unfold rule_ffn.
  change ("blocks." ++ ds ++ String "." ("ffn." ++ leaf))
    with ("blocks." ++ ds ++ "." ++ "ffn" ++ String "." leaf).
  rewrite sub_block_match by assumption.
  unfold PyStr.sub_block at 1.
  rewrite (sub_block_plain "ffn" "feed_forward" (String "." leaf)) by exact Hleaf.
  replace ("blocks." ++ ds ++ "." ++ "feed_forward" ++ String "." leaf)
    with (("blocks." ++ ds ++ ".feed_forward") ++ String "." leaf)
    by (now rewrite !string_app_assoc).
  rewrite rule_time_mix_all_behind
    by (apply (stepped_over_segment ds "f" "eed_forward"); auto).
  unfold rule_prefix.
  change (String.eqb (("blocks." ++ ds ++ ".feed_forward") ++ _) "head.weight") with false.
  cbv iota. rewrite !string_app_assoc. reflexivity.
Qed.

(** A key [blocks.<digits>.<rest>] that the rules for [ln0], [att] and
    [ffn] do not apply to. *)
Lemma convert_key_other_segment (ds r : string) :
  PyStr.all_digits ds = true -> ds <> "" ->
  PyStr.contains "blocks." r = false ->
  PyStr.startswith r "att" = false ->
  PyStr.startswith r "ffn" = false ->
  (ds = "0" -> PyStr.startswith r "ln0" = false) ->
  convert_key ("blocks." ++ ds ++ "." ++ r)
  = "rwkv.blocks." ++ ds ++ rule_time_mix_all ("." ++ r).
Proof.
  intros Hds Hne Hr Hatt Hffn Hln.
  change (convert_key ("blocks." ++ ds ++ "." ++ r))
    with (rule_prefix (rule_time_mix_all (rule_ffn (rule_att (rule_pre_ln
            (rule_emb ("blocks." ++ ds ++ "." ++ r))))))).
  change (rule_emb ("blocks." ++ ds ++ "." ++ r))
    with ("blocks." ++ ds ++ String "." r).
  rewrite pre_ln_miss by assumption.
  unfold rule_att. rewrite sub_block_miss by assumption.
  unfold rule_ffn. rewrite sub_block_miss by assumption.
  replace ("blocks." ++ ds ++ String "." r) with (("blocks." ++ ds) ++ String "." r)
    by (now rewrite !string_app_assoc).
  rewrite rule_time_mix_all_behind by (now apply stepped_over_block).
  unfold rule_prefix.
  change (String.eqb (("blocks." ++ ds) ++ _) "head.weight") with false.
  cbv iota. rewrite !string_app_assoc. reflexivity.
Qed.

End BlockFacts.

Section KeyClasses.

Lemma convert_key_rules (name : string) :
  convert_key name
  = rule_prefix (rule_time_mix_all (rule_ffn (rule_att (rule_pre_ln (rule_emb name))))).
Proof. reflexivity. Qed.

Lemma startswith_contains (s p : string) :
  PyStr.startswith s p = true -> PyStr.contains p s = true.
Proof. intros H. destruct s; cbn [PyStr.contains]; now rewrite H. Qed.

(** A key that none of the seven rules applies to. *)
Lemma rules_untouched (name : string) :
  PyStr.startswith name "emb." = false ->
  PyStr.contains "blocks." name = false ->
  PyStr.endswith name ".time_mix_k" = false ->
  PyStr.endswith name ".time_mix_v" = false ->
  PyStr.endswith name ".time_mix_r" = false ->
  rule_time_mix_all (rule_ffn (rule_att (rule_pre_ln (rule_emb name)))) = name.
Proof.
  intros Hemb Hblk Hk Hv Hr.
  unfold rule_emb. rewrite Hemb.
  unfold rule_pre_ln.
  pose proof (startswith_shorter name "blocks." "0.ln0" (contains_head _ _ Hblk)) as E.
  change ("blocks." ++ "0.ln0") with "blocks.0.ln0" in E. rewrite E.
  unfold rule_att, rule_ffn, PyStr.sub_block.
  rewrite (sub_block_plain "att" "attention" name Hblk).
  rewrite (sub_block_plain "ffn" "feed_forward" name Hblk).
  unfold rule_time_mix_all, rule_time_mix. now rewrite Hk, Hv, Hr.
Qed.

(** The index 0 is the only one whose numeral is [0]. *)
Lemma block_index_zero (n : nat) : block_index n = "0" <-> n = 0.
Proof.
  split; [|intros ->; reflexivity].
  unfold block_index. intros H. rewrite <- (Unsigned.of_to n).
  destruct (Nat.to_uint n) as [|d|d|d|d|d|d|d|d|d|d]; try discriminate H;
    [reflexivity|].
  destruct d; try discriminate H. reflexivity.
Qed.

Lemma replace_ln0_head (leaf : string) :
  PyStr.contains "blocks." leaf = false ->
  rule_pre_ln ("blocks.0.ln0." ++ leaf) = "blocks.0.pre_ln." ++ leaf.
Proof.
  intros Hleaf. unfold rule_pre_ln.
  replace ("blocks.0.ln0." ++ leaf) with ("blocks.0.ln0" ++ String "." leaf)
    by reflexivity.
  rewrite startswith_app. unfold PyStr.replace.
  change ("blocks.0.ln0" ++ String "." leaf)
    with (String "b" ("locks.0.ln0" ++ String "." leaf)).
  rewrite replace_from_step.
  change (String "b" ("locks.0.ln0" ++ String "." leaf))
    with ("blocks.0.ln0" ++ String "." leaf).
  rewrite startswith_app.
  change (String.length "blocks.0.ln0" - 1) with (String.length "locks.0.ln0").
  rewrite replace_from_skip.
  rewrite replace_plain; [reflexivity|].
  apply (contains_longer "blocks." "0.ln0").
  cbn [PyStr.contains PyStr.startswith].
  change (Ascii.eqb "b" ".") with false. cbv iota. exact Hleaf.
Qed.

Lemma convert_key_ln0_zero (leaf : string) :
  PyStr.contains "blocks." leaf = false ->
  convert_key ("blocks.0.ln0." ++ leaf)
  = "rwkv.blocks.0.pre_ln" ++ rule_time_mix_all ("." ++ leaf).
Proof.
  intros Hleaf. rewrite convert_key_rules.
  change (rule_emb ("blocks.0.ln0." ++ leaf)) with ("blocks.0.ln0." ++ leaf).
  rewrite replace_ln0_head by exact Hleaf.
  change ("blocks.0.pre_ln." ++ leaf)
    with ("blocks." ++ "0" ++ String "." ("pre_ln." ++ leaf)).
  unfold rule_att.
  rewrite sub_block_miss;
    [|reflexivity|discriminate|reflexivity|now apply (contains_behind "pre_ln.")].
  unfold rule_ffn.
  rewrite sub_block_miss;
    [|reflexivity|discriminate|reflexivity|now apply (contains_behind "pre_ln.")].
  change ("blocks." ++ "0" ++ String "." ("pre_ln." ++ leaf))
    with (("blocks." ++ "0" ++ String "." "pre_ln") ++ String "." leaf).
  rewrite rule_time_mix_all_behind
    by (apply (stepped_over_segment "0" "p" "re_ln"); auto; discriminate).
  reflexivity.
Qed.

Lemma convert_key_emb_plain (rest : string) :
  PyStr.contains "emb." rest = false ->
  PyStr.contains "blocks." rest = false ->
  convert_key ("emb." ++ rest) = "rwkv.embeddings" ++ rule_time_mix_all ("." ++ rest).
Proof.
  intros Hemb Hblk. rewrite convert_key_rules, emb_head.
  rewrite (replace_plain _ _ _ Hemb), pre_ln_skips_embeddings.
  unfold rule_att, rule_ffn. rewrite !sub_block_skips_embeddings.
  unfold PyStr.sub_block.
  rewrite (sub_block_plain "att" "attention" rest Hblk).
  rewrite (sub_block_plain "ffn" "feed_forward" rest Hblk).
  change ("embeddings." ++ rest) with ("embeddings" ++ String "." rest).
  rewrite rule_time_mix_all_behind.
  - reflexivity.
  - intros old new r. now apply replace_from_dotfree.
Qed.

End KeyClasses.

(** X4.  A key that does not begin with [emb.], holds no [blocks.] and does
    not end in one of the three time-mix suffixes is left as it is by the
    seven renaming rules: it only gets the prefix [rwkv.], unless it is
    [head.weight]. *)
Theorem convert_key_untouched (name : string) :
  PyStr.startswith name "emb." = false ->
  PyStr.contains "blocks." name = false ->
  PyStr.endswith name ".time_mix_k" = false ->
  PyStr.endswith name ".time_mix_v" = false ->
  PyStr.endswith name ".time_mix_r" = false ->
  convert_key name
  = if String.eqb name "head.weight" then "head.weight" else "rwkv." ++ name.
Proof.
  intros Hemb Hblk Hk Hv Hr.
  rewrite convert_key_rules, rules_untouched by assumption.
  unfold rule_prefix. now destruct (String.eqb_spec name "head.weight") as [->|].
Qed.

Lemma convert_key_untouched_witness :
  convert_key "ln_out.weight" = "rwkv.ln_out.weight".
Proof. apply (convert_key_untouched "ln_out.weight"); reflexivity. Defined.

(** X5.  In a key [emb.<rest>] whose rest holds neither [emb.] nor
    [blocks.], the head becomes [rwkv.embeddings] and the rest is what the
    three time-mix rules make of it. *)
Theorem convert_key_embeddings (rest : string) :
  PyStr.contains "emb." rest = false ->
  PyStr.contains "blocks." rest = false ->
  convert_key ("emb." ++ rest) = "rwkv.embeddings" ++ rule_time_mix_all ("." ++ rest).
Proof. apply convert_key_emb_plain. Qed.

Lemma convert_key_embeddings_witness :
  convert_key "emb.weight" = "rwkv.embeddings.weight".
Proof. apply (convert_key_embeddings "weight"); reflexivity. Defined.

(** X6.  For every block index [n] and every leaf without [blocks.], the
    key [blocks.n.att.<leaf>] is renamed to [rwkv.blocks.n.attention] and
    the key [blocks.n.ffn.<leaf>] to [rwkv.blocks.n.feed_forward], each
    followed by what the three time-mix rules make of [.<leaf>]; the index
    stays as it is. *)
Theorem convert_key_block_segment (n : nat) (leaf : string) :
  PyStr.contains "blocks." leaf = false ->
  convert_key ("blocks." ++ block_index n ++ ".att." ++ leaf)
  = "rwkv.blocks." ++ block_index n ++ ".attention" ++ rule_time_mix_all ("." ++ leaf)
  /\ convert_key ("blocks." ++ block_index n ++ ".ffn." ++ leaf)
     = "rwkv.blocks." ++ block_index n ++ ".feed_forward"
         ++ rule_time_mix_all ("." ++ leaf).
Proof.
  intros Hleaf. destruct (block_index_digits n) as [Hds Hne].
  split; [now apply convert_key_att|now apply convert_key_ffn].
Qed.

Lemma convert_key_block_segment_witness :
  convert_key "blocks.11.att.output.weight" = "rwkv.blocks.11.attention.output.weight"
  /\ convert_key "blocks.11.ffn.output.weight"
     = "rwkv.blocks.11.feed_forward.output.weight".
Proof. exact (convert_key_block_segment 11 "output.weight" eq_refl). Defined.

(** X7.  The time-mix keys of every block: for every block index [n], the
    keys [time_mix_k], [time_mix_v] and [time_mix_r] of the segments [att]
    and [ffn] get the names [time_mix_key], [time_mix_value] and
    [time_mix_receptance] under [attention] and [feed_forward]. *)
Theorem convert_key_time_mix_table (n : nat) :
  convert_key ("blocks." ++ block_index n ++ ".att.time_mix_k")
  = "rwkv.blocks." ++ block_index n ++ ".attention.time_mix_key"
  /\ convert_key ("blocks." ++ block_index n ++ ".att.time_mix_v")
     = "rwkv.blocks." ++ block_index n ++ ".attention.time_mix_value"
  /\ convert_key ("blocks." ++ block_index n ++ ".att.time_mix_r")
     = "rwkv.blocks." ++ block_index n ++ ".attention.time_mix_receptance"
  /\ convert_key ("blocks." ++ block_index n ++ ".ffn.time_mix_k")
     = "rwkv.blocks." ++ block_index n ++ ".feed_forward.time_mix_key"
  /\ convert_key ("blocks." ++ block_index n ++ ".ffn.time_mix_v")
     = "rwkv.blocks." ++ block_index n ++ ".feed_forward.time_mix_value"
  /\ convert_key ("blocks." ++ block_index n ++ ".ffn.time_mix_r")
     = "rwkv.blocks." ++ block_index n ++ ".feed_forward.time_mix_receptance".
Proof.
  destruct (block_index_digits n) as [Hds Hne].
  pose proof (fun leaf => convert_key_att (block_index n) leaf Hds Hne) as Hatt.
  pose proof (fun leaf => convert_key_ffn (block_index n) leaf Hds Hne) as Hffn.
  split; [exact (Hatt "time_mix_k" eq_refl)|].
  split; [exact (Hatt "time_mix_v" eq_refl)|].
  split; [exact (Hatt "time_mix_r" eq_refl)|].
  split; [exact (Hffn "time_mix_k" eq_refl)|].
  split; [exact (Hffn "time_mix_v" eq_refl)|].
  exact (Hffn "time_mix_r" eq_refl).
Qed.

(** X8.  The segment [ln0] is renamed to [pre_ln] in block 0 and in no
    other block: for every block index [n] and every leaf without
    [blocks.], the key [blocks.n.ln0.<leaf>] becomes [rwkv.blocks.n.pre_ln]
    when [n] is 0 and [rwkv.blocks.n.ln0] otherwise, followed by what the
    time-mix rules make of [.<leaf>]. *)
Theorem convert_key_ln0_only_in_block_zero (n : nat) (leaf : string) :
  PyStr.contains "blocks." leaf = false ->
  convert_key ("blocks." ++ block_index n ++ ".ln0." ++ leaf)
  = "rwkv.blocks." ++ block_index n ++ (if Nat.eqb n 0 then ".pre_ln" else ".ln0")
      ++ rule_time_mix_all ("." ++ leaf).
Proof.
  intros Hleaf. destruct (Nat.eqb_spec n 0) as [->|Hn].
  - now apply convert_key_ln0_zero.
  - destruct (block_index_digits n) as [Hds Hne].
    change ("blocks." ++ block_index n ++ ".ln0." ++ leaf)
      with ("blocks." ++ block_index n ++ "." ++ "ln0." ++ leaf).
    rewrite convert_key_other_segment;
      [|assumption|assumption|now apply (contains_behind "ln0.")
       |reflexivity|reflexivity|].
    + change ("." ++ "ln0." ++ leaf) with ((".ln0") ++ String "." leaf).
      rewrite rule_time_mix_all_behind; [reflexivity|].
      intros old new r.
      change ((".ln0") ++ r) with (String "." (String "l" ("n0" ++ r))).
      rewrite replace_from_dot_other by reflexivity.
      change (String "l" ("n0" ++ r)) with ("ln0" ++ r).
      now rewrite replace_from_dotfree.
    + intros E. apply block_index_zero in E. contradiction.
Qed.

Lemma convert_key_ln0_only_in_block_zero_witness :
  convert_key "blocks.5.ln0.weight" = "rwkv.blocks.5.ln0.weight".
Proof. apply (convert_key_ln0_only_in_block_zero 5 "weight"). reflexivity. Defined.

(** X9.  A key [blocks.n.<rest>] whose rest holds no [blocks.] and does not
    begin with [att], with [ffn] or, in block 0, with [ln0], keeps its
    segment: it gets the prefix, and the rest is what the time-mix rules
    make of it. *)
Theorem convert_key_other_block_key (n : nat) (rest : string) :
  PyStr.contains "blocks." rest = false ->
  PyStr.startswith rest "att" = false ->
  PyStr.startswith rest "ffn" = false ->
  (n = 0 -> PyStr.startswith rest "ln0" = false) ->
  convert_key ("blocks." ++ block_index n ++ "." ++ rest)
  = "rwkv.blocks." ++ block_index n ++ rule_time_mix_all ("." ++ rest).
Proof.
  intros Hr Hatt Hffn Hln. destruct (block_index_digits n) as [Hds Hne].
  apply convert_key_other_segment; try assumption.
  intros E. now apply Hln, block_index_zero.
Qed.

Lemma convert_key_other_block_key_witness :
  convert_key "blocks.0.ln1.weight" = "rwkv.blocks.0.ln1.weight".
Proof.
  apply (convert_key_other_block_key 0 "ln1.weight"); reflexivity.
Defined.

(** ** The time-mix rules on their own *)

Section TimeMixFacts.

(** An occurrence of a time-mix suffix that begins in front of the suffix
    a text ends in begins a full [.time_mix_] of the text in front. *)
Lemma time_mix_anchored (x : ascii) (s : string) :
  forall r,
  PyStr.startswith (s ++ ".time_mix_" ++ String x r) (".time_mix_" ++ String x "") = true ->
  s = "" \/ PyStr.startswith s ".time_mix_" = true.
Proof.
  intros r H. destruct s as [|c s]; [now left|right].
  cbn [append PyStr.startswith] in H |- *.
  repeat
    (match type of H with
     | (if Ascii.eqb ?a ?b then _ else _) = true =>
         destruct (Ascii.eqb a b); [|discriminate H]
     end;
     match goal with
     | |- true = true => reflexivity
     | _ => idtac
     end;
     match type of H with
     | context [match ?t ++ _ with _ => _ end] =>
         destruct t as [|? ?]; [cbn in H; discriminate H|];
         cbn [append PyStr.startswith] in H |- *
     | _ => idtac
     end).
Qed.

Lemma startswith_prefix (s p q : string) :
  PyStr.startswith s (p ++ q) = true -> PyStr.startswith s p = true.
Proof.
  destruct (PyStr.startswith s p) eqn:E; [reflexivity|].
  now rewrite (startswith_shorter s p q E).
Qed.

Lemma endswith_inv (s suf : string) :
  PyStr.endswith s suf = true -> exists a, s = a ++ suf.
Proof.
  induction s as [|c s IH]; cbn [PyStr.endswith].
  - destruct (String.eqb_spec "" suf) as [<-|]; [|discriminate]. now exists "".
  - destruct (String.eqb_spec (String c s) suf) as [<-|].
    + now exists "".
    + intros H. destruct (IH H) as [a ->]. now exists (String c a).
Qed.

(** A text without [.time_mix_] does not end in a time-mix suffix. *)
Lemma no_time_mix_no_suffix (x : ascii) (a : string) :
  PyStr.contains ".time_mix_" a = false ->
  PyStr.endswith a (".time_mix_" ++ String x "") = false.
Proof.
  intros H. destruct (PyStr.endswith a _) eqn:E; [|reflexivity].
  apply endswith_inv in E as [b ->].
  pose proof (contains_intro ".time_mix_" b (String x "")) as Hc.
  rewrite <- string_app_assoc in Hc.
  change (b ++ (".time_mix_" ++ String x "")) with (b ++ ".time_mix_" ++ String x "") in H.
  rewrite string_app_assoc in Hc. congruence.
Qed.

Lemma replace_from_hit (c : ascii) (old new r : string) :
  PyStr.replace_from (String c old) new 0 (String c old ++ r)
  = new ++ PyStr.replace_from (String c old) new 0 r.
Proof.
  change (String c old ++ r) with (String c (old ++ r)) at 1.
  rewrite replace_from_step.
  change (String c (old ++ r)) with (String c old ++ r).
  rewrite startswith_app.
  change (String.length (String c old) - 1) with (String.length old - 0).
  now rewrite Nat.sub_0_r, replace_from_skip.
Qed.

(** In a text that holds [.time_mix_] at its end only, the suffix is the
    one occurrence that is replaced. *)
Lemma replace_time_mix_suffix (x : ascii) (new a : string) :
  PyStr.contains ".time_mix_" a = false ->
  PyStr.replace_from (".time_mix_" ++ String x "") new 0 (a ++ ".time_mix_" ++ String x "")
  = a ++ new.
Proof.
  induction a as [|c a IH]; intros H.
  - change ("" ++ ".time_mix_" ++ String x "") with ((".time_mix_" ++ String x "") ++ "").
    change (".time_mix_" ++ String x "") with (String "." ("time_mix_" ++ String x "")).
    rewrite replace_from_hit. apply string_app_nil_r.
  - change (String c a ++ ".time_mix_" ++ String x "")
      with (String c (a ++ ".time_mix_" ++ String x "")).
    rewrite replace_from_step.
    destruct (PyStr.startswith (String c (a ++ ".time_mix_" ++ String x "")) _) eqn:E.
    + exfalso.
      destruct (time_mix_anchored x (String c a) "" E) as [E'|E']; [discriminate|].
      apply startswith_contains in E'. congruence.
    + apply contains_cons in H as [_ H]. now rewrite (IH H).
Qed.

Lemma rule_time_mix_hit (x : ascii) (new a : string) :
  PyStr.contains ".time_mix_" a = false ->
  rule_time_mix (".time_mix_" ++ String x "") new (a ++ ".time_mix_" ++ String x "")
  = a ++ new.
Proof.
  intros H. unfold rule_time_mix, PyStr.replace.
  rewrite endswith_app. now apply replace_time_mix_suffix.
Qed.

Lemma rule_time_mix_miss (suffix target a r : string) :
  String.length suffix <= String.length r ->
  PyStr.endswith r suffix = false ->
  rule_time_mix suffix target (a ++ r) = a ++ r.
Proof.
  intros Hlen Hr. unfold rule_time_mix. now rewrite endswith_long, Hr.
Qed.

End TimeMixFacts.

(** X10.  The three time-mix rules on a text that holds [.time_mix_]
    nowhere, or at its end only: the text is left as it is, and the
    suffixes [.time_mix_k], [.time_mix_v] and [.time_mix_r] become
    [.time_mix_key], [.time_mix_value] and [.time_mix_receptance], with
    the text in front of them as it was. *)
Theorem time_mix_rules_on_suffix (front : string) :
  PyStr.contains ".time_mix_" front = false ->
  rule_time_mix_all front = front
  /\ rule_time_mix_all (front ++ ".time_mix_k") = front ++ ".time_mix_key"
  /\ rule_time_mix_all (front ++ ".time_mix_v") = front ++ ".time_mix_value"
  /\ rule_time_mix_all (front ++ ".time_mix_r") = front ++ ".time_mix_receptance".
Proof.
  intros H.
  pose proof (no_time_mix_no_suffix "k" front H) as Nk.
  pose proof (no_time_mix_no_suffix "v" front H) as Nv.
  pose proof (no_time_mix_no_suffix "r" front H) as Nr.
  pose proof (rule_time_mix_hit "k" ".time_mix_key" front H) as Hk.
  pose proof (rule_time_mix_hit "v" ".time_mix_value" front H) as Hv.
  pose proof (rule_time_mix_hit "r" ".time_mix_receptance" front H) as Hr.
  cbn [append] in Nk, Nv, Nr, Hk, Hv, Hr.
  unfold rule_time_mix_all. split; [|split; [|split]].
  - unfold rule_time_mix. now rewrite Nk, Nv, Nr.
  - rewrite Hk.
    rewrite (rule_time_mix_miss ".time_mix_v") by (simpl; auto; lia).
    now rewrite (rule_time_mix_miss ".time_mix_r") by (simpl; auto; lia).
  - rewrite (rule_time_mix_miss ".time_mix_k") by (simpl; auto; lia).
    rewrite Hv.
    now rewrite (rule_time_mix_miss ".time_mix_r") by (simpl; auto; lia).
  - rewrite (rule_time_mix_miss ".time_mix_k") by (simpl; auto; lia).
    rewrite (rule_time_mix_miss ".time_mix_v") by (simpl; auto; lia).
    exact Hr.
Qed.

Lemma time_mix_rules_on_suffix_witness :
  rule_time_mix_all ".ffn" = ".ffn"
  /\ rule_time_mix_all ".ffn.time_mix_k" = ".ffn.time_mix_key"
  /\ rule_time_mix_all ".ffn.time_mix_v" = ".ffn.time_mix_value"
  /\ rule_time_mix_all ".ffn.time_mix_r" = ".ffn.time_mix_receptance".
Proof. exact (time_mix_rules_on_suffix ".ffn" eq_refl). Defined.

(** ** More on dictionaries *)

Section MoreDictFacts.
Context {V : Type}.
Implicit Types (d : PyDict.t V) (k : string) (v : V).

Lemma get_set_same k v d : PyDict.get k (PyDict.set k v d) = Some v.
Proof.
  induction d as [|[k0 v0] d IH]; simpl; [now rewrite String.eqb_refl|].
  destruct (String.eqb k0 k) eqn:E; simpl; now rewrite E.
Qed.

Lemma get_set_other k k' v d :
  k' <> k -> PyDict.get k' (PyDict.set k v d) = PyDict.get k' d.
Proof.
  intros Hne. induction d as [|[k0 v0] d IH]; simpl.
  - destruct (String.eqb_spec k k'); [congruence|reflexivity].
  - destruct (String.eqb_spec k0 k) as [->|]; simpl.
    + destruct (String.eqb_spec k k'); [congruence|reflexivity].
    + now rewrite IH.
Qed.

Lemma get_remove_other k k' d :
  k' <> k -> PyDict.get k' (PyDict.remove k d) = PyDict.get k' d.
Proof.
  intros Hne. induction d as [|[k0 v0] d IH]; simpl; [reflexivity|].
  destruct (String.eqb_spec k0 k) as [->|]; simpl.
  - destruct (String.eqb_spec k k'); [congruence|reflexivity].
  - now rewrite IH.
Qed.

Lemma get_none k d : ~ In k (PyDict.keys d) -> PyDict.get k d = None.
Proof.
  induction d as [|[k0 v0] d IH]; simpl; [reflexivity|].
  intros H. destruct (String.eqb_spec k0 k); [tauto|]. apply IH. tauto.
Qed.

Lemma keys_set k v d (x : string) :
  In x (PyDict.keys (PyDict.set k v d)) -> x = k \/ In x (PyDict.keys d).
Proof.
  induction d as [|[k0 v0] d IH]; simpl.
  - intros [<-|[]]. now left.
  - destruct (String.eqb k0 k); simpl; intros [<-|H]; auto.
    destruct (IH H); auto.
Qed.

Lemma NoDup_keys_set k v d :
  NoDup (PyDict.keys d) -> NoDup (PyDict.keys (PyDict.set k v d)).
Proof.
  induction d as [|[k0 v0] d IH]; simpl; intros Hnd.
  - repeat constructor. intros [].
  - inversion Hnd as [|? ? Hnotin Hnd']; subst.
    destruct (String.eqb_spec k0 k) as [->|Hne]; simpl; [exact Hnd|].
    constructor; [|now apply IH].
    intros H. apply keys_set in H as [E|H]; [congruence|contradiction].
Qed.

Lemma keys_remove k d (x : string) :
  NoDup (PyDict.keys d) -> In x (PyDict.keys (PyDict.remove k d)) ->
  In x (PyDict.keys d) /\ x <> k.
Proof.
  induction d as [|[k0 v0] d IH]; simpl; intros Hnd; [intros []|].
  inversion Hnd as [|? ? Hnotin Hnd']; subst.
  destruct (String.eqb_spec k0 k) as [->|Hne]; simpl.
  - intros H. split; [now right|]. intros ->. contradiction.
  - intros [<-|H]; [split; [now left|exact Hne]|].
    destruct (IH Hnd' H). split; [now right|assumption].
Qed.

Lemma NoDup_keys_remove k d :
  NoDup (PyDict.keys d) -> NoDup (PyDict.keys (PyDict.remove k d)).
Proof.
  induction d as [|[k0 v0] d IH]; simpl; intros Hnd; [constructor|].
  inversion Hnd as [|? ? Hnotin Hnd']; subst.
  destruct (String.eqb k0 k); simpl; [exact Hnd'|].
  constructor; [|now apply IH].
  intros H. apply (keys_remove k d k0 Hnd') in H as [H _]. contradiction.
Qed.

(** Storing under a name that is no key of the front part goes to the
    back part. *)
Lemma set_app_right k v d acc :
  ~ In k (PyDict.keys d) ->
  PyDict.set k v (d ++ acc)%list = (d ++ PyDict.set k v acc)%list.
Proof.
  induction d as [|[k0 v0] d IH]; simpl; [reflexivity|].
  intros H. destruct (String.eqb_spec k0 k) as [->|]; [tauto|].
  rewrite IH; [reflexivity|tauto].
Qed.

End MoreDictFacts.

(** ** More on the rewriter loop *)

Section MoreLoopFacts.
Context {tensor : Type}.
Variable rename : string -> string.
Implicit Types (d acc : PyDict.t tensor) (names : list string).

(** When no name is renamed to a name that is still waiting, the loop
    stores the items one by one behind the waiting ones. *)
Lemma rename_loop_store d acc :
  later_free rename (PyDict.keys d) = true ->
  rename_loop rename (PyDict.keys d) (d ++ acc)%list = Ok (fold_left (store_renamed rename) d acc).
Proof.
  revert acc. induction d as [|[k v] d IH]; intros acc Hlf; simpl.
  - reflexivity.
  - simpl in Hlf. apply andb_true_iff in Hlf as [Hk Hlf].
    apply negb_true_iff, in_list_not_In in Hk.
    unfold PyDict.pop. simpl. rewrite String.eqb_refl. simpl.
    rewrite set_app_right by exact Hk. now apply IH.
Qed.

Lemma rename_loop_rebuild d :
  later_free rename (PyDict.keys d) = true ->
  rename_loop rename (PyDict.keys d) d = Ok (rebuild rename d).
Proof.
  intros H. pose proof (rename_loop_store d [] H) as E.
  now rewrite app_nil_r in E.
Qed.

Lemma fold_store_keeps K d acc :
  (forall k, In k (PyDict.keys d) -> rename k <> K) ->
  PyDict.get K (fold_left (store_renamed rename) d acc) = PyDict.get K acc.
Proof.
  revert acc. induction d as [|[k v] d IH]; intros acc H; simpl; [reflexivity|].
  rewrite IH by (intros k' Hk'; apply H; now right).
  apply get_set_other. intros E. apply (H k); [now left|now symmetry].
Qed.

(** The last item renamed to a name is the one that stays. *)
Lemma rebuild_last_writer (pre post : PyDict.t tensor) name weight :
  (forall k, In k (PyDict.keys post) -> rename k <> rename name) ->
  PyDict.get (rename name) (rebuild rename (pre ++ (name, weight) :: post)%list)
  = Some weight.
Proof.
  intros H. unfold rebuild. rewrite fold_left_app. simpl.
  rewrite fold_store_keeps by exact H. apply get_set_same.
Qed.

(** The keys the loop leaves: keys it never visited, and new names. *)
Lemma rename_loop_keys names d out :
  NoDup (PyDict.keys d) ->
  rename_loop rename names d = Ok out ->
  NoDup (PyDict.keys out)
  /\ forall k, In k (PyDict.keys out) ->
       (In k (PyDict.keys d) /\ ~ In k names)
       \/ exists n, In n names /\ k = rename n.
Proof.
  revert d. induction names as [|name names IH]; intros d Hnd; simpl.
  - intros H. injection H as <-. split; [exact Hnd|]. intros k Hk. left. tauto.
  - unfold PyDict.pop. destruct (PyDict.get name d) as [w|]; [|discriminate].
    simpl. intros H.
    destruct (IH _ (NoDup_keys_set (rename name) w _ (NoDup_keys_remove name d Hnd)) H)
      as [Hout Hkeys].
    split; [exact Hout|]. intros k Hk.
    destruct (Hkeys k Hk) as [[Hin Hnot]|(n & Hn & ->)].
    + apply keys_set in Hin as [->|Hin].
      * right. exists name. split; [now left|reflexivity].
      * apply (keys_remove name d k Hnd) in Hin as [Hin Hne].
        left. split; [exact Hin|]. intros [E|E]; [congruence|contradiction].
    + right. exists n. split; [now right|reflexivity].
Qed.

(** A name that is its own new name and nobody else's keeps its weight
    throughout. *)
Lemma rename_loop_fixed K names d out :
  rename K = K -> (forall n, rename n = K -> n = K) ->
  rename_loop rename names d = Ok out ->
  PyDict.get K out = PyDict.get K d.
Proof.
  intros HK Honly. revert d. induction names as [|name names IH]; intros d; simpl.
  - intros H. now injection H as <-.
  - unfold PyDict.pop. destruct (PyDict.get name d) as [w|] eqn:Hw; [|discriminate].
    simpl. intros H. rewrite (IH _ H).
    destruct (String.eqb_spec name K) as [->|Hne].
    + rewrite HK, get_set_same. now symmetry.
    + rewrite get_set_other by (intros E; apply Hne; now apply Honly).
      apply get_remove_other. congruence.
Qed.

End MoreLoopFacts.

Section RewriterFacts.
Context {tensor : Type}.
Implicit Types (d : PyDict.t tensor).

(** A checkpoint none of whose keys begins with [rwkv.] has no key that
    is renamed to a key still waiting. *)
Lemma no_rwkv_prefix_later_free (names : list string) :
  NoDup names -> no_rwkv_prefix names = true ->
  later_free convert_key names = true.
Proof.
  induction names as [|name names IH]; [reflexivity|].
  intros Hnd Hp. inversion Hnd as [|? ? Hnotin Hnd']; subst.
  simpl in Hp. apply andb_true_iff in Hp as [_ Hp].
  cbn [later_free]. rewrite (IH Hnd' Hp), andb_true_r.
  apply negb_true_iff, in_list_not_In. intros Hin.
  destruct (String.eqb_spec name "head.weight") as [->|Hne].
  - apply Hnotin. exact Hin.
  - destruct (convert_key_other name Hne) as (rest & E & _).
    unfold no_rwkv_prefix in Hp. rewrite forallb_forall in Hp.
    specialize (Hp _ Hin). rewrite E, startswith_app in Hp. discriminate.
Qed.

Lemma convert_state_dict_total d :
  PyDict.wf d = true -> exists out, convert_state_dict d = Ok out.
Proof.
  intros Hwf. apply distinct_NoDup in Hwf.
  destruct (rename_loop_total convert_key (PyDict.keys d) d Hwf) as (out & H & _);
    [auto|now exists out].
Qed.

End RewriterFacts.

(** X11.  A checkpoint in which the renamed keys are pairwise different and
    no key is renamed to a key that comes later keeps its order: the
    output lists the items of the input in the input's order, each under
    its new name and with its own weight. *)
Theorem convert_state_dict_keeps_order {tensor : Type} (state_dict : PyDict.t tensor) :
  collision_free convert_key (PyDict.keys state_dict) = true ->
  convert_state_dict state_dict
  = Ok (map (fun item => (convert_key (fst item), snd item)) state_dict).
Proof. apply rename_loop_collision_free. Qed.

Lemma convert_state_dict_keeps_order_witness :
  convert_state_dict [("head.weight", 1); ("emb.weight", 2); ("ln_out.bias", 3)]
  = Ok [("head.weight", 1); ("rwkv.embeddings.weight", 2); ("rwkv.ln_out.bias", 3)].
Proof.
  apply (convert_state_dict_keeps_order
           [("head.weight", 1); ("emb.weight", 2); ("ln_out.bias", 3)]).
  reflexivity.
Defined.

(** X12.  On a checkpoint with distinct keys none of which begins with
    [rwkv.], popping and storing in the one dictionary gives what storing
    the renamed items one by one in a new dictionary gives. *)
Theorem convert_state_dict_as_new_dict {tensor : Type} (state_dict : PyDict.t tensor) :
  PyDict.wf state_dict = true ->
  no_rwkv_prefix (PyDict.keys state_dict) = true ->
  convert_state_dict state_dict = Ok (rebuild convert_key state_dict).
Proof.
  intros Hwf Hp. apply rename_loop_rebuild.
  apply no_rwkv_prefix_later_free; [now apply distinct_NoDup|exact Hp].
Qed.

Lemma convert_state_dict_as_new_dict_witness :
  convert_state_dict [("emb.weight", 1); ("embeddings.weight", 2); ("head.weight", 3)]
  = Ok (rebuild convert_key
          [("emb.weight", 1); ("embeddings.weight", 2); ("head.weight", 3)]).
Proof.
  apply (convert_state_dict_as_new_dict
           [("emb.weight", 1); ("embeddings.weight", 2); ("head.weight", 3)]);
    reflexivity.
Defined.

(** X13.  On such a checkpoint the last key renamed to a name is the one
    whose weight the output has under that name: an item after which no
    item gets the same new name keeps its weight. *)
Theorem convert_state_dict_last_writer {tensor : Type}
  (before after : PyDict.t tensor) (name : string) (weight : tensor) :
  PyDict.wf (before ++ (name, weight) :: after)%list = true ->
  no_rwkv_prefix (PyDict.keys (before ++ (name, weight) :: after)%list) = true ->
  (forall k, In k (PyDict.keys after) -> convert_key k <> convert_key name) ->
  exists out,
    convert_state_dict (before ++ (name, weight) :: after)%list = Ok out
    /\ PyDict.get (convert_key name) out = Some weight.
Proof.
  intros Hwf Hp Hlast. exists (rebuild convert_key (before ++ (name, weight) :: after)%list).
  split.
  - apply rename_loop_rebuild.
    apply no_rwkv_prefix_later_free; [now apply distinct_NoDup|exact Hp].
  - now apply rebuild_last_writer.
Qed.

Lemma convert_state_dict_last_writer_witness :
  exists out,
    convert_state_dict
      ([("emb.weight", 1)] ++ ("embeddings.weight", 2) :: [("head.weight", 3)])%list
    = Ok out
    /\ PyDict.get (convert_key "embeddings.weight") out = Some 2.
Proof.
  apply (convert_state_dict_last_writer
           [("emb.weight", 1)] [("head.weight", 3)] "embeddings.weight" 2);
    try reflexivity.
  intros k [<-|[]]. discriminate.
Defined.

Section KeyListFacts.
Context {tensor : Type}.
Variable rename : string -> string.
Implicit Types (d acc : PyDict.t tensor).

Lemma keys_set_add k (v : tensor) d :
  PyDict.keys (PyDict.set k v d) = add_key (PyDict.keys d) k.
Proof.
  unfold add_key, in_list, PyDict.keys.
  induction d as [|[k0 v0] d IH]; [reflexivity|].
  cbn [PyDict.set map fst existsb].
  rewrite (String.eqb_sym k k0).
  destruct (String.eqb k0 k); [reflexivity|].
  cbn [orb map fst]. rewrite IH.
  now destruct (existsb (String.eqb k) (map fst d)).
Qed.

Lemma keys_fold_store d acc :
  PyDict.keys (fold_left (store_renamed rename) d acc)
  = fold_left add_key (map rename (PyDict.keys d)) (PyDict.keys acc).
Proof.
  revert acc. induction d as [|[k v] d IH]; intros acc; [reflexivity|].
  change (PyDict.keys (fold_left (store_renamed rename) d (PyDict.set (rename k) v acc))
          = fold_left add_key (map rename (PyDict.keys d))
              (add_key (PyDict.keys acc) (rename k))).
  now rewrite IH, keys_set_add.
Qed.

Lemma keys_rebuild d :
  PyDict.keys (rebuild rename d) = first_appearances (map rename (PyDict.keys d)).
Proof. apply keys_fold_store. Qed.

End KeyListFacts.

(** X14.  On a checkpoint with distinct keys none of which begins with
    [rwkv.], the keys of the output are the new names in the order in
    which they first appear among the renamed keys of the input: the
    output has one key for every new name, however many keys were renamed
    to it. *)
Theorem convert_state_dict_output_key_list {tensor : Type}
  (state_dict : PyDict.t tensor) :
  PyDict.wf state_dict = true ->
  no_rwkv_prefix (PyDict.keys state_dict) = true ->
  exists out,
    convert_state_dict state_dict = Ok out
    /\ PyDict.keys out
       = first_appearances (map convert_key (PyDict.keys state_dict))
    /\ length out
       = length (first_appearances (map convert_key (PyDict.keys state_dict))).
Proof.
  intros Hwf Hp. exists (rebuild convert_key state_dict).
  split; [|split].
  - apply rename_loop_rebuild.
    apply no_rwkv_prefix_later_free; [now apply distinct_NoDup|exact Hp].
  - apply keys_rebuild.
  - rewrite <- keys_rebuild. unfold PyDict.keys. now rewrite length_map.
Qed.

Lemma convert_state_dict_output_key_list_witness :
  exists out,
    convert_state_dict
      [("emb.weight", 1); ("head.weight", 2); ("embeddings.weight", 3)] = Ok out
    /\ PyDict.keys out = ["rwkv.embeddings.weight"; "head.weight"]
    /\ length out = 2.
Proof.
  apply (convert_state_dict_output_key_list
           [("emb.weight", 1); ("head.weight", 2); ("embeddings.weight", 3)]);
    reflexivity.
Defined.

(** X15.  On every checkpoint with distinct keys the output has distinct
    keys again, each of them the new name of a key of the input, and so
    each of them [head.weight] or a key that begins with [rwkv.]. *)
Theorem convert_state_dict_output_keys {tensor : Type} (state_dict : PyDict.t tensor) :
  PyDict.wf state_dict = true ->
  exists out,
    convert_state_dict state_dict = Ok out
    /\ PyDict.wf out = true
    /\ forall key, In key (PyDict.keys out) ->
         (exists name, In name (PyDict.keys state_dict) /\ key = convert_key name)
         /\ (key = "head.weight" \/ PyStr.startswith key "rwkv." = true).
Proof.
  intros Hwf. destruct (convert_state_dict_total state_dict Hwf) as [out Hout].
  exists out. split; [exact Hout|]. apply distinct_NoDup in Hwf.
  destruct (rename_loop_keys convert_key _ _ _ Hwf Hout) as [Hnd Hkeys].
  split; [now apply distinct_NoDup|]. intros key Hkey.
  destruct (Hkeys key Hkey) as [[Hin Hnot]|(n & Hn & ->)]; [contradiction|].
  split; [now exists n|].
  destruct (String.eqb_spec n "head.weight") as [->|Hne]; [now left|].
  destruct (convert_key_other n Hne) as (rest & E & _).
  right. rewrite E. apply startswith_app.
Qed.

Lemma convert_state_dict_output_keys_witness :
  exists out,
    convert_state_dict [("x", 1); ("rwkv.x", 2)] = Ok out
    /\ PyDict.wf out = true
    /\ forall key, In key (PyDict.keys out) ->
         (exists name, In name (PyDict.keys [("x", 1); ("rwkv.x", 2)])
                       /\ key = convert_key name)
         /\ (key = "head.weight" \/ PyStr.startswith key "rwkv." = true).
Proof. apply (convert_state_dict_output_keys [("x", 1); ("rwkv.x", 2)]). reflexivity. Defined.

(** X16.  The weight under [head.weight] is never touched: on every
    checkpoint with distinct keys the output has under [head.weight] what
    the input has there, and nothing if the input has no such key,
    whatever the other keys are. *)
Theorem convert_state_dict_keeps_head {tensor : Type} (state_dict : PyDict.t tensor) :
  PyDict.wf state_dict = true ->
  exists out,
    convert_state_dict state_dict = Ok out
    /\ PyDict.get "head.weight" out = PyDict.get "head.weight" state_dict.
Proof.
  intros Hwf. destruct (convert_state_dict_total state_dict Hwf) as [out Hout].
  exists out. split; [exact Hout|].
  apply (rename_loop_fixed convert_key "head.weight" _ _ _ eq_refl convert_key_head Hout).
Qed.

Lemma convert_state_dict_keeps_head_witness :
  exists out,
    convert_state_dict [("head.weight", 1); ("rwkv.head.weight", 2); ("emb.weight", 3)]
    = Ok out
    /\ PyDict.get "head.weight" out
       = PyDict.get "head.weight"
           [("head.weight", 1); ("rwkv.head.weight", 2); ("emb.weight", 3)].
Proof.
  apply (convert_state_dict_keeps_head
           [("head.weight", 1); ("rwkv.head.weight", 2); ("emb.weight", 3)]).
  reflexivity.
Defined.

(** ** Size inference, read backwards *)

(** X17.  What the inference returns says what the file name holds: a label
    is returned only if the name holds it and holds none of the labels that
    stand before it in the table, and none is returned only if the name
    holds no label at all. *)
Theorem infer_size_result_explained (file : string) :
  match infer_size possible_sizes file with
  | Some label =>
      exists before after,
        possible_sizes = (before ++ label :: after)%list
        /\ (exists head tail, file = head ++ label ++ tail)
        /\ forall other, In other before -> PyStr.contains other file = false
  | None =>
      forall label, In label possible_sizes -> PyStr.contains label file = false
  end.
Proof.
  destruct (infer_size possible_sizes file) as [label|] eqn:E.
  - destruct (infer_size_some _ _ _ E) as (before & after & Hsplit & Hbefore & Hin).
    exists before, after. split; [exact Hsplit|]. split; [|exact Hbefore].
    now apply contains_inv.
  - now apply infer_size_none.
Qed.

(** ** The configuration builder, case by case *)

Section MoreConfigFacts.
Open Scope Z_scope.

Lemma getitem_get (table : PyDict.t Z) (key : string) (v : Z) :
  getitem table key = Ok v <-> PyDict.get key table = Some v.
Proof.
  unfold getitem. destruct (PyDict.get key table); split; congruence.
Qed.

Lemma build_config_label (tok : option Z) (label : string) (file : option string) :
  build_config tok (Some (SizeLabel label)) file
  = Raise (if in_list label possible_sizes
           then UnboundLocalError "num_hidden_layers"
           else ValueError ("`size` should be one of "
                              ++ "['169M', '430M', '1B5', '3B', '7B', '14B']"
                              ++ ", got " ++ label ++ ".")).
Proof.
  unfold build_config, resolve_size.
  destruct (in_list label possible_sizes); reflexivity.
Qed.

End MoreConfigFacts.

(** X18.  The configuration builder returns a configuration in two cases
    and in no other: the size is a pair, and the configuration has the
    pair's dimensions; or no size is given, a label is found in the file
    name, and both dimensions are the label's entry of the hidden-size
    table. *)
Theorem build_config_succeeds_iff (tok : option Z) (size : option size_arg)
  (file : option string) (cfg : RwkvConfig) :
  build_config tok size file = Ok cfg
  <-> (exists layers hidden,
          size = Some (SizeTuple layers hidden)
          /\ cfg = mkConfig (vocab_size_of tok) layers hidden)
      \/ (size = None
          /\ exists name label hidden,
               file = Some name
               /\ infer_size possible_sizes name = Some label
               /\ PyDict.get label HIDEN_SIZE_MAPPING = Some hidden
               /\ cfg = mkConfig (vocab_size_of tok) hidden hidden).
Proof.
  split.
  - destruct size as [[label|layers hidden]|].
    + rewrite build_config_label. discriminate.
    + intros H. injection H as <-. left. now exists layers, hidden.
    + destruct file as [name|]; [|discriminate].
      destruct (infer_size possible_sizes name) as [label|] eqn:E.
      * destruct (inferred_dimensions tok name label E) as (h & Hh & Hcfg).
        rewrite Hcfg. intros H. injection H as <-.
        right. split; [reflexivity|]. exists name, label, h.
        repeat split; auto. now apply getitem_get.
      * unfold build_config, resolve_size. rewrite E. discriminate.
  - intros [(layers & hidden & -> & ->)|(-> & name & label & hidden & -> & E & Hh & ->)].
    + reflexivity.
    + destruct (inferred_dimensions tok name label E) as (h & Hh' & Hcfg).
      apply getitem_get in Hh'. congruence.
Qed.

(** X19.  From the command line a run with [--size] never gets as far as a
    configuration: a label of the table ends in [UnboundLocalError], any
    other label in the [ValueError] that lists the labels.  A
    configuration is built exactly when [--size] is absent. *)
Theorem size_flag_never_builds_config :
  (forall tok file label hidden layers,
      main_config tok (mkArgs file (Some label) hidden layers)
      = Raise (if in_list label possible_sizes
               then UnboundLocalError "num_hidden_layers"
               else ValueError ("`size` should be one of "
                                  ++ "['169M', '430M', '1B5', '3B', '7B', '14B']"
                                  ++ ", got " ++ label ++ ".")))
  /\ (forall tok args,
         (exists cfg, main_config tok args = Ok cfg) <-> arg_size args = None).
Proof.
  split.
  - intros tok file label hidden layers. apply build_config_label.
  - intros tok [file [label|] hidden layers]; unfold main_config; cbn [main_size arg_size arg_checkpoint_file].
    + rewrite build_config_label. split; [intros [cfg H]|]; discriminate.
    + split; [reflexivity|]. intros _. eexists. reflexivity.
Qed.

(** X20.  Building the configuration never ends in [KeyError]: every label
    that can be inferred from a file name has an entry in the hidden-size
    table. *)
Theorem build_config_no_key_error (tok : option Z) (size : option size_arg)
  (file : option string) (key : string) :
  build_config tok size file <> Raise (KeyError key).
Proof.
  destruct size as [[label|layers hidden]|].
  - rewrite build_config_label. destruct (in_list label possible_sizes); discriminate.
  - discriminate.
  - destruct file as [name|]; [|discriminate].
    destruct (infer_size possible_sizes name) as [label|] eqn:E.
    + destruct (inferred_dimensions tok name label E) as (h & _ & Hcfg).
      rewrite Hcfg. discriminate.
    + unfold build_config, resolve_size. rewrite E. discriminate.
Qed.

(** ** Paths *)

Section PathFacts.

Lemma contains_app_l (sub a b : string) :
  PyStr.contains sub a = true -> PyStr.contains sub (a ++ b) = true.
Proof.
  intros H. apply contains_inv in H as (x & y & ->).
  rewrite !string_app_assoc. apply contains_intro.
Qed.

(** A path under a directory that is not the empty string has a slash. *)
Lemma os_path_join_slash (a b : string) :
  a <> "" -> PyStr.contains "/" (os_path_join a b) = true.
Proof.
  intros Ha. unfold os_path_join.
  destruct (PyStr.startswith b "/") eqn:Eb; [now apply startswith_contains|].
  destruct (String.eqb_spec a "") as [|_]; [contradiction|].
  cbn [orb]. destruct (PyStr.endswith a "/") eqn:Ea.
  - apply contains_app_l.
    clear Eb Ha. induction a as [|c a IH]; [discriminate|].
    cbn [PyStr.endswith] in Ea. cbn [PyStr.contains].
    destruct (PyStr.startswith (String c a) "/") eqn:Es; [reflexivity|].
    destruct (String.eqb_spec (String c a) "/") as [E|_].
    + rewrite E in Es. discriminate.
    + now apply IH.
  - apply (contains_intro "/" a b).
Qed.

Lemma os_path_join_relative (a b : string) :
  PyStr.contains "/" b = false ->
  exists sep, (sep = "" \/ sep = "/") /\ os_path_join a b = a ++ sep ++ b.
Proof.
  intros Hb. unfold os_path_join. rewrite (contains_head _ _ Hb).
  destruct (String.eqb a "" || PyStr.endswith a "/").
  - exists "". split; [now left|reflexivity].
  - exists "/". split; [now right|reflexivity].
Qed.

End PathFacts.

(** X21.  The clean-up does not name the files that were saved.  It runs
    only when there is an index, and then loads and saves under the bare
    shard names, in the order of the shard dictionary.  With shard names
    that hold no slash, every shard was saved under the output directory
    followed, after a slash where one is needed, by its name; so when the
    output directory is not the empty string no path of the clean-up is a
    path that a shard was saved under, and when it is the empty string the
    clean-up goes through the very paths that were saved. *)
Theorem cleanup_uses_bare_shard_names {shard : Type} (output_dir : string)
  (index : option json) (shards : PyDict.t shard) :
  (forall name, In name (PyDict.keys shards) -> PyStr.contains "/" name = false) ->
  (save_index index = None -> cleaned_shard_paths index shards = [])
  /\ (index <> None -> cleaned_shard_paths index shards = PyDict.keys shards)
  /\ Forall2 (fun saved name =>
                exists sep, (sep = "" \/ sep = "/")
                            /\ saved = output_dir ++ sep ++ name)
             (saved_shard_paths output_dir shards) (PyDict.keys shards)
  /\ (output_dir = "" -> saved_shard_paths output_dir shards = PyDict.keys shards)
  /\ (output_dir <> "" ->
      forall path, In path (saved_shard_paths output_dir shards) ->
                   ~ In path (cleaned_shard_paths index shards)).
Proof.
  intros Hnames. split; [|split; [|split; [|split]]].
  - destruct index; [discriminate|reflexivity].
  - destruct index; [reflexivity|congruence].
  - unfold saved_shard_paths, PyDict.keys in *.
    induction shards as [|[name s] shards IH]; simpl; constructor.
    + apply os_path_join_relative, Hnames. now left.
    + apply IH. intros n Hn. apply Hnames. now right.
  - intros ->. unfold saved_shard_paths, PyDict.keys in *.
    apply map_ext_in. intros [name s] Hin. cbn [fst].
    unfold os_path_join. rewrite (contains_head "/" name); [reflexivity|].
    apply Hnames. apply in_map_iff. now exists (name, s).
  - intros Hdir path Hsaved Hclean.
    assert (Hkey : In path (PyDict.keys shards))
      by (destruct index; [exact Hclean|destruct Hclean]).
    unfold saved_shard_paths in Hsaved. apply in_map_iff in Hsaved as (item & <- & _).
    pose proof (os_path_join_slash output_dir (fst item) Hdir) as Hslash.
    rewrite (Hnames _ Hkey) in Hslash. discriminate.
Qed.

Lemma cleanup_uses_bare_shard_names_witness :
  saved_shard_paths "out"
    [("pytorch_model-00001-of-00002.bin", 1); ("pytorch_model-00002-of-00002.bin", 2)]
  = ["out/pytorch_model-00001-of-00002.bin"; "out/pytorch_model-00002-of-00002.bin"]
  /\ ~ In "out/pytorch_model-00001-of-00002.bin"
         (cleaned_shard_paths (Some (JDict []))
            [("pytorch_model-00001-of-00002.bin", 1);
             ("pytorch_model-00002-of-00002.bin", 2)]).
Proof.
  split; [reflexivity|].
  refine (proj2 (proj2 (proj2 (proj2 (cleanup_uses_bare_shard_names "out"
            (Some (JDict []))
            [("pytorch_model-00001-of-00002.bin", 1);
             ("pytorch_model-00002-of-00002.bin", 2)] _)))) _ _ _).
  - intros name [<-|[<-|[]]]; reflexivity.
  - discriminate.
  - now left.
Defined.

(** ** The characters of the index file *)

Section PlainFacts.

Lemma plain_text_app (a b : string) :
  plain_text a = true -> plain_text b = true -> plain_text (a ++ b) = true.
Proof.
  intros Ha Hb. induction a as [|c a IH]; [exact Hb|].
  cbn [plain_text append] in *. apply andb_true_iff in Ha as [Hc Ha].
  now rewrite Hc, IH.
Qed.

Lemma plain_text_concat (sep : string) (chunks : list string) :
  plain_text sep = true -> Forall (fun c => plain_text c = true) chunks ->
  plain_text (String.concat sep chunks) = true.
Proof.
  intros Hsep. induction 1 as [|c chunks Hc Hrest IH]; [reflexivity|].
  destruct chunks as [|c' chunks]; [exact Hc|].
  rewrite concat_cons2. apply plain_text_app; [exact Hc|].
  now apply plain_text_app.
Qed.

Lemma escape_char_plain (c : ascii) : plain_text (Json.escape_char c) = true.
Proof. destruct c as [[] [] [] [] [] [] [] []]; reflexivity. Qed.

Lemma escape_plain (s : string) : plain_text (Json.escape s) = true.
Proof.
  induction s as [|c s IH]; [reflexivity|].
  cbn [Json.escape]. apply plain_text_app; [apply escape_char_plain|exact IH].
Qed.

Lemma encode_str_plain (s : string) : plain_text (Json.encode_str s) = true.
Proof.
  unfold Json.encode_str. apply (plain_text_app Json.quote); [reflexivity|].
  apply plain_text_app; [apply escape_plain|reflexivity].
Qed.

Lemma string_of_uint_plain (d : Decimal.uint) :
  plain_text (NilEmpty.string_of_uint d) = true.
Proof. induction d; simpl; auto. Qed.

Lemma encode_int_plain (n : Z) : plain_text (Json.encode_int n) = true.
Proof.
  unfold Json.encode_int.
  destruct (Z.to_int n) as [d|d]; simpl;
    destruct d; try reflexivity; apply (string_of_uint_plain (_ d)).
Qed.

Lemma spaces_plain (n : nat) : plain_text (Json.spaces n) = true.
Proof. induction n as [|n IH]; [reflexivity|exact IH]. Qed.

Lemma newline_indent_plain (indent level : nat) :
  plain_text (Json.newline_indent indent level) = true.
Proof. unfold Json.newline_indent. apply (spaces_plain (indent * level)). Qed.

Lemma lay_out_plain (indent level : nat) (opening closing : string)
  (chunks : list string) :
  plain_text opening = true -> plain_text closing = true ->
  Forall (fun c => plain_text c = true) chunks ->
  plain_text (Json.lay_out indent level opening closing chunks) = true.
Proof.
  intros Ho Hc Hall. unfold Json.lay_out.
  destruct chunks as [|c chunks]; [now apply plain_text_app|].
  apply plain_text_app; [exact Ho|].
  apply plain_text_app; [apply newline_indent_plain|].
  apply plain_text_app.
  - apply plain_text_concat; [|exact Hall].
    apply (plain_text_app ","); [reflexivity|apply newline_indent_plain].
  - apply plain_text_app; [apply newline_indent_plain|exact Hc].
Qed.

Lemma encode_plain (indent : nat) (sort_keys : bool) (v : json) :
  forall level, plain_text (Json.encode indent sort_keys level v) = true.
Proof.
  induction v as [| b | n | s | items IH | items IH] using json_nested_ind;
    intros level.
  - reflexivity.
  - now destruct b.
  - apply encode_int_plain.
  - apply encode_str_plain.
  - cbn [Json.encode]. apply lay_out_plain; try reflexivity.
    induction IH as [|x rest Hx _ IHrest]; simpl; constructor; auto.
  - cbn [Json.encode]. rewrite sorted_or_not_on_snd.
    apply lay_out_plain; try reflexivity.
    apply (sorted_or_not_Forall _ sort_keys) in IH.
    induction IH as [|[k x] rest Hx _ IHrest]; simpl; constructor; auto.
    unfold Json.member. cbn [fst snd].
    apply plain_text_app; [apply encode_str_plain|].
    apply (plain_text_app ": "); [reflexivity|apply Hx].
Qed.

Lemma escape_char_cases (c : ascii) :
  let n := nat_of_ascii c in
  if ((32 <=? n) && (n <=? 126) && negb (n =? 34) && negb (n =? 92))%nat
  then Json.escape_char c = String c ""
  else exists e, Json.escape_char c = String "\" e.
Proof.
  destruct c as [[] [] [] [] [] [] [] []]; cbv zeta;
    first [reflexivity | eexists; reflexivity].
Qed.

End PlainFacts.

(** X22.  Whatever the index holds, the text of the index file is made of
    printable ASCII characters and line breaks alone, and a JSON reader
    gets the index back from it, keys and strings included.  In a key or a
    string, a printable ASCII character other than the quote and the
    backslash is written as itself and every other character as an escape
    that begins with a backslash; the literal is printable ASCII, and the
    reader gets the key or string back from it. *)
Theorem index_file_plain_ascii (index : json) :
  plain_text (index_file_content index) = true
  /\ JsonRead.loads (index_file_content index) = Some (Layout.canon index)
  /\ (forall s rest,
        plain_text (Json.encode_str s) = true
        /\ JsonRead.read_string (Json.encode_str s ++ rest) = Some (s, rest))
  /\ (forall c,
        let n := nat_of_ascii c in
        if ((32 <=? n) && (n <=? 126) && negb (n =? 34) && negb (n =? 92))%nat
        then Json.escape_char c = String c ""
        else exists e, Json.escape_char c = String "\" e).
Proof.
  split; [|split; [apply loads_index_file|split]].
  - unfold index_file_content, Json.dumps.
    apply plain_text_app; [apply encode_plain|reflexivity].
  - intros s rest. split; [apply encode_str_plain|apply read_string_encode_str].
  - exact escape_char_cases.
Qed.

(** ** The rewriter against the rules of the specification *)

Section SpecRuleFacts.

Lemma occurs_in_contains (sub s : string) :
  ~ occurs_in sub s -> PyStr.contains sub s = false.
Proof.
  intros H. destruct (PyStr.contains sub s) eqn:E; [|reflexivity].
  exfalso. apply H. now apply contains_iff.
Qed.

Lemma strip_prefix_some (p key rest : string) :
  strip_prefix p key = Some rest <-> key = p ++ rest.
Proof.
  revert key. induction p as [|c p IH]; intros key; simpl.
  - split; [now intros [= ->]|now intros ->].
  - destruct key as [|d key]; [split; discriminate|].
    destruct (Ascii.eqb_spec c d) as [->|Hne].
    + rewrite IH. split; [now intros ->|now intros [= ->]].
    + split; [discriminate|]. intros [= E _]. congruence.
Qed.

Lemma strip_prefix_startswith (p key : string) :
  PyStr.startswith key p
  = match strip_prefix p key with Some _ => true | None => false end.
Proof.
  revert key. induction p as [|c p IH]; intros key; [reflexivity|].
  destruct key as [|d key]; [reflexivity|]. simpl.
  destruct (Ascii.eqb c d); [apply IH|reflexivity].
Qed.

Lemma strip_suffix_some (suf key front : string) :
  strip_suffix suf key = Some front -> key = front ++ suf.
Proof.
  revert front. induction key as [|c key IH]; intros front; cbn [strip_suffix].
  - destruct (String.eqb_spec "" suf) as [<-|]; [|discriminate]. now intros [= <-].
  - destruct (String.eqb_spec (String c key) suf) as [<-|].
    + now intros [= <-].
    + destruct (strip_suffix suf key) as [f|]; [|discriminate].
      intros [= <-]. cbn [append]. now rewrite (IH f eq_refl).
Qed.

Lemma strip_suffix_endswith (suf key : string) :
  PyStr.endswith key suf
  = match strip_suffix suf key with Some _ => true | None => false end.
Proof.
  induction key as [|c key IH]; cbn [PyStr.endswith strip_suffix].
  - now destruct (String.eqb "" suf).
  - destruct (String.eqb (String c key) suf); [reflexivity|].
    rewrite IH. now destruct (strip_suffix suf key).
Qed.

(** A replacement that finds [old] at the head of a text and nowhere
    behind it rewrites the prefix. *)
Lemma replace_prefix_once (c : ascii) (old new rest : string) :
  ~ occurs_in (String c old) rest ->
  PyStr.replace (String c old) new (String c old ++ rest) = new ++ rest.
Proof.
  intros H. unfold PyStr.replace. rewrite replace_from_hit.
  now rewrite (replace_plain _ _ _ (occurs_in_contains _ _ H)).
Qed.

Lemma rule_emb_spec (key : string) :
  once_as_prefix "emb." key -> rule_emb key = spec_rule_1 key.
Proof.
  intros H. unfold rule_emb, spec_rule_1, spec_rewrite_prefix.
  rewrite strip_prefix_startswith.
  destruct (strip_prefix "emb." key) as [rest|] eqn:E; [|reflexivity].
  apply strip_prefix_some in E. subst key.
  apply (replace_prefix_once "e" "mb."). now apply H.
Qed.

Lemma rule_pre_ln_spec (key : string) :
  once_as_prefix "blocks.0.ln0" key -> rule_pre_ln key = spec_rule_2 key.
Proof.
  intros H. unfold rule_pre_ln, spec_rule_2, spec_rewrite_prefix.
  rewrite strip_prefix_startswith.
  destruct (strip_prefix "blocks.0.ln0" key) as [rest|] eqn:E; [|reflexivity].
  apply strip_prefix_some in E. subst key.
  apply (replace_prefix_once "b" "locks.0.ln0"). now apply H.
Qed.


Lemma once_as_prefix_miss (p key : string) :
  PyStr.startswith key p = false -> once_as_prefix p key.
Proof. intros H rest ->. now rewrite startswith_app in H. Qed.

Lemma string_app_inv_head (p a b : string) : p ++ a = p ++ b -> a = b.
Proof. induction p as [|c p IH]; [easy|]. intros [= H]. now apply IH. Qed.

Lemma once_as_prefix_check (p rest : string) :
  PyStr.contains p rest = false -> once_as_prefix p (p ++ rest).
Proof.
  intros H rest' E Hocc. apply string_app_inv_head in E. subst rest'.
  apply contains_iff in Hocc. congruence.
Qed.

Lemma rule_pre_ln_after_emb (key : string) :
  once_as_prefix "blocks.0.ln0" key ->
  once_as_prefix "blocks.0.ln0" (spec_rule_1 key).
Proof.
  intros H. unfold spec_rule_1, spec_rewrite_prefix.
  destruct (strip_prefix "emb." key) as [rest|]; [|exact H].
  now apply once_as_prefix_miss.
Qed.

(** A word without a dot that begins where a text is followed by a dot
    begins inside the text. *)
Lemma startswith_before_dot (w s t : string) :
  PyStr.contains "." w = false ->
  PyStr.startswith (s ++ String "." t) w = true -> PyStr.startswith s w = true.
Proof.
  revert s. induction w as [|d w IH]; intros s Hw H; [reflexivity|].
  apply contains_cons in Hw as [Hd Hw].
  cbn [PyStr.startswith] in Hd.
  destruct s as [|e s]; cbn [append PyStr.startswith] in H |- *.
  - destruct (Ascii.eqb "." d) eqn:E; [discriminate|].
    rewrite Ascii.eqb_sym, E in H. discriminate.
  - destruct (Ascii.eqb d e); [|discriminate]. now apply IH.
Qed.

(** A replacement of [.<word>], the word without a dot, in a text that
    ends in it and holds it nowhere else rewrites the suffix. *)
Lemma replace_suffix_once (w new a : string) :
  PyStr.contains "." w = false ->
  ~ occurs_in (String "." w) a ->
  PyStr.replace (String "." w) new (a ++ String "." w) = a ++ new.
Proof.
  intros Hw. unfold PyStr.replace. induction a as [|c a IH]; intros H.
  - pose proof (replace_from_hit "." w new "") as E.
    rewrite string_app_nil_r in E. cbn [PyStr.replace_from] in E.
    now rewrite string_app_nil_r in E.
  - change (String c a ++ String "." w) with (String c (a ++ String "." w)).
    rewrite replace_from_step.
    destruct (PyStr.startswith (String c (a ++ String "." w)) (String "." w)) eqn:E.
    + exfalso. apply H. apply contains_iff, startswith_contains.
      cbn [PyStr.startswith] in E |- *.
      destruct (Ascii.eqb "." c); [|discriminate].
      now apply (startswith_before_dot w a w).
    + rewrite IH; [reflexivity|].
      intros (x & y & ->). apply H. now exists (String c x), y.
Qed.

Lemma rule_time_mix_spec (w new key : string) :
  PyStr.contains "." w = false ->
  once_as_suffix (String "." w) key ->
  rule_time_mix (String "." w) new key = spec_rewrite_suffix (String "." w) new key.
Proof.
  intros Hw H. unfold rule_time_mix, spec_rewrite_suffix.
  rewrite strip_suffix_endswith.
  destruct (strip_suffix (String "." w) key) as [front|] eqn:E; [|reflexivity].
  apply strip_suffix_some in E. subst key.
  apply replace_suffix_once; [exact Hw|]. now apply H.
Qed.

Lemma once_as_suffix_miss (suf key : string) :
  PyStr.endswith key suf = false -> once_as_suffix suf key.
Proof. intros H front ->. now rewrite endswith_app in H. Qed.

Lemma string_app_inv_tail (a b suf : string) : a ++ suf = b ++ suf -> a = b.
Proof.
  revert b. induction a as [|c a IH]; intros b H.
  - destruct b as [|d b]; [reflexivity|exfalso].
    apply (f_equal String.length) in H. cbn [append String.length] in H.
    rewrite string_length_app in H. lia.
  - destruct b as [|d b].
    + exfalso. apply (f_equal String.length) in H. cbn [append String.length] in H.
      rewrite string_length_app in H. lia.
    + injection H as -> H. now rewrite (IH b H).
Qed.

Lemma once_as_suffix_check (suf front : string) :
  PyStr.contains suf front = false -> once_as_suffix suf (front ++ suf).
Proof.
  intros H front' E Hocc. apply string_app_inv_tail in E. subst front'.
  apply contains_iff in Hocc. congruence.
Qed.

(** A rewritten time-mix suffix leaves nothing for the other two rules. *)
Lemma once_as_suffix_rewritten (suf old new key : string) :
  String.length suf <= String.length new ->
  PyStr.endswith new suf = false ->
  once_as_suffix suf key -> once_as_suffix suf (spec_rewrite_suffix old new key).
Proof.
  intros Hlen Hnew H. unfold spec_rewrite_suffix.
  destruct (strip_suffix old key) as [front|]; [|exact H].
  apply once_as_suffix_miss. now rewrite endswith_long.
Qed.

(** On a key in which the rewritten prefixes and suffixes occur once, the
    rewriter does what the eight rules of the specification say. *)
Lemma convert_key_spec (key : string) :
  once_as_prefix "emb." key ->
  once_as_prefix "blocks.0.ln0" key ->
  once_as_suffix ".time_mix_k" (spec_rules_1_to_4 key) ->
  once_as_suffix ".time_mix_v" (spec_rules_1_to_4 key) ->
  once_as_suffix ".time_mix_r" (spec_rules_1_to_4 key) ->
  convert_key key = spec_convert_key key.
Proof.
  intros Hemb Hln Hk Hv Hr.
  unfold convert_key, spec_convert_key.
  rewrite (rule_emb_spec key Hemb).
  rewrite (rule_pre_ln_spec _ (rule_pre_ln_after_emb key Hln)).
  change (rule_ffn (rule_att (spec_rule_2 (spec_rule_1 key))))
    with (spec_rules_1_to_4 key).
  rewrite (rule_time_mix_spec "time_mix_k" _ _ eq_refl Hk).
  change (spec_rewrite_suffix ".time_mix_k" ".time_mix_key" (spec_rules_1_to_4 key))
    with (spec_rule_5 (spec_rules_1_to_4 key)).
  rewrite (rule_time_mix_spec "time_mix_v" ".time_mix_value"
             (spec_rule_5 (spec_rules_1_to_4 key)) eq_refl)
    by (apply once_as_suffix_rewritten; [simpl; lia|reflexivity|exact Hv]).
  change (spec_rewrite_suffix ".time_mix_v" ".time_mix_value"
            (spec_rule_5 (spec_rules_1_to_4 key)))
    with (spec_rule_6 (spec_rule_5 (spec_rules_1_to_4 key))).
  rewrite (rule_time_mix_spec "time_mix_r" ".time_mix_receptance"
             (spec_rule_6 (spec_rule_5 (spec_rules_1_to_4 key))) eq_refl)
    by (do 2 (apply once_as_suffix_rewritten; [simpl; lia|reflexivity|]); exact Hr).
  reflexivity.
Qed.

End SpecRuleFacts.

Section FamilyFacts.

Lemma occurs_in_behind_dot (w leaf : string) :
  ~ occurs_in w leaf -> PyStr.contains (String "." w) (String "." leaf) = false.
Proof.
  intros H. destruct (PyStr.contains _ _) eqn:E; [exfalso|reflexivity].
  apply contains_iff in E as (a & b & E). apply H.
  destruct a as [|c a]; injection E as E.
  - now exists "", b.
  - subst leaf. exists (a ++ "."), b. now rewrite string_app_assoc.
Qed.

Lemma rule_time_mix_all_plain (front : string) :
  PyStr.contains ".time_mix_" front = false -> rule_time_mix_all front = front.
Proof.
  intros H.
  pose proof (no_time_mix_no_suffix "k" front H) as Nk.
  pose proof (no_time_mix_no_suffix "v" front H) as Nv.
  pose proof (no_time_mix_no_suffix "r" front H) as Nr.
  cbn [append] in Nk, Nv, Nr.
  unfold rule_time_mix_all, rule_time_mix. now rewrite Nk, Nv, Nr.
Qed.

Lemma rule_time_mix_all_leaf (leaf : string) :
  ~ occurs_in "time_mix_" leaf -> rule_time_mix_all ("." ++ leaf) = "." ++ leaf.
Proof.
  intros H. apply rule_time_mix_all_plain. now apply (occurs_in_behind_dot "time_mix_").
Qed.

Lemma convert_key_emb_exact (rest : string) :
  ~ occurs_in "emb." rest -> ~ occurs_in "blocks." rest ->
  ~ occurs_in "time_mix_" rest ->
  convert_key ("emb." ++ rest) = "rwkv.embeddings." ++ rest.
Proof.
  intros Hemb Hblk Htm.
  rewrite convert_key_emb_plain by now apply occurs_in_contains.
  now rewrite rule_time_mix_all_leaf.
Qed.

Lemma convert_key_att_exact (n : nat) (leaf : string) :
  ~ occurs_in "blocks." leaf -> ~ occurs_in "time_mix_" leaf ->
  convert_key ("blocks." ++ block_index n ++ ".att." ++ leaf)
  = "rwkv.blocks." ++ block_index n ++ ".attention." ++ leaf.
Proof.
  intros Hblk Htm. destruct (block_index_digits n) as [Hds Hne].
  rewrite convert_key_att by (assumption || now apply occurs_in_contains).
  now rewrite rule_time_mix_all_leaf.
Qed.

Lemma convert_key_ffn_exact (n : nat) (leaf : string) :
  ~ occurs_in "blocks." leaf -> ~ occurs_in "time_mix_" leaf ->
  convert_key ("blocks." ++ block_index n ++ ".ffn." ++ leaf)
  = "rwkv.blocks." ++ block_index n ++ ".feed_forward." ++ leaf.
Proof.
  intros Hblk Htm. destruct (block_index_digits n) as [Hds Hne].
  rewrite convert_key_ffn by (assumption || now apply occurs_in_contains).
  now rewrite rule_time_mix_all_leaf.
Qed.

Lemma convert_key_ln0_exact (n : nat) (leaf : string) :
  ~ occurs_in "blocks." leaf -> ~ occurs_in "time_mix_" leaf ->
  convert_key ("blocks." ++ block_index n ++ ".ln0." ++ leaf)
  = "rwkv.blocks." ++ block_index n ++ (if Nat.eqb n 0 then ".pre_ln." else ".ln0.")
      ++ leaf.
Proof.
  intros Hblk Htm. apply occurs_in_contains in Hblk.
  destruct (Nat.eqb_spec n 0) as [->|Hn].
  - change (convert_key ("blocks.0.ln0." ++ leaf) = "rwkv.blocks.0.pre_ln." ++ leaf).
    rewrite (convert_key_ln0_zero leaf Hblk). now rewrite rule_time_mix_all_leaf.
  - destruct (block_index_digits n) as [Hds Hne].
    change ("blocks." ++ block_index n ++ ".ln0." ++ leaf)
      with ("blocks." ++ block_index n ++ "." ++ "ln0." ++ leaf).
    rewrite convert_key_other_segment;
      [|assumption|assumption|now apply (contains_behind "ln0.")
       |reflexivity|reflexivity|].
    + rewrite rule_time_mix_all_plain; [reflexivity|].
      change ("." ++ "ln0." ++ leaf) with (String "." ("ln0" ++ String "." leaf)).
      cbn [PyStr.contains PyStr.startswith append].
      change (Ascii.eqb "." ".") with true. change (Ascii.eqb "t" "l") with false.
      change (Ascii.eqb "." "l") with false. change (Ascii.eqb "." "n") with false.
      change (Ascii.eqb "." "0") with false. cbv iota.
      exact (occurs_in_behind_dot "time_mix_" leaf Htm).
    + intros E. apply block_index_zero in E. contradiction.
Qed.

End FamilyFacts.

(** C1.  The rewriter is the composition of the eight rules in the order
    of the specification, and it renames the specification's sample keys as
    stated.  On every key in which the prefixes [emb.] and [blocks.0.ln0]
    occur at most as the prefix, and in which, after rules 1 to 4, a
    time-mix suffix occurs at most as the suffix, the new name is the one
    that the eight rules of the specification give, each rule rewriting the
    one prefix, segment or suffix it names.  So for every block index [n]
    and every rest or leaf without [emb.], [blocks.] and [time_mix_]:
    [emb.<rest>] becomes [rwkv.embeddings.<rest>]; [blocks.n.ln0.<leaf>]
    becomes [rwkv.blocks.n.pre_ln.<leaf>] in block 0 and keeps [ln0] in
    every other block; [blocks.n.att.<leaf>] and [blocks.n.ffn.<leaf>]
    become [rwkv.blocks.n.attention.<leaf>] and
    [rwkv.blocks.n.feed_forward.<leaf>]; and the keys [time_mix_k],
    [time_mix_v], [time_mix_r] of both segments become [time_mix_key],
    [time_mix_value], [time_mix_receptance], the index as it was. *)
Theorem convert_key_expected_renamings :
  (forall name,
      convert_key name
      = rule_prefix
          (rule_time_mix ".time_mix_r" ".time_mix_receptance"
             (rule_time_mix ".time_mix_v" ".time_mix_value"
                (rule_time_mix ".time_mix_k" ".time_mix_key"
                   (rule_ffn (rule_att (rule_pre_ln (rule_emb name))))))))
  /\ convert_key "emb.weight" = "rwkv.embeddings.weight"
  /\ convert_key "blocks.0.ln0.weight" = "rwkv.blocks.0.pre_ln.weight"
  /\ convert_key "blocks.3.att.time_mix_k" = "rwkv.blocks.3.attention.time_mix_key"
  /\ convert_key "head.weight" = "head.weight"
  /\ (forall rest, exists tail,
         convert_key ("emb." ++ rest) = "rwkv.embeddings." ++ tail)
  /\ (forall n : nat,
         convert_key ("blocks." ++ block_index n ++ ".att.time_mix_k")
         = "rwkv.blocks." ++ block_index n ++ ".attention.time_mix_key")
  /\ (forall key,
         once_as_prefix "emb." key ->
         once_as_prefix "blocks.0.ln0" key ->
         once_as_suffix ".time_mix_k" (spec_rules_1_to_4 key) ->
         once_as_suffix ".time_mix_v" (spec_rules_1_to_4 key) ->
         once_as_suffix ".time_mix_r" (spec_rules_1_to_4 key) ->
         convert_key key = spec_convert_key key)
  /\ (forall rest,
         ~ occurs_in "emb." rest -> ~ occurs_in "blocks." rest ->
         ~ occurs_in "time_mix_" rest ->
         convert_key ("emb." ++ rest) = "rwkv.embeddings." ++ rest)
  /\ (forall (n : nat) leaf,
         ~ occurs_in "blocks." leaf -> ~ occurs_in "time_mix_" leaf ->
         convert_key ("blocks." ++ block_index n ++ ".ln0." ++ leaf)
         = "rwkv.blocks." ++ block_index n
             ++ (if Nat.eqb n 0 then ".pre_ln." else ".ln0.") ++ leaf)
  /\ (forall (n : nat) leaf,
         ~ occurs_in "blocks." leaf -> ~ occurs_in "time_mix_" leaf ->
         convert_key ("blocks." ++ block_index n ++ ".att." ++ leaf)
         = "rwkv.blocks." ++ block_index n ++ ".attention." ++ leaf
         /\ convert_key ("blocks." ++ block_index n ++ ".ffn." ++ leaf)
            = "rwkv.blocks." ++ block_index n ++ ".feed_forward." ++ leaf)
  /\ (forall n : nat,
         convert_key ("blocks." ++ block_index n ++ ".att.time_mix_v")
         = "rwkv.blocks." ++ block_index n ++ ".attention.time_mix_value"
         /\ convert_key ("blocks." ++ block_index n ++ ".att.time_mix_r")
            = "rwkv.blocks." ++ block_index n ++ ".attention.time_mix_receptance"
         /\ convert_key ("blocks." ++ block_index n ++ ".ffn.time_mix_k")
            = "rwkv.blocks." ++ block_index n ++ ".feed_forward.time_mix_key"
         /\ convert_key ("blocks." ++ block_index n ++ ".ffn.time_mix_v")
            = "rwkv.blocks." ++ block_index n ++ ".feed_forward.time_mix_value"
         /\ convert_key ("blocks." ++ block_index n ++ ".ffn.time_mix_r")
            = "rwkv.blocks." ++ block_index n ++ ".feed_forward.time_mix_receptance").
Proof.
  split; [reflexivity|]. split; [reflexivity|]. split; [reflexivity|].
  split; [reflexivity|]. split; [reflexivity|].
  split; [apply convert_key_emb|].
  split.
  { intros n. destruct (block_index_digits n) as [Hds Hne].
    now apply convert_key_block_att. }
  split; [exact convert_key_spec|].
  split; [exact convert_key_emb_exact|].
  split; [exact convert_key_ln0_exact|].
  split.
  { intros n leaf Hblk Htm.
    split; [now apply convert_key_att_exact|now apply convert_key_ffn_exact]. }
  intros n. destruct (block_index_digits n) as [Hds Hne].
  pose proof (fun leaf => convert_key_att (block_index n) leaf Hds Hne) as Hatt.
  pose proof (fun leaf => convert_key_ffn (block_index n) leaf Hds Hne) as Hffn.
  split; [exact (Hatt "time_mix_v" eq_refl)|].
  split; [exact (Hatt "time_mix_r" eq_refl)|].
  split; [exact (Hffn "time_mix_k" eq_refl)|].
  split; [exact (Hffn "time_mix_v" eq_refl)|].
  exact (Hffn "time_mix_r" eq_refl).
Qed.

Lemma convert_key_expected_renamings_witness :
  (convert_key "emb.weight" = spec_convert_key "emb.weight"
   /\ spec_convert_key "emb.weight" = "rwkv.embeddings.weight")
  /\ (convert_key "blocks.0.ln0.weight" = spec_convert_key "blocks.0.ln0.weight"
      /\ spec_convert_key "blocks.0.ln0.weight" = "rwkv.blocks.0.pre_ln.weight")
  /\ (convert_key "blocks.2.ffn.time_mix_r" = spec_convert_key "blocks.2.ffn.time_mix_r"
      /\ spec_convert_key "blocks.2.ffn.time_mix_r"
         = "rwkv.blocks.2.feed_forward.time_mix_receptance")
  /\ convert_key ("emb." ++ "weight") = "rwkv.embeddings." ++ "weight"
  /\ convert_key ("blocks." ++ block_index 7 ++ ".ffn." ++ "key.weight")
     = "rwkv.blocks." ++ block_index 7 ++ ".feed_forward." ++ "key.weight".
Proof.
  destruct convert_key_expected_renamings
    as (_ & _ & _ & _ & _ & _ & _ & Hspec & Hemb & _ & Hseg & _).
  assert (Hfree : forall sub s, PyStr.contains sub s = false -> ~ occurs_in sub s).
  { intros sub s E H. apply contains_iff in H. congruence. }
  split; [split; [|reflexivity]|].
  { apply Hspec.
    - apply (once_as_prefix_check "emb." "weight"). reflexivity.
    - apply once_as_prefix_miss. reflexivity.
    - apply once_as_suffix_miss. reflexivity.
    - apply once_as_suffix_miss. reflexivity.
    - apply once_as_suffix_miss. reflexivity. }
  split; [split; [|reflexivity]|].
  { apply Hspec.
    - apply once_as_prefix_miss. reflexivity.
    - apply (once_as_prefix_check "blocks.0.ln0" ".weight"). reflexivity.
    - apply once_as_suffix_miss. reflexivity.
    - apply once_as_suffix_miss. reflexivity.
    - apply once_as_suffix_miss. reflexivity. }
  split; [split; [|reflexivity]|].
  { apply Hspec.
    - apply once_as_prefix_miss. reflexivity.
    - apply once_as_prefix_miss. reflexivity.
    - apply once_as_suffix_miss. reflexivity.
    - apply once_as_suffix_miss. reflexivity.
    - apply (once_as_suffix_check ".time_mix_r" "blocks.2.feed_forward"). reflexivity. }
  split.
  - apply Hemb; apply Hfree; reflexivity.
  - apply (Hseg 7 "key.weight"); apply Hfree; reflexivity.
Defined.

(** The rules as the code applies them rewrite every occurrence of a prefix
    or suffix they find, not only the one the key begins or ends with. *)
Lemma rewritten_beyond_prefix_and_suffix :
  convert_key "emb.emb.weight" = "rwkv.embeddings.embeddings.weight"
  /\ spec_convert_key "emb.emb.weight" = "rwkv.embeddings.emb.weight"
  /\ convert_key "blocks.1.att.time_mix_k.time_mix_k"
     = "rwkv.blocks.1.attention.time_mix_key.time_mix_key"
  /\ spec_convert_key "blocks.1.att.time_mix_k.time_mix_k"
     = "rwkv.blocks.1.attention.time_mix_k.time_mix_key"
  /\ ~ (forall key, convert_key key = spec_convert_key key).
Proof.
  split; [reflexivity|]. split; [reflexivity|]. split; [reflexivity|].
  split; [reflexivity|].
  intros H. specialize (H "emb.emb.weight"). discriminate H.
Qed.
